(** * capture_network: a shallow embedding of [capture_network.py]

    The script drives two tool servers, normalises what the browser
    server reports into a list of request records, filters the list,
    and writes it as newline-delimited JSON.  This file embeds the
    Python functions of the script as Rocq functions and proves the
    properties the specification states about them.

    Conventions.
    - Python values are the inductive [value]; a dict is an association
      list in insertion order (keys are unique in a real dict, and
      [dict_get] returns the first binding).
    - Code that can raise returns [result A]: [Ok a] or [Raise e].
    - Code that talks to the tool servers, sleeps, logs or prints runs
      in the monad [M], a state-and-exception monad over an abstract
      world together with the trace of observable events.
    - A [float] is a binary64 number ([spec_float]); products are
      rounded as IEEE 754 prescribes, and an [int] that meets a [float]
      is converted first, which raises when it is too large.
    - What the script takes from the Python runtime and its libraries
      without defining it ([re], [json], [int] and [float] on strings,
      [str.upper], [str.split], [str] on non-strings, [logging],
      [argparse], the tool servers, the clock) is a Section variable:
      every theorem holds for all of them. *)

From Stdlib Require Import ZArith String Ascii Bool Lia.
From Stdlib Require Import Floats.SpecFloat DecimalString.
From stdpp Require Import base list strings.

Set Warnings "-register-all".

(** [simpl] may unfold string concatenation applied to a literal. *)
#[local] Arguments String.append !_ _ / : simpl nomatch.

Local Open Scope string_scope.
Local Open Scope Z_scope.
Local Open Scope list_scope.

(** ** Python values *)

Inductive value : Type :=
| VNone
| VBool (b : bool)
| VInt (n : Z)
| VFloat (f : spec_float)
| VStr (s : string)
| VList (xs : list value)
| VDict (kvs : list (string * value)).

(** Exceptions.  [KeyboardInterrupt], [SystemExit] and [CancelledError]
    derive from [BaseException] only; all others derive from
    [Exception].  [RuntimeError msg cause] carries its [__cause__]
    (the [raise ... from ...] operand). *)
Inductive exn : Type :=
| AttributeError
| TypeError
| ValueError
| OverflowError
| ReError
| AssertionError
| KeyboardInterrupt
| SystemExit
| CancelledError
| RemoteError (what : string)
| RuntimeError (msg : string) (cause : option exn).

Definition is_Exception (e : exn) : bool :=
  match e with
  | KeyboardInterrupt | SystemExit | CancelledError => false
  | _ => true
  end.

Inductive result (A : Type) : Type :=
| Ok (a : A)
| Raise (e : exn).
Arguments Ok {A} a.
Arguments Raise {A} e.

Definition rbind {A B} (r : result A) (k : A -> result B) : result B :=
  match r with
  | Ok a => k a
  | Raise e => Raise e
  end.

Declare Scope result_scope.
Delimit Scope result_scope with result.
Notation "'let*' x ':=' r 'in' k" := (rbind r (fun x => k))
  (at level 10, x name, r at level 100, k at level 200) : result_scope.

(** *** Truth value of an object ([bool(v)]) *)

Definition float_is_zero (f : spec_float) : bool :=
  match f with
  | S754_zero _ => true
  | _ => false
  end.

Definition truthy (v : value) : bool :=
  match v with
  | VNone => false
  | VBool b => b
  | VInt n => negb (n =? 0)
  | VFloat f => negb (float_is_zero f)
  | VStr s => negb (String.eqb s "")
  | VList xs => match xs with [] => false | _ => true end
  | VDict kvs => match kvs with [] => false | _ => true end
  end.

(** *** Dictionaries *)

Fixpoint dict_lookup (kvs : list (string * value)) (k : string) : option value :=
  match kvs with
  | [] => None
  | (k', v) :: rest => if String.eqb k' k then Some v else dict_lookup rest k
  end.

(** [d.get(k)] on a dict: the value, or [None]. *)
Definition dict_get (kvs : list (string * value)) (k : string) : value :=
  match dict_lookup kvs k with
  | Some v => v
  | None => VNone
  end.

(** [d.get(k, default)] on a dict. *)
Definition dict_get_default (kvs : list (string * value)) (k : string) (dflt : value) : value :=
  match dict_lookup kvs k with
  | Some v => v
  | None => dflt
  end.

(** [v.get(k)] on an arbitrary object: only a dict has the method. *)
Definition py_get (v : value) (k : string) : result value :=
  match v with
  | VDict kvs => Ok (dict_get kvs k)
  | _ => Raise AttributeError
  end.

Definition is_dict (v : value) : bool :=
  match v with VDict _ => true | _ => false end.


Definition is_none (v : value) : bool :=
  match v with VNone => true | _ => false end.

(** *** [int(v)] *)

(** Truncation toward zero of a finite float [(-1)^s * m * 2^e]. *)
Definition float_trunc (s : bool) (m : positive) (e : Z) : Z :=
  let magnitude :=
    if 0 <=? e then Z.pos m * 2 ^ e else Z.pos m / 2 ^ (- e) in
  if s then - magnitude else magnitude.

Definition float_to_int (f : spec_float) : result Z :=
  match f with
  | S754_zero _ => Ok 0
  | S754_infinity _ => Raise OverflowError
  | S754_nan => Raise ValueError
  | S754_finite s m e => Ok (float_trunc s m e)
  end.

(** *** Floats

    A Python [float] is a binary64 number: 53 bits of precision and
    exponents below 1024. *)
Definition float_prec : Z := 53.
Definition float_emax : Z := 1024.

(** [x * y] on two floats; it rounds to the nearest float and never
    raises. *)
Definition float_mul (x y : spec_float) : spec_float :=
  SFmul float_prec float_emax x y.

(** [float(n)] for an [int], as Python does it when an [int] meets a
    [float] in an arithmetic operation: the nearest float, or
    [OverflowError] when [n] is beyond the largest one. *)
Definition float_of_int (n : Z) : result spec_float :=
  match binary_normalize float_prec float_emax n 0 false with
  | S754_infinity _ => Raise OverflowError
  | f => Ok f
  end.

(** [x * n] for a [float] [x] and an [int] [n] *)
Definition float_mul_int (x : spec_float) (n : Z) : result spec_float :=
  (let* y := float_of_int n in Ok (float_mul x y))%result.

(** ** The Python runtime the script relies on

    Library behaviour that the script uses but does not define. *)
Class Runtime : Type := {
  (** a compiled [re.Pattern] *)
  pattern : Type;
  (** [re.compile(s)]; raises on a malformed expression *)
  re_compile : string -> result pattern;
  (** [bool(p.search(s))] *)
  re_search : pattern -> string -> bool;
  (** [int(s)] on a [str]; [None] stands for [ValueError] *)
  int_of_str : string -> option Z;
  (** [s.upper()] *)
  str_upper : string -> string;
  (** [str(v)] when [v] is not a [str] *)
  str_of_nonstr : value -> string;
  (** [json.loads(s)]; [None] stands for any exception it raises *)
  json_loads : string -> option value;
  (** [json.dumps(v, ensure_ascii=False)] *)
  json_dumps : value -> string;
  (** [float(s)] on a [str]; [None] stands for [ValueError] *)
  float_of_str : string -> option spec_float;
  (** [s.split()] *)
  str_split : string -> list string
}.

Section Pure.
Context {RT : Runtime}.
Local Open Scope result_scope.

Definition py_int (v : value) : result Z :=
  match v with
  | VNone => Raise TypeError
  | VBool b => Ok (if b then 1 else 0)
  | VInt n => Ok n
  | VFloat f => float_to_int f
  | VStr s => match int_of_str s with Some n => Ok n | None => Raise ValueError end
  | VList _ => Raise TypeError
  | VDict _ => Raise TypeError
  end.

Definition py_str (v : value) : string :=
  match v with
  | VStr s => s
  | _ => str_of_nonstr v
  end.

(** ** [filter_network_requests] *)

(** [(record.get(outer) or {}).get(inner) or record.get(inner)], the
    expression the loop evaluates for the method and for the status
    (and, followed by [or ""], for the URL).  The right operand of
    [or] is evaluated only when the left one is falsy. *)
Definition nested_or_flat (request_record : value) (outer inner : string) : result value :=
  let* sub := py_get request_record outer in
  let* nested := py_get (if truthy sub then sub else VDict []) inner in
  if truthy nested then Ok nested else py_get request_record inner.

Definition url_value_of (request_record : value) : result value :=
  let* v := nested_or_flat request_record "request" "url" in
  Ok (if truthy v then v else VStr "").

Definition method_value_of (request_record : value) : result value :=
  nested_or_flat request_record "request" "method".

Definition status_value_of (request_record : value) : result value :=
  nested_or_flat request_record "response" "status".

(** [compiled_url_pattern.search(url_value)]: the argument must be a
    string. *)
Definition pattern_search (p : pattern) (url_value : value) : result bool :=
  match url_value with
  | VStr s => Ok (re_search p s)
  | _ => Raise TypeError
  end.

(** One [try: if int(status_value) <op> bound: continue / except
    (TypeError, ValueError): pass] block.  [Ok true] is [continue];
    an exception of another class propagates. *)
Definition status_out_of_bound (below : bool) (bound : option Z) (status_value : value)
  : result bool :=
  match bound with
  | None => Ok false
  | Some b =>
      if is_none status_value then Ok false
      else match py_int status_value with
           | Ok n => Ok (if below then n <? b else b <? n)
           | Raise TypeError => Ok false
           | Raise ValueError => Ok false
           | Raise e => Raise e
           end
  end.

(** The body of the [for] loop: [Ok true] when the record is appended,
    [Ok false] when a [continue] is taken. *)
Definition filter_body (compiled_url_pattern : option pattern)
    (method_filter_upper : option string) (status_min status_max : option Z)
    (request_record : value) : result bool :=
  let* url_value := url_value_of request_record in
  let* method_value := method_value_of request_record in
  let* status_value := status_value_of request_record in
  let* url_miss :=
    match compiled_url_pattern with
    | Some p => (let* found := pattern_search p url_value in Ok (negb found))
    | None => Ok false
    end in
  if url_miss then Ok false else
  let method_miss :=
    match method_filter_upper with
    | Some wanted =>
        if String.eqb wanted "" then false
        else negb (truthy method_value)
             || negb (String.eqb (str_upper (py_str method_value)) wanted)
    | None => false
    end in
  if method_miss then Ok false else
  let* below := status_out_of_bound true status_min status_value in
  if below then Ok false else
  let* above := status_out_of_bound false status_max status_value in
  if above then Ok false else
  Ok true.

Fixpoint filter_loop (compiled_url_pattern : option pattern)
    (method_filter_upper : option string) (status_min status_max : option Z)
    (request_records filtered_records : list value) : result (list value) :=
  match request_records with
  | [] => Ok filtered_records
  | request_record :: rest =>
      let* keep := filter_body compiled_url_pattern method_filter_upper
                 status_min status_max request_record in
      filter_loop compiled_url_pattern method_filter_upper status_min status_max
        rest (if keep then filtered_records ++ [request_record] else filtered_records)
  end.

Definition filter_network_requests (request_records : option (list value))
    (url_regex method_filter : option string) (status_min status_max : option Z)
  : result (list value) :=
  match request_records with
  | None => Ok []
  | Some request_records =>
      let* compiled_url_pattern :=
        match url_regex with
        | Some s => if String.eqb s "" then Ok None
                    else (let* p := re_compile s in Ok (Some p))
        | None => Ok None
        end in
      let method_filter_upper :=
        match method_filter with
        | Some s => if String.eqb s "" then None else Some (str_upper s)
        | None => None
        end in
      filter_loop compiled_url_pattern method_filter_upper status_min status_max
        request_records []
  end.

(** ** [extract_tool_result_json] *)

(** A content entry of a tool result is either an object with
    attributes (the SDK's content classes) or a plain Python value,
    usually a dict.  A builtin value has none of the attributes [type],
    [json], [text]. *)
Inductive content_entry : Type :=
| EntryObject (attrs : list (string * value))
| EntryValue (v : value).

Record call_tool_result : Type := {
  content : option (list content_entry)
}.

(** [getattr(entry, name, None)] *)
Definition entry_getattr (entry : content_entry) (name : string) : value :=
  match entry with
  | EntryObject attrs => dict_get attrs name
  | EntryValue _ => VNone
  end.

(** [hasattr(entry, name)] *)
Definition entry_hasattr (entry : content_entry) (name : string) : bool :=
  match entry with
  | EntryObject attrs =>
      match dict_lookup attrs name with Some _ => true | None => false end
  | EntryValue _ => false
  end.

(** [v == s] for a string literal [s] *)
Definition eq_str (v : value) (s : string) : bool :=
  match v with
  | VStr s' => String.eqb s' s
  | _ => false
  end.

Definition entry_content_type (content_entry : content_entry) : value :=
  let content_type := entry_getattr content_entry "type" in
  match content_entry with
  | EntryValue (VDict kvs) =>
      if is_none content_type then dict_get kvs "type" else content_type
  | _ => content_type
  end.

(** [x or ""] *)
Definition or_empty (v : value) : value :=
  if truthy v then v else VStr "".

Definition entry_text_payload (content_entry : content_entry) : value :=
  if entry_hasattr content_entry "text"
  then or_empty (entry_getattr content_entry "text")
  else match content_entry with
       | EntryValue (VDict kvs) => or_empty (dict_get_default kvs "text" (VStr ""))
       | _ => VStr ""
       end.

(** [try: return json.loads(text_payload) / except Exception: return
    {"text": text_payload}]; [json.loads] raises [TypeError] on
    anything but a string. *)
Definition loads_or_wrap (text_payload : value) : value :=
  match text_payload with
  | VStr s =>
      match json_loads s with
      | Some parsed => parsed
      | None => VDict [("text", text_payload)]
      end
  | _ => VDict [("text", text_payload)]
  end.

(** What the ["json"] branch returns: the attribute [json], else the
    entry [json] of a dict, else [None]. *)
Definition entry_json_payload (content_entry : content_entry) : value :=
  if entry_hasattr content_entry "json"
  then entry_getattr content_entry "json"
  else match content_entry with
       | EntryValue (VDict kvs) => dict_get kvs "json"
       | _ => VNone
       end.

Fixpoint scan_content (entries : list content_entry) : value :=
  match entries with
  | [] => VNone
  | content_entry :: rest =>
      let content_type := entry_content_type content_entry in
      if eq_str content_type "json" then entry_json_payload content_entry
      else if eq_str content_type "text" then
        loads_or_wrap (entry_text_payload content_entry)
      else scan_content rest
  end.

(** The argument is [None] for a falsy [result]. *)
Definition extract_tool_result_json (result : option call_tool_result) : value :=
  match result with
  | None => VNone
  | Some r =>
      match content r with
      | None => VNone
      | Some entries => scan_content entries
      end
  end.

(** ** [serialize_to_jsonl] *)

Definition newline : string := String "010" EmptyString.

Definition serialize_to_jsonl (payload : value) : string :=
  match payload with
  | VNone => ""
  | VDict _ => json_dumps payload +:+ newline
  | VList items =>
      String.concat "" (map (fun item => json_dumps item +:+ newline) items)
  | _ => json_dumps (VDict [("value", payload)]) +:+ newline
  end.

(** ** The list coercion at the end of [capture_network_requests] *)

Definition normalize_to_list (network_payload : value) : list value :=
  match network_payload with
  | VNone => []
  | VList items => items
  | VDict kvs =>
      match dict_lookup kvs "requests" with
      | Some (VList inner) => inner
      | _ => [network_payload]
      end
  | _ => [VDict [("value", network_payload)]]
  end.

End Pure.

(** ** Strings *)

(** [needle in hay] *)
Fixpoint contains (needle hay : string) : bool :=
  String.prefix needle hay
  || match hay with
     | EmptyString => false
     | String _ rest => contains needle rest
     end.

(** [s.replace(old, new)] for a non-empty [old]: occurrences are found
    from left to right and do not overlap.  [skip] counts the
    characters of the occurrence just replaced that are still to be
    passed over. *)
Fixpoint replace_from (old new : string) (skip : nat) (s : string) : string :=
  match s with
  | EmptyString => EmptyString
  | String c rest =>
      match skip with
      | S k => replace_from old new k rest
      | O =>
          if String.prefix old s
          then new +:+ replace_from old new (Nat.pred (String.length old)) rest
          else String c (replace_from old new O rest)
      end
  end.

Definition str_replace (old new s : string) : string :=
  replace_from old new O s.

Fixpoint string_forallb (p : ascii -> bool) (s : string) : bool :=
  match s with
  | EmptyString => true
  | String c rest => p c && string_forallb p rest
  end.

Fixpoint string_drop (n : nat) (s : string) : string :=
  match n, s with
  | O, _ => s
  | S n', String _ rest => string_drop n' rest
  | S _, EmptyString => EmptyString
  end.

Definition is_digit (c : ascii) : bool :=
  let n := nat_of_ascii c in (48 <=? n)%nat && (n <=? 57)%nat.

Definition digit_char (d : Z) : ascii :=
  ascii_of_nat (48 + Z.to_nat d).

(** The [width] low decimal digits of [n], most significant first:
    the zero-padded rendering of [n] when [0 <= n < 10 ^ width]. *)
Fixpoint pad_decimal (width : nat) (n : Z) : string :=
  match width with
  | O => EmptyString
  | S w => pad_decimal w (n / 10) +:+ String (digit_char (n mod 10)) EmptyString
  end.

(** [str(n)] for an integer *)
Definition decimal (n : Z) : string :=
  DecimalString.NilZero.string_of_int (Z.to_int n).

(** ** Timestamps and output paths *)

(** What [datetime.now()] returns, to the second. *)
Record datetime : Type := {
  year : Z; month : Z; day : Z; hour : Z; minute : Z; second : Z
}.

Definition datetime_ok (now : datetime) : Prop :=
  1000 <= year now <= 9999 /\ 1 <= month now <= 12 /\ 1 <= day now <= 31
  /\ 0 <= hour now <= 23 /\ 0 <= minute now <= 59 /\ 0 <= second now <= 59.

(** [now.strftime("%Y%m%d_%H%M%S")] *)
Definition timestamp_yyyymmdd_hhmmss (now : datetime) : string :=
  pad_decimal 4 (year now) +:+ pad_decimal 2 (month now) +:+ pad_decimal 2 (day now)
  +:+ "_"
  +:+ pad_decimal 2 (hour now) +:+ pad_decimal 2 (minute now) +:+ pad_decimal 2 (second now).

(** What the script reads of the operating system: the environment
    variables, and for [os.path.expanduser] the password-database entry
    of the current user and the entries of named users. *)
Record os_env : Type := {
  environ : string -> option string;
  pw_dir_of_uid : option string;
  pw_dir_of_name : string -> option string
}.

(** [os.getenv(name, default)] *)
Definition getenv (os : os_env) (name default : string) : string :=
  match environ os name with
  | Some v => v
  | None => default
  end.

(** [(s[:i], s[i:])] for [i] the position of the first ["/"] in [s], or
    [len(s)] when there is none. *)
Fixpoint split_at_sep (s : string) : string * string :=
  match s with
  | EmptyString => (EmptyString, EmptyString)
  | String c rest =>
      if Ascii.eqb c "/" then (EmptyString, s)
      else let '(name, tail) := split_at_sep rest in (String c name, tail)
  end.

(** [s.rstrip("/")] *)
Fixpoint rstrip_sep (s : string) : string :=
  match s with
  | EmptyString => EmptyString
  | String c rest =>
      let rest' := rstrip_sep rest in
      if Ascii.eqb c "/" && String.eqb rest' "" then EmptyString else String c rest'
  end.

(** [posixpath.expanduser]: [path[1:i]] is the user name, [path[i:]]
    the tail kept after the home directory. *)
Definition expanduser (os : os_env) (path : string) : string :=
  match path with
  | String c rest =>
      if Ascii.eqb c "~" then
        let '(name, tail) := split_at_sep rest in
        let userhome :=
          if String.eqb name ""
          then match environ os "HOME" with
               | Some home => Some home
               | None => pw_dir_of_uid os
               end
          else pw_dir_of_name os name in
        match userhome with
        | None => path
        | Some userhome =>
            let expanded := rstrip_sep userhome +:+ tail in
            if String.eqb expanded "" then "/" else expanded
        end
      else path
  | EmptyString => path
  end.

Definition expand_output_path_template (os : os_env) (now : datetime)
    (path_template : string) : string :=
  expanduser os (str_replace "{ts}" (timestamp_yyyymmdd_hhmmss now) path_template).

(** [os.path.dirname]: everything up to and including the last ["/"],
    with trailing separators removed unless nothing else is left. *)
Fixpoint dirname_head (p : string) : string :=
  match p with
  | EmptyString => EmptyString
  | String c rest =>
      if contains "/" p then String c (dirname_head rest) else EmptyString
  end.

Definition dirname (p : string) : string :=
  let head := dirname_head p in
  if String.eqb (rstrip_sep head) "" then head else rstrip_sep head.

(** ** The world outside the script *)

Inductive session : Type := Playwright | Filesystem.

(** [StdioServerParameters(command=..., args=...)] *)
Record stdio_server_parameters : Type := {
  command : string;
  args : list string
}.

(** What a connection is opened to: the URL given to [sse_client], or
    the parameters given to [stdio_client]. *)
Inductive endpoint : Type :=
| SseEndpoint (url : string)
| StdioEndpoint (params : stdio_server_parameters).

(** The parser [build_parser] returns, as far as the script uses it:
    the defaults of its arguments, read from the environment when the
    parser is built. *)
Record parser : Type := {
  default_sse : string;
  default_fs_cmd : string;
  default_fs_args : list string;
  default_out : string;
  default_wait : spec_float;
  default_wait_mode : string;
  default_filter_url : option string;
  default_filter_method : option string;
  default_status_min : Z;
  default_status_max : Z
}.

(** The namespace [parse_args] returns. *)
Record cli_args : Type := {
  arg_url : string;
  arg_sse : string;
  arg_fs_cmd : string;
  arg_fs_args : list string;
  arg_out : string;
  arg_wait : spec_float;
  arg_wait_mode : string;
  arg_filter_url : option string;
  arg_filter_method : option string;
  arg_status_min : Z;
  arg_status_max : Z
}.

(** The two tool servers, the event loop's timer, the clock, and the
    libraries [logging] and [argparse].  Each operation takes the world
    to a new world and may raise. *)
Class Env : Type := {
  world : Type;
  (** entering [sse_client]/[stdio_client] and then [ClientSession] *)
  open_session : endpoint -> world -> result unit * world;
  (** [ClientSession.initialize] *)
  initialize_session : session -> world -> result unit * world;
  (** closing the exit stack *)
  close_sessions : world -> result unit * world;
  (** [ClientSession.call_tool(name, args)] *)
  call_tool : session -> string -> value -> world -> result call_tool_result * world;
  (** the names in [ClientSession.list_tools().tools] *)
  list_tools : session -> world -> result (list string) * world;
  (** [asyncio.sleep(seconds)] *)
  sleep : spec_float -> world -> result unit * world;
  (** [datetime.now()] *)
  clock : world -> datetime;
  (** looking the level up in [logging], [logging.basicConfig] with
      that level, the format, the date format and [sys.stdout] as
      stream, and quieting the three noisy loggers *)
  configure_logging : string -> string -> string -> world -> result unit * world;
  (** [parser.parse_args(argv)]; on a usage error [argparse] raises
      [SystemExit] *)
  parse_args : parser -> list string -> world -> result cli_args * world;
  os : os_env
}.

(** What the script does that can be observed.  [EvLog] and
    [EvRetryWarning] are records handed to [LOGGER]; [EvPrint] is a
    call of [print].  With the handler that [setup_logging] installs,
    the records that pass the level are written to standard output
    too. *)
Inductive event : Type :=
| EvCallTool (s : session) (tool_name : string) (tool_args : value)
| EvListTools (s : session)
| EvSleep (seconds : spec_float)
| EvRetryWarning (tool_name : string) (attempt_index retries : Z) (exc : exn)
    (sleep_seconds : spec_float)
| EvLog (level text : string)
| EvPrint (line : string).

(** The client object's two session attributes ([true]: set) beside
    the world and the events so far, oldest first. *)
Record client_state (W : Type) : Type := {
  st_world : W;
  playwright_session : bool;
  filesystem_session : bool;
  st_trace : list event
}.
Arguments st_world {W} _.
Arguments playwright_session {W} _.
Arguments filesystem_session {W} _.
Arguments st_trace {W} _.

Section Effects.
Context {RT : Runtime} {EV : Env}.

Definition state : Type := client_state world.

Definition M (A : Type) : Type := state -> result A * state.

Definition mret {A} (a : A) : M A := fun st => (Ok a, st).

Definition mraise {A} (e : exn) : M A := fun st => (Raise e, st).

Definition mbind {A B} (m : M A) (k : A -> M B) : M B :=
  fun st =>
    match m st with
    | (Ok a, st') => k a st'
    | (Raise e, st') => (Raise e, st')
    end.

Notation "'let+' x ':=' m 'in' k" := (mbind m (fun x => k))
  (at level 10, x name, m at level 100, k at level 200).
Notation "m ';;' k" := (mbind m (fun _ => k))
  (at level 100, k at level 200, right associativity).

(** [try: body / except ...: ...]: [clauses e] is the handler of the
    first [except] clause that matches [e], if any.  An exception
    raised by a handler is not handled by a sibling clause. *)
Definition try_except {A} (body : M A) (clauses : exn -> option (M A)) : M A :=
  fun st =>
    match body st with
    | (Ok a, st') => (Ok a, st')
    | (Raise e, st') =>
        match clauses e with
        | Some handler => handler st'
        | None => (Raise e, st')
        end
    end.

(** [except Exception as exc: handler exc] *)
Definition except_Exception {A} (handler : exn -> M A) : exn -> option (M A) :=
  fun exc => if is_Exception exc then Some (handler exc) else None.

Definition emit (e : event) : M unit :=
  fun st =>
    (Ok tt, {| st_world := st_world st;
               playwright_session := playwright_session st;
               filesystem_session := filesystem_session st;
               st_trace := st_trace st ++ [e] |}).

(** Run a world operation, recording [e] before it. *)
Definition perform {A} (e : option event) (op : world -> result A * world) : M A :=
  fun st =>
    let '(r, w') := op (st_world st) in
    (r, {| st_world := w';
           playwright_session := playwright_session st;
           filesystem_session := filesystem_session st;
           st_trace := match e with
                       | Some e => st_trace st ++ [e]
                       | None => st_trace st
                       end |}).

Definition set_session (s : session) (b : bool) : M unit :=
  fun st =>
    (Ok tt, {| st_world := st_world st;
               playwright_session :=
                 match s with Playwright => b | Filesystem => playwright_session st end;
               filesystem_session :=
                 match s with Filesystem => b | Playwright => filesystem_session st end;
               st_trace := st_trace st |}).

Definition session_is_set (s : session) : M bool :=
  fun st =>
    (Ok match s with
        | Playwright => playwright_session st
        | Filesystem => filesystem_session st
        end, st).

(** [pure r] runs code that cannot touch the world. *)
Definition pure {A} (r : result A) : M A := fun st => (r, st).

Definition log (level text : string) : M unit := emit (EvLog level text).

Definition do_call_tool (s : session) (tool_name : string) (tool_args : value)
  : M call_tool_result :=
  perform (Some (EvCallTool s tool_name tool_args)) (call_tool s tool_name tool_args).

Definition do_sleep (seconds : spec_float) : M unit :=
  perform (Some (EvSleep seconds)) (sleep seconds).

(** ** [call_tool_with_retry] *)

(** [RuntimeError(f"Tool {tool_name} failed after {retries} retries")]
    raised [from last_exception]. *)
Definition retry_failure (tool_name : string) (retries : Z) (last_exception : option exn)
  : exn :=
  RuntimeError ("Tool " +:+ tool_name +:+ " failed after " +:+ decimal retries +:+ " retries")
    last_exception.

(** [tool_args or {}] *)
Definition or_empty_dict (tool_args : value) : value :=
  if truthy tool_args then tool_args else VDict [].

(** The [while attempt_index <= retries] loop followed by the final
    [raise].  [fuel] bounds the number of iterations; the loop needs
    at most [retries + 1] of them.  The delay is the float
    [backoff_seconds * (2 ** (attempt_index - 1))], whose right operand
    is an [int] that has to be converted first. *)
Fixpoint retry_loop (fuel : nat) (client_session : session) (tool_name : string)
    (tool_args : value) (retries : Z) (backoff_seconds : spec_float)
    (attempt_index : Z) (last_exception : option exn) : M call_tool_result :=
  match fuel with
  | O => mraise (retry_failure tool_name retries last_exception)
  | S fuel' =>
      if attempt_index <=? retries then
        try_except
          (do_call_tool client_session tool_name (or_empty_dict tool_args))
          (except_Exception (fun exc =>
             let attempt_index := attempt_index + 1 in
             if retries <? attempt_index
             then mraise (retry_failure tool_name retries (Some exc))
             else
               let+ sleep_seconds :=
                 pure (float_mul_int backoff_seconds (2 ^ (attempt_index - 1))) in
               emit (EvRetryWarning tool_name attempt_index retries exc sleep_seconds) ;;
               do_sleep sleep_seconds ;;
               retry_loop fuel' client_session tool_name tool_args retries
                 backoff_seconds attempt_index (Some exc)))
      else mraise (retry_failure tool_name retries last_exception)
  end.

Definition call_tool_with_retry (client_session : session) (tool_name : string)
    (tool_args : value) (retries : Z) (backoff_seconds : spec_float)
  : M call_tool_result :=
  retry_loop (Z.to_nat (retries + 1)) client_session tool_name tool_args
    retries backoff_seconds 0 None.

(** The defaults of the keyword arguments: [2] and [0.75]. *)
Definition default_retries : Z := 2.
Definition default_backoff_seconds : spec_float :=
  S754_finite false 6755399441055744 (-53).

Definition call_tool_with_retry_default (client_session : session) (tool_name : string)
    (tool_args : value) : M call_tool_result :=
  call_tool_with_retry client_session tool_name tool_args
    default_retries default_backoff_seconds.

(** ** [NetworkCaptureClient] *)

(** The two attributes [__init__] stores. *)
Record client : Type := {
  playwright_sse_url : string;
  filesystem_stdio_params : stdio_server_parameters
}.

(** [__aenter__] *)
Definition client_aenter (self : client) : M unit :=
  perform None (open_session (SseEndpoint (playwright_sse_url self))) ;;
  set_session Playwright true ;;
  perform None (initialize_session Playwright) ;;
  perform None (open_session (StdioEndpoint (filesystem_stdio_params self))) ;;
  set_session Filesystem true ;;
  perform None (initialize_session Filesystem) ;;
  log "INFO" "Connected to Playwright MCP (SSE) and Filesystem MCP (stdio)".

(** [__aexit__]; it returns [None], so it never swallows the exception
    it is told about. *)
Definition client_aexit : M unit :=
  perform None close_sessions ;;
  set_session Playwright false ;;
  set_session Filesystem false ;;
  log "INFO" "Disconnected MCP sessions".

(** [async with NetworkCaptureClient(...) as capture_client: body] *)
Definition async_with_client {A} (self : client) (body : M A) : M A :=
  client_aenter self ;;
  fun st =>
    match body st with
    | (Ok a, st') =>
        match client_aexit st' with
        | (Ok _, st'') => (Ok a, st'')
        | (Raise e', st'') => (Raise e', st'')
        end
    | (Raise e, st') =>
        match client_aexit st' with
        | (Ok _, st'') => (Raise e, st'')
        | (Raise e', st'') => (Raise e', st'')
        end
    end.

Definition tool_is_available (client_session : session) (tool_name : string) : M bool :=
  try_except
    (let+ tools := perform (Some (EvListTools client_session)) (list_tools client_session) in
     mret (existsb (String.eqb tool_name) tools))
    (except_Exception (fun exc =>
       log "WARNING" "Error checking tool availability" ;;
       mret false)).

(** [assert session, msg] *)
Definition assert_session (s : session) : M unit :=
  let+ present := session_is_set s in
  if present then mret tt else mraise AssertionError.

(** The arguments of a logging call and of a tool call are evaluated
    before the call: [int(wait_timeout_seconds)] before the log line of
    the idle wait, [int(wait_timeout_seconds * 1000)] before the
    wrapper is entered. *)
Definition capture_network_requests (navigate_url wait_mode : string)
    (wait_timeout_seconds : spec_float) : M (list value) :=
  assert_session Playwright ;;
  log "INFO" "Navigating" ;;
  call_tool_with_retry_default Playwright "browser_navigate"
    (VDict [("url", VStr navigate_url)]) ;;
  let+ available := tool_is_available Playwright "browser_wait_for" in
  (if available then
     if String.eqb wait_mode "sleep" then
       log "INFO" "Waiting (sleep)" ;;
       do_sleep wait_timeout_seconds
     else if String.eqb wait_mode "networkidle" then
       let+ whole_seconds := pure (float_to_int wait_timeout_seconds) in
       log "INFO" "Waiting for state=networkidle" ;;
       let+ timeout :=
         pure (let* milliseconds := float_mul_int wait_timeout_seconds 1000 in
               float_to_int milliseconds)%result in
       call_tool_with_retry_default Playwright "browser_wait_for"
         (VDict [("state", VStr "networkidle"); ("timeout", VInt timeout)]) ;;
       mret tt
     else
       log "INFO" "Unknown wait_mode, defaulting to sleep" ;;
       do_sleep wait_timeout_seconds
   else
     log "INFO" "browser_wait_for not available, sleeping" ;;
     do_sleep wait_timeout_seconds) ;;
  log "INFO" "Fetching network requests" ;;
  let+ call_result :=
    call_tool_with_retry_default Playwright "browser_network_requests" (VDict []) in
  let network_payload := extract_tool_result_json (Some call_result) in
  mret (normalize_to_list network_payload).

Definition save_jsonl (request_records : list value) (output_path : string) : M string :=
  assert_session Filesystem ;;
  let+ now := (fun st => (Ok (clock (st_world st)), st)) in
  let expanded_output_path := expand_output_path_template os now output_path in
  let output_directory := dirname expanded_output_path in
  let+ available := tool_is_available Filesystem "create_directory" in
  (if available then
     try_except
       (call_tool_with_retry_default Filesystem "create_directory"
          (VDict [("path", VStr output_directory)]) ;;
        log "INFO" "Ensured directory")
       (except_Exception (fun exc =>
          log "WARNING" "create_directory failed (non-fatal)"))
   else mret tt) ;;
  let jsonl_blob := serialize_to_jsonl (VList request_records) in
  call_tool_with_retry_default Filesystem "write_file"
    (VDict [("path", VStr expanded_output_path); ("content", VStr jsonl_blob)]) ;;
  log "INFO" "Saved lines" ;;
  mret expanded_output_path.

(** ** The command line driver *)

(** [setup_logging] *)
Definition setup_logging : M unit :=
  let level_str := str_upper (getenv os "LOG_LEVEL" "INFO") in
  let log_format :=
    getenv os "LOG_FORMAT" "%(asctime)s %(levelname)s %(name)s - %(message)s" in
  let log_datefmt := getenv os "LOG_DATEFMT" "%Y-%m-%d %H:%M:%S" in
  perform None (configure_logging level_str log_format log_datefmt).

(** [float(s)] on a string *)
Definition py_float_of_str (s : string) : result spec_float :=
  match float_of_str s with
  | Some f => Ok f
  | None => Raise ValueError
  end.

(** [build_parser]: the defaults are computed while the arguments are
    declared, so a variable that does not read as a number makes the
    construction raise. *)
Definition build_parser (os : os_env) : result parser :=
  (let sse := getenv os "PLAYWRIGHT_MCP_SSE_URL" "http://127.0.0.1:8931/sse" in
   let fs_cmd := getenv os "FILESYSTEM_MCP_CMD" "npx" in
   let fs_args :=
     str_split (getenv os "FILESYSTEM_MCP_ARGS"
                  "@agent-infra/mcp-server-filesystem@latest") in
   let out :=
     getenv os "CAPTURE_OUT"
       (expanduser os "~/mcp_captures/captures/capture_{ts}.jsonl") in
   let* wait := py_float_of_str (getenv os "CAPTURE_WAIT_SECS" "5") in
   let wait_mode := getenv os "CAPTURE_WAIT_MODE" "networkidle" in
   let filter_url := environ os "CAPTURE_FILTER_URL" in
   let filter_method := environ os "CAPTURE_FILTER_METHOD" in
   let* status_min := py_int (VStr (getenv os "CAPTURE_STATUS_MIN" "0")) in
   let* status_max := py_int (VStr (getenv os "CAPTURE_STATUS_MAX" "999")) in
   Ok {| default_sse := sse;
         default_fs_cmd := fs_cmd;
         default_fs_args := fs_args;
         default_out := out;
         default_wait := wait;
         default_wait_mode := wait_mode;
         default_filter_url := filter_url;
         default_filter_method := filter_method;
         default_status_min := status_min;
         default_status_max := status_max |})%result.

(** The first statements of [run_async], up to the [try]: the logging
    setup, the parser, the parsed arguments. *)
Definition run_configure (argv : list string) : M (parser * cli_args) :=
  setup_logging ;;
  let+ parser := pure (build_parser os) in
  let+ cli_args := perform None (parse_args parser argv) in
  mret (parser, cli_args).

(** The test that guards the log line of the filter. *)
Definition filter_requested (parser : parser) (cli_args : cli_args) : bool :=
  match arg_filter_url cli_args with
  | Some s => negb (String.eqb s "") | None => false end
  || match arg_filter_method cli_args with
     | Some s => negb (String.eqb s "") | None => false end
  || negb (arg_status_min cli_args =? default_status_min parser)
  || negb (arg_status_max cli_args =? default_status_max parser).

(** Modelled from the spec: the statement of [run_async] that saves the
    records and binds [saved_output_path].  The source listing breaks
    off there: of the statement it keeps the argument list
    [filtered_requests, cli_args.out] and the closing parenthesis, and
    no other line assigns [saved_output_path].  The specification has
    the driver hand the list to the session's persist step, which
    returns the expanded output path, and print that path; the only
    function of the session that takes records and a path template is
    [save_jsonl]. *)
Definition save_step (filtered_requests : list value) (cli_args : cli_args) : M string :=
  save_jsonl filtered_requests (arg_out cli_args).

(** The body of the [try] statement of [run_async]; its value is the
    path that was printed.  The statement that saves is [save_step]. *)
Definition run_try_body (parser : parser) (cli_args : cli_args)
    (filesystem_stdio_params : stdio_server_parameters) : M string :=
  async_with_client
    {| playwright_sse_url := arg_sse cli_args;
       filesystem_stdio_params := filesystem_stdio_params |}
    (log "INFO" "Starting capture" ;;
     let+ captured_requests :=
       capture_network_requests (arg_url cli_args) (arg_wait_mode cli_args)
         (arg_wait cli_args) in
     let+ filtered_requests :=
       pure (filter_network_requests (Some captured_requests)
               (arg_filter_url cli_args) (arg_filter_method cli_args)
               (Some (arg_status_min cli_args)) (Some (arg_status_max cli_args))) in
     let+ filtered_requests :=
       if filter_requested parser cli_args
       then log "INFO" "Filtered requests" ;; mret filtered_requests
       else mret captured_requests in
     let+ saved_output_path := save_step filtered_requests cli_args in
     emit (EvPrint saved_output_path) ;;
     mret saved_output_path).

(** The [except] clauses of [run_async]. *)
Definition run_handlers (exc : exn) : option (M Z) :=
  match exc with
  | KeyboardInterrupt => Some (log "WARNING" "Interrupted" ;; mret 130)
  | _ => except_Exception (fun exc => log "ERROR" "Fatal error" ;; mret 1) exc
  end.

(** [run_async]: the exit status. *)
Definition run_async (argv : list string) : M Z :=
  let+ configuration := run_configure argv in
  let '(parser, cli_args) := configuration in
  let filesystem_stdio_params :=
    {| command := arg_fs_cmd cli_args; args := arg_fs_args cli_args |} in
  try_except
    (run_try_body parser cli_args filesystem_stdio_params ;; mret 0)
    run_handlers.

End Effects.

(** ** Notions the properties are stated with *)

(** The shape of a Request Record in the data model: a mapping whose
    [request] and [response] entries, when present and not empty or
    null, are mappings themselves. *)
Definition submapping_ok (v : value) : bool :=
  negb (truthy v) || is_dict v.

Definition is_request_record (r : value) : bool :=
  match r with
  | VDict kvs =>
      submapping_ok (dict_get kvs "request") && submapping_ok (dict_get kvs "response")
  | _ => false
  end.

(** [(record.get(outer) or {}).get(inner)] for a record with entries
    [kvs] whose [outer] entry is a mapping or falsy. *)
Definition nested_value (kvs : list (string * value)) (outer inner : string) : value :=
  match dict_get kvs outer with
  | VDict sub => dict_get sub inner
  | _ => VNone
  end.

(** What an entry carries under [name]: the attribute of an object,
    the item of a mapping; nothing for any other value. *)
Definition embedded (e : content_entry) (name : string) : option value :=
  match e with
  | EntryObject attrs => dict_lookup attrs name
  | EntryValue (VDict kvs) => dict_lookup kvs name
  | EntryValue _ => None
  end.

(** The entry is tagged [tag]: its [type] is that string.  An object
    whose [type] attribute is [None] and that is no mapping has no
    tag. *)
Definition tagged (e : content_entry) (tag : string) : Prop :=
  match embedded e "type" with
  | Some v => v = VStr tag
  | None => False
  end.

(** An entry the normalizer passes over: tagged neither ["json"] nor
    ["text"]. *)
Definition unknown_tag (e : content_entry) : Prop :=
  ~ tagged e "json" /\ ~ tagged e "text".

(** The text of a ["text"] entry: what it carries under [text], or the
    empty string when it carries nothing or something falsy there. *)
Definition text_of (e : content_entry) : value :=
  match embedded e "text" with
  | Some v => if truthy v then v else VStr ""
  | None => VStr ""
  end.

(** Splitting a text into its lines: a line ends at each newline
    character, and what follows the last newline is a line only when it
    is not empty.  [line] is the part of the current line already
    read. *)
Fixpoint split_lines_from (line s : string) : list string :=
  match s with
  | EmptyString => if String.eqb line "" then [] else [line]
  | String c rest =>
      if Ascii.eqb c "010" then line :: split_lines_from "" rest
      else split_lines_from (line +:+ String c EmptyString) rest
  end.

Definition split_lines (s : string) : list string := split_lines_from "" s.

(** [c in s] for a character *)
Fixpoint occurs (c : ascii) (s : string) : bool :=
  match s with
  | EmptyString => false
  | String c' rest => Ascii.eqb c c' || occurs c rest
  end.

(** The number a string of decimal digits denotes. *)
Fixpoint digits_number (acc : Z) (s : string) : Z :=
  match s with
  | EmptyString => acc
  | String c rest => digits_number (10 * acc + (Z.of_nat (nat_of_ascii c) - 48)) rest
  end.

(** [s[start : start + len]] *)
Fixpoint string_take (n : nat) (s : string) : string :=
  match n, s with
  | S n', String c rest => String c (string_take n' rest)
  | _, _ => EmptyString
  end.

Definition field (start len : nat) (s : string) : Z :=
  digits_number 0 (string_take len (string_drop start s)).

(** The characters of a timestamp. *)
Definition timestamp_char (c : ascii) : bool := is_digit c || Ascii.eqb c "_".

(** [lo'] is no tighter a lower bound than [lo]; [hi'] no tighter an
    upper bound than [hi].  An absent bound is the loosest. *)
Definition min_looser (lo' lo : option Z) : Prop :=
  match lo', lo with
  | None, _ => True
  | Some a, Some b => a <= b
  | Some _, None => False
  end.

Definition max_looser (hi' hi : option Z) : Prop :=
  match hi', hi with
  | None, _ => True
  | Some a, Some b => b <= a
  | Some _, None => False
  end.

(** [b] is empty or starts with a character that is not in [u]. *)
Definition starts_outside (u b : string) : Prop :=
  match b with
  | EmptyString => True
  | String c _ => occurs c u = false
  end.

(** No home directory the system can answer with contains the
    placeholder. *)
Definition home_dirs_plain (os : os_env) : Prop :=
  forall home,
    environ os "HOME" = Some home \/ pw_dir_of_uid os = Some home
    \/ (exists name, pw_dir_of_name os name = Some home) ->
    contains "{ts}" home = false.

Section Notions.
Context {RT : Runtime}.

(** The records the loop of [filter_network_requests] appends. *)
Definition keeps (p : option pattern) (m : option string) (lo hi : option Z)
    (r : value) : bool :=
  match filter_body p m lo hi r with
  | Ok true => true
  | _ => false
  end.

(** The first two assignments of [filter_network_requests]:
    [re.compile(url_regex) if url_regex else None] and
    [method_filter.upper() if method_filter else None]. *)
Definition compiled_pattern (url_regex : option string) : result (option pattern) :=
  match url_regex with
  | Some s => if String.eqb s "" then Ok None
              else (let* p := re_compile s in Ok (Some p))%result
  | None => Ok None
  end.

Definition upper_method (method_filter : option string) : option string :=
  match method_filter with
  | Some s => if String.eqb s "" then None else Some (str_upper s)
  | None => None
  end.

(** [json.dumps] and [json.loads] agree on [r], and the rendering of
    [r] holds no newline character. *)
Definition json_representable (r : value) : Prop :=
  json_loads (json_dumps r) = Some r /\ contains newline (json_dumps r) = false.

End Notions.

(** The float [2.0 ** k], for [k] in the range of the exponents. *)
Definition float_pow2 (k : Z) : spec_float :=
  S754_finite false 4503599627370496 (k - 52).

(** [float(2 ** k)] gives [float_pow2 k]. *)
Definition pow2_converts (k : Z) : bool :=
  match float_of_int (2 ^ k) with
  | Ok (S754_finite false m e) => Pos.eqb m 4503599627370496 && (e =? k - 52)
  | _ => false
  end.

Fixpoint count_calls (events : list event) : nat :=
  match events with
  | [] => O
  | EvCallTool _ _ _ :: rest => S (count_calls rest)
  | _ :: rest => count_calls rest
  end.

(** The durations handed to [asyncio.sleep], in order. *)
Fixpoint sleeps (events : list event) : list spec_float :=
  match events with
  | [] => []
  | EvSleep seconds :: rest => seconds :: sleeps rest
  | _ :: rest => sleeps rest
  end.

(** What [capture_network_requests] may do: traffic with the browser
    server only, the three tool calls of the capture with their
    arguments, the idle wait only in the mode [networkidle] and with
    the timeout [int(wait_timeout_seconds * 1000)], log records, and
    sleeps.  It never calls [print]. *)
Definition capture_event_allowed (navigate_url wait_mode : string)
    (wait_timeout_seconds : spec_float) (e : event) : Prop :=
  match e with
  | EvCallTool s tool_name tool_args =>
      s = Playwright
      /\ ((tool_name = "browser_navigate"
           /\ tool_args = VDict [("url", VStr navigate_url)])
          \/ (tool_name = "browser_wait_for"
              /\ wait_mode = "networkidle"
              /\ exists milliseconds timeout,
                   float_mul_int wait_timeout_seconds 1000 = Ok milliseconds
                   /\ float_to_int milliseconds = Ok timeout
                   /\ tool_args
                      = VDict [("state", VStr "networkidle"); ("timeout", VInt timeout)])
          \/ (tool_name = "browser_network_requests" /\ tool_args = VDict []))
  | EvListTools s => s = Playwright
  | EvPrint _ => False
  | _ => True
  end.

(** What [save_jsonl] may do when the expanded path is [path]: traffic
    with the storage server only, the creation of the parent directory
    of [path], the write of [content] to [path], log records, and
    sleeps.  It never calls [print]. *)
Definition save_event_allowed (path content : string) (e : event) : Prop :=
  match e with
  | EvCallTool s tool_name tool_args =>
      s = Filesystem
      /\ ((tool_name = "create_directory"
           /\ tool_args = VDict [("path", VStr (dirname path))])
          \/ (tool_name = "write_file"
              /\ tool_args = VDict [("path", VStr path); ("content", VStr content)]))
  | EvListTools s => s = Filesystem
  | EvPrint _ => False
  | _ => True
  end.

Section EffectNotions.
Context {EV : Env}.

(** [st'] has the events of [st] and then [new]. *)
Definition extends (st st' : state) (new : list event) : Prop :=
  st_trace st' = st_trace st ++ new.

(** Whatever [m] does, the events it adds all satisfy [P]. *)
Definition emits_only {A} (P : event -> Prop) (m : M A) : Prop :=
  forall st r st', m st = (r, st') ->
    exists new, extends st st' new /\ Forall P new.


(** [failed_attempts ... k st st']: from [st], [k] calls of the tool
    in a row raised an [Exception]; after each, the delay
    [backoff_seconds * 2 ** (attempt - 1)] ([attempt] counting from 1)
    was computed, the retry warning was logged and a sleep of that
    delay completed; and the state is now [st']. *)
Inductive failed_attempts (client_session : session) (tool_name : string)
    (tool_args : value) (retries : Z) (backoff_seconds : spec_float)
  : nat -> state -> state -> Prop :=
| fa_none st :
    failed_attempts client_session tool_name tool_args retries backoff_seconds O st st
| fa_next k st st1 exc st2 sleep_seconds st3 :
    failed_attempts client_session tool_name tool_args retries backoff_seconds k st st1 ->
    do_call_tool client_session tool_name (or_empty_dict tool_args) st1 = (Raise exc, st2) ->
    is_Exception exc = true ->
    let attempt := Z.of_nat (S k) in
    float_mul_int backoff_seconds (2 ^ (attempt - 1)) = Ok sleep_seconds ->
    mbind (emit (EvRetryWarning tool_name attempt retries exc sleep_seconds))
      (fun _ => do_sleep sleep_seconds) st2 = (Ok tt, st3) ->
    failed_attempts client_session tool_name tool_args retries backoff_seconds (S k) st st3.

(** How a run of the wrapper from [st] can end: with the result of the
    first call that succeeds; with the terminal error, caused by the
    last failure, when attempt [retries + 1] fails too; with an
    exception of a call that is no [Exception]; or with what a backoff
    sleep raises. *)
Inductive retry_outcome (client_session : session) (tool_name : string)
    (tool_args : value) (retries : Z) (backoff_seconds : spec_float) (st : state)
  : result call_tool_result -> state -> Prop :=
| ro_success k st1 v st2 :
    failed_attempts client_session tool_name tool_args retries backoff_seconds k st st1 ->
    Z.of_nat k <= retries ->
    do_call_tool client_session tool_name (or_empty_dict tool_args) st1 = (Ok v, st2) ->
    retry_outcome client_session tool_name tool_args retries backoff_seconds st (Ok v) st2
| ro_exhausted st1 exc st2 :
    failed_attempts client_session tool_name tool_args retries backoff_seconds
      (Z.to_nat retries) st st1 ->
    do_call_tool client_session tool_name (or_empty_dict tool_args) st1 = (Raise exc, st2) ->
    is_Exception exc = true ->
    retry_outcome client_session tool_name tool_args retries backoff_seconds st
      (Raise (RuntimeError
                ("Tool " +:+ tool_name +:+ " failed after " +:+ decimal retries
                 +:+ " retries")
                (Some exc))) st2
| ro_passed_on k st1 exc st2 :
    failed_attempts client_session tool_name tool_args retries backoff_seconds k st st1 ->
    Z.of_nat k <= retries ->
    do_call_tool client_session tool_name (or_empty_dict tool_args) st1 = (Raise exc, st2) ->
    is_Exception exc = false ->
    retry_outcome client_session tool_name tool_args retries backoff_seconds st
      (Raise exc) st2
| ro_woken k st1 exc st2 sleep_seconds e st3 :
    failed_attempts client_session tool_name tool_args retries backoff_seconds k st st1 ->
    Z.of_nat (S k) <= retries ->
    do_call_tool client_session tool_name (or_empty_dict tool_args) st1 = (Raise exc, st2) ->
    is_Exception exc = true ->
    float_mul_int backoff_seconds (2 ^ (Z.of_nat (S k) - 1)) = Ok sleep_seconds ->
    mbind (emit (EvRetryWarning tool_name (Z.of_nat (S k)) retries exc sleep_seconds))
      (fun _ => do_sleep sleep_seconds) st2 = (Raise e, st3) ->
    retry_outcome client_session tool_name tool_args retries backoff_seconds st
      (Raise e) st3.

End EffectNotions.
(** ** A small runtime and a scripted world

    Instances on which the model can be run: a regular-expression
    engine for literal patterns, decimal integers, ASCII upper-casing,
    and a JSON printer and parser for null, booleans, integers, strings,
    lists and objects; tool servers that fail a given number of calls
    and then answer from a script. *)
Module Sample.

Definition dquote : ascii := "034".
Definition backslash : ascii := "092".

Definition upper_char (c : ascii) : ascii :=
  let n := nat_of_ascii c in
  if (97 <=? n)%nat && (n <=? 122)%nat then ascii_of_nat (n - 32) else c.

Fixpoint upper (s : string) : string :=
  match s with
  | EmptyString => EmptyString
  | String c rest => String (upper_char c) (upper rest)
  end.

Fixpoint digits_value (acc : Z) (s : string) : option Z :=
  match s with
  | EmptyString => Some acc
  | String c rest =>
      if is_digit c
      then digits_value (10 * acc + Z.of_nat (nat_of_ascii c - 48)) rest
      else None
  end.

Definition parse_int (s : string) : option Z :=
  match s with
  | EmptyString => None
  | String c rest =>
      if Ascii.eqb c "-"
      then match rest with
           | EmptyString => None
           | _ => option_map Z.opp (digits_value 0 rest)
           end
      else digits_value 0 s
  end.

Definition show (v : value) : string :=
  match v with
  | VNone => "None"
  | VBool b => if b then "True" else "False"
  | VInt n => decimal n
  | VStr s => s
  | _ => "<object>"
  end.

Fixpoint escape (s : string) : string :=
  match s with
  | EmptyString => EmptyString
  | String c rest =>
      if Ascii.eqb c dquote then String backslash (String dquote (escape rest))
      else if Ascii.eqb c backslash then String backslash (String backslash (escape rest))
      else if Ascii.eqb c "010" then String backslash (String "n" (escape rest))
      else String c (escape rest)
  end.

Definition quote (s : string) : string :=
  String dquote (escape s +:+ String dquote EmptyString).

Fixpoint dumps (v : value) : string :=
  match v with
  | VNone => "null"
  | VBool b => if b then "true" else "false"
  | VInt n => decimal n
  | VFloat _ => "NaN"
  | VStr s => quote s
  | VList xs => "[" +:+ String.concat ", " (map dumps xs) +:+ "]"
  | VDict kvs =>
      "{" +:+ String.concat ", "
                (map (fun kv => quote (fst kv) +:+ ": " +:+ dumps (snd kv)) kvs)
          +:+ "}"
  end.

Definition is_ws (c : ascii) : bool :=
  Ascii.eqb c " " || Ascii.eqb c "009" || Ascii.eqb c "010" || Ascii.eqb c "013".

Fixpoint skip_ws (s : string) : string :=
  match s with
  | String c rest => if is_ws c then skip_ws rest else s
  | EmptyString => EmptyString
  end.

(** After the opening quote: the decoded string and what follows the
    closing quote. *)
Fixpoint parse_string_body (s : string) : option (string * string) :=
  match s with
  | EmptyString => None
  | String c rest =>
      if Ascii.eqb c dquote then Some (EmptyString, rest)
      else if Ascii.eqb c backslash then
        match rest with
        | String e rest' =>
            let decoded :=
              if Ascii.eqb e "n" then Some "010"%char
              else if Ascii.eqb e dquote then Some dquote
              else if Ascii.eqb e backslash then Some backslash
              else None in
            match decoded, parse_string_body rest' with
            | Some ch, Some (t, after) => Some (String ch t, after)
            | _, _ => None
            end
        | EmptyString => None
        end
      else match parse_string_body rest with
           | Some (t, after) => Some (String c t, after)
           | None => None
           end
  end.

Fixpoint span_digits (s : string) : string * string :=
  match s with
  | String c rest =>
      if is_digit c
      then let '(d, after) := span_digits rest in (String c d, after)
      else (EmptyString, s)
  | EmptyString => (EmptyString, EmptyString)
  end.

Definition parse_number (s : string) : option (value * string) :=
  let '(negative, body) :=
    match s with
    | String c rest => if Ascii.eqb c "-" then (true, rest) else (false, s)
    | EmptyString => (false, s)
    end in
  let '(d, after) := span_digits body in
  match d, digits_value 0 d with
  | String _ _, Some n => Some (VInt (if negative then - n else n), after)
  | _, _ => None
  end.

Fixpoint parse_value (fuel : nat) (s : string) : option (value * string) :=
  match fuel with
  | O => None
  | S fuel' =>
      let s := skip_ws s in
      if String.prefix "null" s then Some (VNone, string_drop 4 s)
      else if String.prefix "true" s then Some (VBool true, string_drop 4 s)
      else if String.prefix "false" s then Some (VBool false, string_drop 5 s)
      else
        match s with
        | EmptyString => None
        | String c rest =>
            if Ascii.eqb c dquote then
              match parse_string_body rest with
              | Some (t, after) => Some (VStr t, after)
              | None => None
              end
            else if Ascii.eqb c "[" then
              let rest := skip_ws rest in
              if String.prefix "]" rest then Some (VList [], string_drop 1 rest)
              else parse_elements fuel' rest
            else if Ascii.eqb c "{" then
              let rest := skip_ws rest in
              if String.prefix "}" rest then Some (VDict [], string_drop 1 rest)
              else parse_members fuel' rest
            else parse_number s
        end
  end
with parse_elements (fuel : nat) (s : string) : option (value * string) :=
  match fuel with
  | O => None
  | S fuel' =>
      match parse_value fuel' s with
      | Some (v, after) =>
          match skip_ws after with
          | String c rest =>
              if Ascii.eqb c "," then
                match parse_elements fuel' rest with
                | Some (VList vs, after') => Some (VList (v :: vs), after')
                | _ => None
                end
              else if Ascii.eqb c "]" then Some (VList [v], rest)
              else None
          | EmptyString => None
          end
      | None => None
      end
  end
with parse_members (fuel : nat) (s : string) : option (value * string) :=
  match fuel with
  | O => None
  | S fuel' =>
      match skip_ws s with
      | String q rest =>
          if Ascii.eqb q dquote then
            match parse_string_body rest with
            | Some (key, after_key) =>
                match skip_ws after_key with
                | String colon rest' =>
                    if Ascii.eqb colon ":" then
                      match parse_value fuel' rest' with
                      | Some (v, after) =>
                          match skip_ws after with
                          | String c rest'' =>
                              if Ascii.eqb c "," then
                                match parse_members fuel' rest'' with
                                | Some (VDict kvs, after') =>
                                    Some (VDict ((key, v) :: kvs), after')
                                | _ => None
                                end
                              else if Ascii.eqb c "}" then Some (VDict [(key, v)], rest'')
                              else None
                          | EmptyString => None
                          end
                      | None => None
                      end
                    else None
                | EmptyString => None
                end
            | None => None
            end
          else None
      | EmptyString => None
      end
  end.

Definition loads (s : string) : option value :=
  match parse_value (2 * String.length s + 2) s with
  | Some (v, after) =>
      match skip_ws after with
      | EmptyString => Some v
      | _ => None
      end
  | None => None
  end.

(** [float(s)] for the decimal integers: the nearest float. *)
Definition parse_float (s : string) : option spec_float :=
  option_map (fun n => binary_normalize float_prec float_emax n 0 false) (parse_int s).

(** Splitting at spaces; [word] is the part of the current word
    already read. *)
Fixpoint split_from (word s : string) : list string :=
  match s with
  | EmptyString => if String.eqb word "" then [] else [word]
  | String c rest =>
      if Ascii.eqb c " "
      then (if String.eqb word "" then [] else [word]) ++ split_from "" rest
      else split_from (word +:+ String c EmptyString) rest
  end.

#[export] Instance runtime : Runtime := {|
  pattern := string;
  re_compile := fun s => Ok s;
  re_search := fun p s => contains p s;
  int_of_str := parse_int;
  str_upper := upper;
  str_of_nonstr := show;
  json_loads := loads;
  json_dumps := dumps;
  float_of_str := parse_float;
  str_split := split_from ""
|}.

Definition record_a : value :=
  VDict [("request", VDict [("url", VStr "https://example.com/a"); ("method", VStr "GET")]);
         ("response", VDict [("status", VInt 200)])].

Definition record_b : value :=
  VDict [("request", VDict [("url", VStr "https://example.com/b"); ("method", VStr "POST")]);
         ("response", VDict [("status", VInt 500)])].

(** The same runtime with an engine that rejects the expression of a
    lone opening parenthesis. *)
Definition strict_runtime : Runtime := {|
  pattern := string;
  re_compile := fun s => if String.eqb s "(" then Raise ReError else Ok s;
  re_search := fun p s => contains p s;
  int_of_str := parse_int;
  str_upper := upper;
  str_of_nonstr := show;
  json_loads := loads;
  json_dumps := dumps;
  float_of_str := parse_float;
  str_split := split_from ""
|}.

(** Records that lack a method, carry a number as URL, and carry a
    status that is no number. *)
Definition record_no_method : value :=
  VDict [("url", VStr "https://example.com/c"); ("status", VInt 204)].

Definition record_numeric_url : value :=
  VDict [("url", VInt 5)].

Definition record_odd_status : value :=
  VDict [("url", VStr "https://example.com/d"); ("status", VStr "pending")].

(** What the browser server reports. *)
Definition reported : value :=
  VDict [("requests", VList [record_a; record_b])].

Definition answer (tool_name : string) : call_tool_result :=
  if String.eqb tool_name "browser_network_requests"
  then {| content :=
            Some [EntryObject [("type", VStr "text"); ("text", VStr (dumps reported))]] |}
  else {| content := Some [] |}.

(** The floats 0.75, 1.5 and 5.0. *)
Definition seconds_0_75 : spec_float := S754_finite false 6755399441055744 (-53).
Definition seconds_1_5 : spec_float := S754_finite false 6755399441055744 (-52).
Definition seconds_5 : spec_float := S754_finite false 5629499534213120 (-50).

(** An environment that sets [HOME] and nothing else. *)
Definition home_only (home : string) : os_env :=
  {| environ := fun name => if String.eqb name "HOME" then Some home else None;
     pw_dir_of_uid := None;
     pw_dir_of_name := fun _ => None |}.

(** An environment that sets [HOME] and one more variable. *)
Definition home_and (home name value : string) : os_env :=
  {| environ := fun n => if String.eqb n "HOME" then Some home
                         else if String.eqb n name then Some value else None;
     pw_dir_of_uid := None;
     pw_dir_of_name := fun _ => None |}.

(** A command line of [--flag value] pairs. *)
Fixpoint flag_pairs (argv : list string) : option (list (string * string)) :=
  match argv with
  | [] => Some []
  | flag :: v :: rest =>
      if String.prefix "--" flag
      then option_map (cons (flag, v)) (flag_pairs rest)
      else None
  | _ => None
  end.

Fixpoint flag_value (pairs : list (string * string)) (flag : string) : option string :=
  match pairs with
  | [] => None
  | (f, v) :: rest => if String.eqb f flag then Some v else flag_value rest flag
  end.

(** A parser of such command lines: [--url] is required, a number that
    does not read is a usage error, and the list of [--fs-args] is
    always the default. *)
Definition read_args (parser : parser) (argv : list string) : result cli_args :=
  match flag_pairs argv with
  | None => Raise SystemExit
  | Some pairs =>
      let text flag default :=
        match flag_value pairs flag with Some v => v | None => default end in
      let optional flag default :=
        match flag_value pairs flag with Some v => Some v | None => default end in
      let number flag default :=
        match flag_value pairs flag with
        | Some v => match parse_int v with Some n => Ok n | None => Raise SystemExit end
        | None => Ok default
        end in
      match flag_value pairs "--url" with
      | None => Raise SystemExit
      | Some url =>
          (let* wait :=
             match flag_value pairs "--wait" with
             | Some v => match parse_float v with
                         | Some f => Ok f
                         | None => Raise SystemExit
                         end
             | None => Ok (default_wait parser)
             end in
           let* status_min := number "--status-min" (default_status_min parser) in
           let* status_max := number "--status-max" (default_status_max parser) in
           Ok {| arg_url := url;
                 arg_sse := text "--sse" (default_sse parser);
                 arg_fs_cmd := text "--fs-cmd" (default_fs_cmd parser);
                 arg_fs_args := default_fs_args parser;
                 arg_out := text "--out" (default_out parser);
                 arg_wait := wait;
                 arg_wait_mode := text "--wait-mode" (default_wait_mode parser);
                 arg_filter_url := optional "--filter-url" (default_filter_url parser);
                 arg_filter_method :=
                   optional "--filter-method" (default_filter_method parser);
                 arg_status_min := status_min;
                 arg_status_max := status_max |})%result
      end
  end.

(** A world in which the calls still fail [n] times, the call after
    them ends as [last_call tool_name], and sleeping, closing and
    listing end as given. *)
Definition scripted (last_call : string -> result call_tool_result)
    (on_sleep on_close : result unit) (on_list : session -> result (list string))
    (system : os_env) : Env := {|
  world := nat;
  open_session := fun _ w => (Ok tt, w);
  initialize_session := fun _ w => (Ok tt, w);
  close_sessions := fun w => (on_close, w);
  call_tool := fun _ tool_name _ w =>
    match w with
    | S n => (Raise (RemoteError "unavailable"), n)
    | O => (last_call tool_name, O)
    end;
  list_tools := fun s w => (on_list s, w);
  sleep := fun _ w => (on_sleep, w);
  clock := fun _ =>
    {| year := 2024; month := 5; day := 6; hour := 7; minute := 8; second := 9 |};
  configure_logging := fun _ _ _ w => (Ok tt, w);
  parse_args := fun parser argv w => (read_args parser argv, w);
  os := system
|}.

Definition tools (s : session) : result (list string) :=
  Ok match s with
     | Playwright => ["browser_navigate"; "browser_wait_for"; "browser_network_requests"]
     | Filesystem => ["create_directory"; "write_file"]
     end.

(** The world: how many of the coming tool calls fail. *)
#[export] Instance env : Env :=
  scripted (fun tool_name => Ok (answer tool_name)) (Ok tt) (Ok tt) tools
    (home_only "/home/user").

(** A state with both sessions set and no event yet. *)
Definition connected {EV : Env} (w : world) : state :=
  {| st_world := w; playwright_session := true; filesystem_session := true;
     st_trace := [] |}.

(** A state with no session set and the given events. *)
Definition state_of {EV : Env} (w : world) (events : list event) : state :=
  {| st_world := w; playwright_session := false; filesystem_session := false;
     st_trace := events |}.

(** The state before [run_async], with [n] failing calls ahead. *)
Definition initial (n : nat) : @state env := state_of (EV := env) n [].

(** A command line with a method filter. *)
Definition argv : list string :=
  ["--url"; "https://example.com"; "--out"; "~/captures/capture_{ts}.jsonl";
   "--wait"; "0"; "--wait-mode"; "sleep"; "--filter-method"; "GET"].

(** A command line without any filter. *)
Definition plain_argv : list string :=
  ["--url"; "https://example.com"; "--out"; "/data/capture_{ts}.jsonl";
   "--wait"; "0"; "--wait-mode"; "sleep"].

(** The state of [env] with both sessions set and nothing failing. *)
Definition ready : @state env := connected (EV := env) O.

(** A client of the default endpoints. *)
Definition default_client : client :=
  {| playwright_sse_url := "http://127.0.0.1:8931/sse";
     filesystem_stdio_params :=
       {| command := "npx"; args := ["@agent-infra/mcp-server-filesystem@latest"] |} |}.

(** A tool result whose JSON content is one record with an infinite
    status. *)
Definition infinite_status_result : call_tool_result :=
  {| content :=
       Some [EntryObject
               [("type", VStr "json");
                ("json", VList [VDict [("status", VFloat (S754_infinity false))]])]] |}.

(** A world in which closing the sessions fails. *)
Definition closing_env : Env :=
  scripted (fun _ => Ok {| content := None |}) (Ok tt) (Raise (RemoteError "closing"))
    (fun _ => Ok []) (home_only "/home/user").

Definition closing_start : @state closing_env := state_of (EV := closing_env) O [].

(** A world whose browser server reports the record with the infinite
    status. *)
Definition infinite_env : Env :=
  scripted (fun _ => Ok infinite_status_result) (Ok tt) (Ok tt) (fun _ => Ok [])
    (home_only "/home/user").

Definition infinite_start : @state infinite_env := state_of (EV := infinite_env) O [].

(** Worlds in which the call after the failing ones is interrupted, and
    in which it is cancelled. *)
Definition interrupted_env : Env :=
  scripted (fun _ => Raise KeyboardInterrupt) (Ok tt) (Ok tt) tools
    (home_only "/home/user").

Definition interrupted_start (n : nat) : @state interrupted_env :=
  state_of (EV := interrupted_env) n [].

Definition cancelled_env : Env :=
  scripted (fun _ => Raise CancelledError) (Ok tt) (Ok tt) tools
    (home_only "/home/user").

Definition cancelled_start (n : nat) : @state cancelled_env :=
  state_of (EV := cancelled_env) n [].

(** A world in which a backoff sleep is cancelled. *)
Definition restless_env : Env :=
  scripted (fun _ => Ok {| content := None |}) (Raise CancelledError) (Ok tt)
    (fun _ => Ok []) (home_only "/home/user").

Definition restless_start (n : nat) : @state restless_env :=
  state_of (EV := restless_env) n [].

(** A world whose environment gives a lower status bound that is no
    number. *)
Definition misconfigured_env : Env :=
  scripted (fun tool_name => Ok (answer tool_name)) (Ok tt) (Ok tt) tools
    (home_and "/home/user" "CAPTURE_STATUS_MIN" "abc").

Definition misconfigured_start : @state misconfigured_env :=
  state_of (EV := misconfigured_env) O [].

(** A system whose home directory has the placeholder in its name. *)
Definition odd_home : os_env := home_only "/home/{ts}".

End Sample.
(** * Properties *)

(** ** The result monad *)

Lemma rbind_Ok {A B} (r : result A) (k : A -> result B) (b : B) :
  rbind r k = Ok b -> exists a, r = Ok a /\ k a = Ok b.
Proof.
  destruct r as [a|e]; simpl; intros H; [eauto | discriminate].
Qed.

Ltac inv_rbind H :=
  let a := fresh "a" in
  let Ha := fresh "Ha" in
  apply rbind_Ok in H; destruct H as (a & Ha & H).

(** ** The record filter *)

Section FilterProps.
Context {RT : Runtime}.

Lemma filter_loop_Ok p m lo hi records :
  forall acc out,
    filter_loop p m lo hi records acc = Ok out ->
    out = acc ++ List.filter (keeps p m lo hi) records
    /\ Forall (fun r => exists b, filter_body p m lo hi r = Ok b) records.
Proof.
  induction records as [|r rest IH]; simpl; intros acc out H.
  - inversion H; subst. rewrite app_nil_r. split; [reflexivity | constructor].
  - inv_rbind H. apply IH in H as [-> Hall].
    unfold keeps at 2. rewrite Ha.
    split; [| constructor; eauto].
    destruct a; simpl; [rewrite <- app_assoc |]; reflexivity.
Qed.

Lemma filter_loop_total p m lo hi records :
  Forall (fun r => exists b, filter_body p m lo hi r = Ok b) records ->
  forall acc, filter_loop p m lo hi records acc
              = Ok (acc ++ List.filter (keeps p m lo hi) records).
Proof.
  induction 1 as [|r rest [b Hb] _ IH]; simpl; intros acc.
  - rewrite app_nil_r. reflexivity.
  - rewrite Hb. simpl. rewrite IH. unfold keeps at 2. rewrite Hb.
    destruct b; simpl; [rewrite <- app_assoc |]; reflexivity.
Qed.

Lemma filter_sublist {A} (f : A -> bool) (l : list A) :
  sublist (List.filter f l) l.
Proof.
  induction l as [|x l IH]; simpl.
  - constructor.
  - destruct (f x); [apply sublist_skip | apply sublist_cons]; exact IH.
Qed.

(** What [filter_network_requests] passes to the loop. *)
Lemma filter_network_requests_Ok records url_regex method_filter lo hi out :
  filter_network_requests (Some records) url_regex method_filter lo hi = Ok out ->
  exists p m, out = List.filter (keeps p m lo hi) records
              /\ Forall (fun r => exists b, filter_body p m lo hi r = Ok b) records.
Proof.
  unfold filter_network_requests. intros H. inv_rbind H.
  apply filter_loop_Ok in H as [-> Hall]. eauto.
Qed.

(** *** Field resolution *)

Lemma nested_or_flat_record kvs outer inner :
  submapping_ok (dict_get kvs outer) = true ->
  nested_or_flat (VDict kvs) outer inner
  = Ok (if truthy (nested_value kvs outer inner)
        then nested_value kvs outer inner
        else dict_get kvs inner).
Proof.
  unfold submapping_ok, nested_or_flat, nested_value. simpl.
  destruct (dict_get kvs outer) as [| b | n | f | s | xs | sub] eqn:E; simpl;
    try reflexivity; try discriminate.
  - destruct b; [discriminate | reflexivity].
  - destruct (n =? 0); [reflexivity | discriminate].
  - destruct (float_is_zero f); [reflexivity | discriminate].
  - destruct (String.eqb s ""); [reflexivity | discriminate].
  - destruct xs; [reflexivity | discriminate].
  - intros _. destruct sub; simpl; [reflexivity |].
    match goal with |- context [truthy ?v] => destruct (truthy v) end; reflexivity.
Qed.

Lemma nested_or_flat_not_record r outer inner v :
  nested_or_flat r outer inner = Ok v -> exists kvs, r = VDict kvs.
Proof.
  destruct r; simpl; try discriminate. eauto.
Qed.

Lemma status_out_of_bound_none below bound :
  status_out_of_bound below bound VNone = Ok false.
Proof. destruct bound; reflexivity. Qed.

Lemma status_out_of_bound_unbounded below sv :
  status_out_of_bound below None sv = Ok false.
Proof. reflexivity. Qed.

(** [int] raises nothing but these three. *)
Lemma py_int_raises v e :
  py_int v = Raise e -> e = TypeError \/ e = ValueError \/ e = OverflowError.
Proof.
  destruct v as [| b | n | f | s | xs | kvs]; simpl; intros H;
    try discriminate; try (injection H as <-; auto; fail).
  - destruct f; simpl in H; try discriminate; injection H as <-; auto.
  - destruct (int_of_str s); [discriminate | injection H as <-; auto].
Qed.

(** With both bounds absent the two status blocks are skipped. *)
Lemma filter_body_lenient p m lo hi r sv :
  status_value_of r = Ok sv ->
  is_none sv = true \/ py_int sv = Raise TypeError \/ py_int sv = Raise ValueError ->
  filter_body p m lo hi r = filter_body p m None None r.
Proof.
  intros Hs Hsv. unfold filter_body. rewrite Hs.
  destruct (url_value_of r) as [u|e]; simpl; [| reflexivity].
  destruct (method_value_of r) as [mv|e]; simpl; [| reflexivity].
  destruct (match p with Some _ => _ | None => _ end) as [[]|e]; simpl;
    try reflexivity.
  destruct (match m with Some _ => _ | None => _ end); [reflexivity |].
  assert (Hb : forall below bound, status_out_of_bound below bound sv = Ok false).
  { intros below [b|]; simpl; [| reflexivity].
    destruct Hsv as [-> | [-> | ->]]; [reflexivity | |];
      destruct (is_none sv); reflexivity. }
  rewrite !Hb. reflexivity.
Qed.

(** A status that coerces to an integer outside the range takes one of
    the two [continue]s, unless an earlier one was taken. *)
Lemma filter_body_out_of_range p m lo hi r sv n b :
  status_value_of r = Ok sv ->
  is_none sv = false ->
  py_int sv = Ok n ->
  (exists l, lo = Some l /\ n < l) \/ (exists h, hi = Some h /\ h < n) ->
  filter_body p m lo hi r = Ok b ->
  b = false.
Proof.
  intros Hs Hnone Hint Hout. unfold filter_body. rewrite Hs.
  destruct (url_value_of r) as [u|e]; simpl; [| discriminate].
  destruct (method_value_of r) as [mv|e]; simpl; [| discriminate].
  destruct (match p with Some _ => _ | None => _ end) as [[]|e]; simpl;
    try congruence.
  destruct (match m with Some _ => _ | None => _ end); [congruence |].
  assert (Hb : forall below bound,
             status_out_of_bound below (Some bound) sv
             = Ok (if below then n <? bound else bound <? n)).
  { intros. unfold status_out_of_bound. rewrite Hnone, Hint. reflexivity. }
  destruct Hout as [(l & -> & Hl) | (h & -> & Hh)].
  - rewrite Hb. simpl.
    destruct (Z.ltb_spec n l); [congruence | lia].
  - destruct lo as [l|]; rewrite !Hb; simpl.
    + destruct (n <? l); [congruence |].
      destruct (Z.ltb_spec h n); [congruence | lia].
    + destruct (Z.ltb_spec h n); [congruence | lia].
Qed.

(** ** The identity law *)

Lemma filter_body_no_predicates r :
  is_request_record r = true -> filter_body None None None None r = Ok true.
Proof.
  destruct r as [| | | | | | kvs]; simpl; try discriminate.
  intros H. apply andb_prop in H as [Hreq Hresp].
  unfold filter_body, url_value_of, method_value_of, status_value_of.
  rewrite !nested_or_flat_record by assumption. reflexivity.
Qed.

(** C2.  Filtering a list of request records with no predicate supplied
    (no URL expression, no method, no status bound) returns the list
    itself: the same records in the same order. *)
Theorem filter_no_predicates_identity (records : list value) :
  Forall (fun r => is_request_record r = true) records ->
  filter_network_requests (Some records) None None None None = Ok records.
Proof.
  intros Hall. unfold filter_network_requests. simpl.
  rewrite filter_loop_total.
  - simpl. f_equal. induction Hall as [|r rest Hr _ IH]; simpl; [reflexivity |].
    unfold keeps at 1. rewrite (filter_body_no_predicates r Hr). f_equal. exact IH.
  - eapply Forall_impl; [exact Hall |]. simpl. intros r Hr.
    exists true. apply filter_body_no_predicates, Hr.
Qed.

(** Without the record shape the law can fail: [.get] is called on
    whatever the [request] entry holds. *)
Lemma filter_no_predicates_raises :
  filter_network_requests (Some [VDict [("request", VStr "GET /")]]) None None None None
  = Raise AttributeError.
Proof. reflexivity. Qed.

(** ** Subsequence *)

(** C3.  Whatever the filter arguments, a list returned by
    [filter_network_requests] is a subsequence of the input: every
    returned record is an input record, and the records keep their
    relative order. *)
Theorem filter_output_is_subsequence (records : list value)
    (url_regex method_filter : option string) (status_min status_max : option Z)
    (out : list value) :
  filter_network_requests (Some records) url_regex method_filter status_min status_max
  = Ok out ->
  sublist out records.
Proof.
  intros H. apply filter_network_requests_Ok in H as (p & m & -> & _).
  apply filter_sublist.
Qed.

(** The filter returns on request records as long as the expression
    compiles, every URL that is searched is a string and no status is
    an infinite float. *)
Lemma filter_body_returns p m lo hi kvs :
  is_request_record (VDict kvs) = true ->
  (p = None \/ exists s, url_value_of (VDict kvs) = Ok (VStr s)) ->
  (forall sv, status_value_of (VDict kvs) = Ok sv -> py_int sv <> Raise OverflowError) ->
  exists b, filter_body p m lo hi (VDict kvs) = Ok b.
Proof.
  simpl. intros H Hurl Hst. apply andb_prop in H as [Hreq Hresp].
  unfold filter_body.
  assert (Hu : exists u, url_value_of (VDict kvs) = Ok u).
  { unfold url_value_of. rewrite nested_or_flat_record by assumption. simpl. eauto. }
  destruct Hu as [u Hu]. rewrite Hu. simpl.
  unfold method_value_of, status_value_of in *.
  rewrite !nested_or_flat_record by assumption. simpl.
  rewrite nested_or_flat_record in Hst by assumption.
  set (sv := if truthy (nested_value kvs "response" "status")
             then nested_value kvs "response" "status"
             else dict_get kvs "status") in *.
  specialize (Hst sv eq_refl).
  assert (Hsearch : exists miss,
             match p with
             | Some p0 => (let* found := pattern_search p0 u in Ok (negb found))%result
             | None => Ok false
             end = Ok miss).
  { destruct p as [p0|]; [| eauto].
    destruct Hurl as [Hp | [s Hs]]; [discriminate |].
    rewrite Hu in Hs. injection Hs as ->. simpl. eauto. }
  destruct Hsearch as [miss ->]. simpl.
  destruct miss; [eauto |].
  destruct (match m with Some _ => _ | None => _ end); [eauto |].
  assert (Hb : forall below bound, exists b,
             status_out_of_bound below bound sv = Ok b).
  { intros below [b|]; simpl; [| eauto].
    destruct (is_none sv); [eauto |].
    destruct (py_int sv) as [n|e] eqn:E; [eauto |].
    destruct (py_int_raises _ _ E) as [-> | [-> | ->]]; eauto; congruence. }
  destruct (Hb true lo) as [b1 ->]. simpl. destruct b1; [eauto |].
  destruct (Hb false hi) as [b2 ->]. simpl. destruct b2; eauto.
Qed.

(** ** The status range *)

(** A record whose status coerces to an integer outside the range is
    not in the output. *)
Lemma filter_excludes_out_of_range records url_regex method_filter lo hi out r sv n :
  filter_network_requests (Some records) url_regex method_filter lo hi = Ok out ->
  status_value_of r = Ok sv ->
  is_none sv = false ->
  py_int sv = Ok n ->
  (exists l, lo = Some l /\ n < l) \/ (exists h, hi = Some h /\ h < n) ->
  ~ In r out.
Proof.
  intros H Hs Hnone Hint Hout Hin.
  apply filter_network_requests_Ok in H as (p & m & -> & _).
  apply filter_In in Hin as [_ Hk]. unfold keeps in Hk.
  destruct (filter_body p m lo hi r) as [b|e] eqn:E; [| discriminate].
  rewrite (filter_body_out_of_range p m lo hi r sv n b) in Hk by assumption.
  discriminate.
Qed.

(** A record without a status, or with one on which [int] raises
    [TypeError] or [ValueError], is in the output exactly when it is in
    the output of the same call without the status range. *)
Lemma filter_keeps_without_integer_status records url_regex method_filter lo hi
    out out' r sv :
  filter_network_requests (Some records) url_regex method_filter lo hi = Ok out ->
  filter_network_requests (Some records) url_regex method_filter None None = Ok out' ->
  status_value_of r = Ok sv ->
  is_none sv = true \/ py_int sv = Raise TypeError \/ py_int sv = Raise ValueError ->
  In r out <-> In r out'.
Proof.
  unfold filter_network_requests. intros H H' Hs Hsv.
  destruct (match url_regex with Some _ => _ | None => _ end) as [p|e];
    simpl in H, H'; [| discriminate].
  apply filter_loop_Ok in H as [-> _]. apply filter_loop_Ok in H' as [-> _].
  simpl. rewrite !filter_In. unfold keeps.
  rewrite (filter_body_lenient p _ lo hi r sv Hs Hsv). reflexivity.
Qed.

(** C1.  The status blocks catch [TypeError] and [ValueError] only: on
    a status that is an infinite float, [int] raises [OverflowError]
    and the call ends with that exception instead of keeping the
    record.  The bounds here are the defaults of the command line. *)
Theorem filter_raises_on_infinite_status :
  filter_network_requests
    (Some [VDict [("response", VDict [("status", VFloat (S754_infinity false))])]])
    None None (Some 0) (Some 999)
  = Raise OverflowError.
Proof. reflexivity. Qed.

(** ** Falsy nested fields *)

(** C10.  On a request record the field resolution takes the nested
    value when it is truthy and the flat top-level value (or [None]
    when there is none) otherwise; the URL further falls back to the
    empty string.  In particular a record whose nested status is falsy
    (the integer 0, say) and which has no flat status resolves to no
    status, and no status range excludes it. *)
Theorem falsy_nested_field_falls_back (kvs : list (string * value)) :
  is_request_record (VDict kvs) = true ->
  (forall inner,
      let nested := nested_value kvs "request" inner in
      nested_or_flat (VDict kvs) "request" inner
      = Ok (if truthy nested then nested else dict_get kvs inner))
  /\ (forall inner,
        let nested := nested_value kvs "response" inner in
        nested_or_flat (VDict kvs) "response" inner
        = Ok (if truthy nested then nested else dict_get kvs inner))
  /\ (let nested := nested_value kvs "request" "url" in
      url_value_of (VDict kvs)
      = Ok (if truthy nested then nested
            else if truthy (dict_get kvs "url") then dict_get kvs "url"
                 else VStr ""))
  /\ (truthy (nested_value kvs "response" "status") = false ->
      dict_get kvs "status" = VNone ->
      status_value_of (VDict kvs) = Ok VNone
      /\ forall p m lo hi,
          filter_body p m lo hi (VDict kvs) = filter_body p m None None (VDict kvs)).
Proof.
  simpl. intros H. apply andb_prop in H as [Hreq Hresp].
  split; [| split; [| split]].
  - intros inner. apply nested_or_flat_record, Hreq.
  - intros inner. apply nested_or_flat_record, Hresp.
  - unfold url_value_of. rewrite nested_or_flat_record by exact Hreq. simpl.
    destruct (truthy (nested_value kvs "request" "url")) eqn:E; [rewrite E |];
      reflexivity.
  - intros Hfalsy Hflat.
    assert (Hs : status_value_of (VDict kvs) = Ok VNone).
    { unfold status_value_of. rewrite nested_or_flat_record by exact Hresp.
      rewrite Hfalsy, Hflat. reflexivity. }
    split; [exact Hs |]. intros p m lo hi.
    apply (filter_body_lenient p m lo hi _ VNone Hs). left. reflexivity.
Qed.

End FilterProps.

(** *** Concrete instances *)

Import Sample.

Lemma filter_no_predicates_identity_witness :
  filter_network_requests (RT := Sample.runtime) (Some [record_a; record_b])
    None None None None
  = Ok [record_a; record_b].
Proof.
  apply (filter_no_predicates_identity (RT := Sample.runtime) [record_a; record_b]).
  repeat constructor.
Defined.

Lemma filter_output_is_subsequence_witness :
  sublist [record_a] [record_a; record_b].
Proof.
  apply (filter_output_is_subsequence (RT := Sample.runtime) [record_a; record_b]
           (Some "example") (Some "get") (Some 200) (Some 399) [record_a]).
  reflexivity.
Defined.

(** A record whose only status is a flat 0 resolves to the status 0,
    and a range above 0 excludes it. *)
Lemma flat_zero_status_is_filtered :
  status_value_of (VDict [("status", VInt 0)]) = Ok (VInt 0)
  /\ filter_network_requests (RT := Sample.runtime) (Some [VDict [("status", VInt 0)]])
       None None (Some 200) (Some 399)
     = Ok [].
Proof. split; reflexivity. Qed.

Lemma falsy_nested_field_falls_back_witness :
  status_value_of (VDict [("response", VDict [("status", VInt 0)])]) = Ok VNone
  /\ forall p m lo hi,
      filter_body (RT := Sample.runtime) p m lo hi
        (VDict [("response", VDict [("status", VInt 0)])])
      = filter_body p m None None (VDict [("response", VDict [("status", VInt 0)])]).
Proof.
  apply (falsy_nested_field_falls_back (RT := Sample.runtime)
           [("response", VDict [("status", VInt 0)])]); reflexivity.
Defined.

(** ** More on the record filter *)

Section FilterLaws.
Context {RT : Runtime}.

Lemma filter_network_requests_unfold records url_regex method_filter lo hi :
  filter_network_requests (Some records) url_regex method_filter lo hi
  = rbind (compiled_pattern url_regex)
      (fun p => filter_loop p (upper_method method_filter) lo hi records []).
Proof. reflexivity. Qed.

Lemma filter_filter_same {A} (f : A -> bool) (l : list A) :
  List.filter f (List.filter f l) = List.filter f l.
Proof.
  induction l as [|x l IH]; simpl; [reflexivity |].
  destruct (f x) eqn:E; simpl; [rewrite E, IH |]; auto.
Qed.

Lemma Forall_list_filter {A} (P : A -> Prop) (f : A -> bool) (l : list A) :
  Forall P l -> Forall P (List.filter f l).
Proof.
  induction 1 as [|x l Hx _ IH]; simpl; [constructor |].
  destruct (f x); [constructor |]; assumption.
Qed.

Lemma filter_sublist_mono {A} (f g : A -> bool) (l : list A) :
  (forall x, In x l -> f x = true -> g x = true) ->
  sublist (List.filter f l) (List.filter g l).
Proof.
  induction l as [|x l IH]; simpl; intros H; [constructor |].
  assert (IH' : sublist (List.filter f l) (List.filter g l)) by (apply IH; auto).
  destruct (f x) eqn:Ef.
  - rewrite (H x (or_introl eq_refl) Ef). apply sublist_skip, IH'.
  - destruct (g x); [apply sublist_cons |]; exact IH'.
Qed.

(** Filtering what the filter returned, with the same arguments,
    changes nothing. *)
Theorem filter_idempotent records url_regex method_filter lo hi out :
  filter_network_requests (Some records) url_regex method_filter lo hi = Ok out ->
  filter_network_requests (Some out) url_regex method_filter lo hi = Ok out.
Proof.
  rewrite !filter_network_requests_unfold.
  destruct (compiled_pattern url_regex) as [p|e]; simpl; [| discriminate].
  intros H. apply filter_loop_Ok in H as [-> Hall]. simpl.
  rewrite filter_loop_total by (apply Forall_list_filter, Hall).
  simpl. rewrite filter_filter_same. reflexivity.
Qed.

(** The filter works record by record: the output for two lists joined
    is the two outputs joined, and the call on the joined list returns
    exactly when both calls return. *)
Theorem filter_app a b url_regex method_filter lo hi out :
  filter_network_requests (Some (a ++ b)) url_regex method_filter lo hi = Ok out
  <-> exists out_a out_b,
        filter_network_requests (Some a) url_regex method_filter lo hi = Ok out_a
        /\ filter_network_requests (Some b) url_regex method_filter lo hi = Ok out_b
        /\ out = out_a ++ out_b.
Proof.
  rewrite !filter_network_requests_unfold.
  destruct (compiled_pattern url_regex) as [p|e]; simpl.
  - split.
    + intros H. apply filter_loop_Ok in H as [-> Hall]. simpl.
      apply Forall_app in Hall as [Ha Hb].
      rewrite !filter_loop_total by assumption. simpl.
      do 2 eexists. repeat split. apply List.filter_app.
    + intros (out_a & out_b & Ha & Hb & ->).
      apply filter_loop_Ok in Ha as [-> Ha]. apply filter_loop_Ok in Hb as [-> Hb].
      rewrite filter_loop_total by (apply Forall_app; split; assumption).
      simpl. rewrite List.filter_app. reflexivity.
  - split; [discriminate | intros (? & ? & ? & _); discriminate].
Qed.

(** *** The status range *)

Lemma status_out_of_bound_false_looser below bound bound' sv :
  status_out_of_bound below bound sv = Ok false ->
  (if below then min_looser bound' bound else max_looser bound' bound) ->
  status_out_of_bound below bound' sv = Ok false.
Proof.
  destruct bound' as [b'|]; [| reflexivity].
  destruct bound as [b|]; [| destruct below; contradiction].
  unfold status_out_of_bound. destruct (is_none sv); [reflexivity |].
  destruct (py_int sv) as [n|[]]; try discriminate; try reflexivity.
  intros H Hle. injection H as H. f_equal.
  destruct below; simpl in Hle.
  - apply Z.ltb_ge in H. apply Z.ltb_ge. lia.
  - apply Z.ltb_ge in H. apply Z.ltb_ge. lia.
Qed.

Lemma filter_body_true_looser p m lo hi lo' hi' r :
  filter_body p m lo hi r = Ok true ->
  min_looser lo' lo -> max_looser hi' hi ->
  filter_body p m lo' hi' r = Ok true.
Proof.
  unfold filter_body. intros H Hlo Hhi.
  destruct (url_value_of r) as [u|e]; simpl in *; [| discriminate].
  destruct (method_value_of r) as [mv|e]; simpl in *; [| discriminate].
  destruct (status_value_of r) as [sv|e]; simpl in *; [| discriminate].
  destruct (match p with Some _ => _ | None => _ end) as [[]|e]; simpl in *;
    try discriminate.
  destruct (match m with Some _ => _ | None => _ end); [discriminate |].
  destruct (status_out_of_bound true lo sv) as [[]|e] eqn:E1; simpl in H;
    try discriminate.
  destruct (status_out_of_bound false hi sv) as [[]|e] eqn:E2; simpl in H;
    try discriminate.
  rewrite (status_out_of_bound_false_looser true lo lo' sv E1 Hlo). simpl.
  rewrite (status_out_of_bound_false_looser false hi hi' sv E2 Hhi). reflexivity.
Qed.

(** Loosening the status range never loses a record: the output for
    the tighter range is a subsequence of the output for the looser
    one. *)
Theorem filter_range_monotone records url_regex method_filter lo hi lo' hi' out out' :
  filter_network_requests (Some records) url_regex method_filter lo hi = Ok out ->
  filter_network_requests (Some records) url_regex method_filter lo' hi' = Ok out' ->
  min_looser lo' lo -> max_looser hi' hi ->
  sublist out out'.
Proof.
  rewrite !filter_network_requests_unfold.
  destruct (compiled_pattern url_regex) as [p|e]; simpl; [| discriminate].
  intros H H' Hlo Hhi.
  apply filter_loop_Ok in H as [-> _]. apply filter_loop_Ok in H' as [-> _]. simpl.
  apply filter_sublist_mono. intros r _ Hk. unfold keeps in *.
  destruct (filter_body p _ lo hi r) as [[]|e] eqn:E; try discriminate.
  rewrite (filter_body_true_looser _ _ _ _ lo' hi' _ E Hlo Hhi). reflexivity.
Qed.

(** The bounds are inclusive: a record whose status coerces to an
    integer within [status_min, status_max] is in the output exactly
    when it is in the output of the same call without the range. *)
Theorem filter_keeps_status_in_range records url_regex method_filter
    (status_min status_max : Z) out out' r sv n :
  filter_network_requests (Some records) url_regex method_filter
    (Some status_min) (Some status_max) = Ok out ->
  filter_network_requests (Some records) url_regex method_filter None None = Ok out' ->
  status_value_of r = Ok sv ->
  py_int sv = Ok n ->
  status_min <= n <= status_max ->
  In r out <-> In r out'.
Proof.
  rewrite !filter_network_requests_unfold.
  destruct (compiled_pattern url_regex) as [p|e]; simpl; [| discriminate].
  intros H H' Hs Hint Hn.
  apply filter_loop_Ok in H as [-> _]. apply filter_loop_Ok in H' as [-> _]. simpl.
  rewrite !filter_In. unfold keeps.
  assert (E : filter_body p (upper_method method_filter) (Some status_min)
                (Some status_max) r
              = filter_body p (upper_method method_filter) None None r).
  { unfold filter_body. rewrite Hs.
    destruct (url_value_of r) as [u|e]; simpl; [| reflexivity].
    destruct (method_value_of r) as [mv|e]; simpl; [| reflexivity].
    destruct (match p with Some _ => _ | None => _ end) as [[]|e]; simpl;
      try reflexivity.
    destruct (match upper_method method_filter with Some _ => _ | None => _ end);
      [reflexivity |].
    rewrite Hint. destruct (is_none sv); [reflexivity |].
    destruct (Z.ltb_spec n status_min); [lia |]. simpl.
    destruct (Z.ltb_spec status_max n); [lia |]. reflexivity. }
  rewrite E. reflexivity.
Qed.

(** The status range can be applied afterwards: filtering by URL and
    method first and by status range next gives the output of the one
    call with all the predicates. *)
Theorem filter_status_after_url_method records url_regex method_filter lo hi out :
  filter_network_requests (Some records) url_regex method_filter lo hi = Ok out ->
  exists mid,
    filter_network_requests (Some records) url_regex method_filter None None = Ok mid
    /\ filter_network_requests (Some mid) None None lo hi = Ok out.
Proof.
  rewrite !filter_network_requests_unfold.
  destruct (compiled_pattern url_regex) as [p|e]; simpl; [| discriminate].
  set (m := upper_method method_filter).
  intros H. apply filter_loop_Ok in H as [-> Hall]. simpl.
  assert (Hsplit : forall r,
             (exists b, filter_body p m lo hi r = Ok b) ->
             (exists b1, filter_body p m None None r = Ok b1)
             /\ (keeps p m None None r = true ->
                 filter_body None None lo hi r = filter_body p m lo hi r)
             /\ (keeps p m None None r = false -> keeps p m lo hi r = false)).
  { intros r [b Hb]. unfold keeps, filter_body in *.
    destruct (url_value_of r) as [u|e]; simpl in *; [| discriminate].
    destruct (method_value_of r) as [mv|e]; simpl in *; [| discriminate].
    destruct (status_value_of r) as [sv|e]; simpl in *; [| discriminate].
    destruct (match p with Some _ => _ | None => _ end) as [[]|e]; simpl in *;
      try discriminate; [repeat split; eauto; discriminate |].
    destruct (match m with Some _ => _ | None => _ end);
      repeat split; eauto; discriminate. }
  exists (List.filter (keeps p m None None) records). split.
  - rewrite filter_loop_total; [reflexivity |].
    eapply Forall_impl; [exact Hall |]. intros r Hr. apply (Hsplit r Hr).
  - rewrite filter_loop_total.
    + simpl. f_equal. clear -Hall Hsplit.
      induction Hall as [|r rest Hr _ IH]; simpl; [reflexivity |].
      destruct (Hsplit r Hr) as (_ & Hyes & Hno).
      destruct (keeps p m None None r) eqn:E.
      * assert (Hk : keeps None None lo hi r = keeps p m lo hi r)
          by (unfold keeps; rewrite (Hyes eq_refl); reflexivity).
        cbn [List.filter]. rewrite Hk, IH. reflexivity.
      * rewrite (Hno eq_refl). exact IH.
    + clear -Hall Hsplit.
      induction Hall as [|r rest Hr _ IH]; simpl; [constructor |].
      destruct (Hsplit r Hr) as (_ & Hyes & _).
      destruct (keeps p m None None r) eqn:E; [constructor |]; try exact IH.
      rewrite (Hyes eq_refl). exact Hr.
Qed.

(** *** The method and the URL predicates *)

(** With a method filter, a record without a method (absent, null or
    empty) is dropped. *)
Theorem filter_drops_missing_method records url_regex method_filter lo hi out r mv :
  method_filter <> "" ->
  str_upper method_filter <> "" ->
  filter_network_requests (Some records) url_regex (Some method_filter) lo hi = Ok out ->
  method_value_of r = Ok mv ->
  truthy mv = false ->
  ~ In r out.
Proof.
  rewrite filter_network_requests_unfold.
  destruct (compiled_pattern url_regex) as [p|e]; simpl; [| discriminate].
  intros Hm Hu H Hmv Hfalsy Hin.
  apply filter_loop_Ok in H as [-> _]. simpl in Hin.
  apply filter_In in Hin as [_ Hk]. unfold keeps, filter_body in Hk.
  rewrite Hmv in Hk.
  destruct (url_value_of r) as [u|e]; simpl in Hk; [| discriminate].
  destruct (status_value_of r) as [sv|e]; simpl in Hk; [| discriminate].
  destruct (match p with Some _ => _ | None => _ end) as [[]|e]; simpl in Hk;
    try discriminate.
  apply String.eqb_neq in Hm, Hu. rewrite Hm in Hk. simpl in Hk.
  rewrite Hu, Hfalsy in Hk. discriminate.
Qed.

(** With a URL expression, a record whose URL is not a string makes
    the call raise [TypeError], whatever follows it in the list. *)
Theorem filter_raises_on_non_string_url before r after url_regex method_filter lo hi p u :
  url_regex <> "" ->
  re_compile url_regex = Ok p ->
  Forall (fun x => exists b,
            filter_body (Some p) (upper_method method_filter) lo hi x = Ok b) before ->
  url_value_of r = Ok u ->
  (forall s, u <> VStr s) ->
  (exists mv, method_value_of r = Ok mv) ->
  (exists sv, status_value_of r = Ok sv) ->
  filter_network_requests (Some (before ++ r :: after)) (Some url_regex) method_filter lo hi
  = Raise TypeError.
Proof.
  intros Hne Hp Hbefore Hu Hnot [mv Hmv] [sv Hsv].
  rewrite filter_network_requests_unfold. unfold compiled_pattern.
  apply String.eqb_neq in Hne. rewrite Hne, Hp. simpl.
  generalize (@nil value).
  induction Hbefore as [|x before [b Hb] _ IH]; intros acc; simpl.
  - unfold filter_body. rewrite Hu, Hmv, Hsv. simpl.
    destruct u; try reflexivity. exfalso. eapply Hnot. reflexivity.
  - rewrite Hb. simpl. apply IH.
Qed.

Lemma filter_body_malformed p m lo hi r :
  is_request_record r = false -> filter_body p m lo hi r = Raise AttributeError.
Proof.
  assert (Hbad : forall kvs outer inner,
             submapping_ok (dict_get kvs outer) = false ->
             nested_or_flat (VDict kvs) outer inner = Raise AttributeError).
  { intros kvs outer inner H. unfold nested_or_flat, submapping_ok in *. simpl.
    destruct (dict_get kvs outer) as [| b | n | f | s | xs | sub]; simpl in *;
      try discriminate.
    - destruct b; [reflexivity | discriminate].
    - destruct (n =? 0); [discriminate | reflexivity].
    - destruct (float_is_zero f); [discriminate | reflexivity].
    - destruct (String.eqb s ""); [discriminate | reflexivity].
    - destruct xs; [discriminate | reflexivity].
    - destruct sub; discriminate. }
  destruct r as [| | | | | | kvs]; try reflexivity.
  simpl. intros H. apply andb_false_iff in H.
  unfold filter_body, url_value_of, method_value_of, status_value_of.
  destruct (submapping_ok (dict_get kvs "request")) eqn:Ereq.
  - destruct H as [H | H]; [discriminate |].
    rewrite !(nested_or_flat_record kvs "request") by exact Ereq. simpl.
    rewrite (Hbad kvs "response" "status" H). reflexivity.
  - rewrite (Hbad kvs "request" "url" Ereq). reflexivity.
Qed.

(** A record that is no mapping, or whose [request] or [response] entry
    is truthy without being a mapping, makes the call raise
    [AttributeError], whatever the predicates and whatever follows it
    in the list. *)
Theorem filter_raises_on_malformed_record before r after url_regex method_filter lo hi p :
  compiled_pattern url_regex = Ok p ->
  Forall (fun x => exists b,
            filter_body p (upper_method method_filter) lo hi x = Ok b) before ->
  is_request_record r = false ->
  filter_network_requests (Some (before ++ r :: after)) url_regex method_filter lo hi
  = Raise AttributeError.
Proof.
  intros Hp Hbefore Hr. rewrite filter_network_requests_unfold, Hp. simpl.
  generalize (@nil value).
  induction Hbefore as [|x before [b Hb] _ IH]; intros acc; simpl.
  - rewrite (filter_body_malformed _ _ _ _ r Hr). reflexivity.
  - rewrite Hb. simpl. apply IH.
Qed.

(** The expression is compiled once a list is given, before any record
    is looked at: an expression that does not compile makes the call
    raise on every list, the empty one included, and is not even looked
    at when the records are [None]. *)
Theorem filter_compiles_before_loop url_regex method_filter lo hi e :
  url_regex <> "" ->
  re_compile url_regex = Raise e ->
  (forall records,
      filter_network_requests (Some records) (Some url_regex) method_filter lo hi
      = Raise e)
  /\ filter_network_requests None (Some url_regex) method_filter lo hi = Ok [].
Proof.
  intros Hne He. split; [| reflexivity]. intros records.
  rewrite filter_network_requests_unfold. unfold compiled_pattern.
  apply String.eqb_neq in Hne. rewrite Hne, He. reflexivity.
Qed.

End FilterLaws.

Lemma filter_idempotent_witness :
  filter_network_requests (RT := Sample.runtime) (Some [record_a])
    (Some "example") (Some "get") (Some 200) (Some 399)
  = Ok [record_a].
Proof.
  apply (filter_idempotent (RT := Sample.runtime) [record_a; record_b]).
  reflexivity.
Defined.

Lemma filter_app_witness :
  filter_network_requests (RT := Sample.runtime) (Some ([record_a] ++ [record_b]))
    None (Some "post") None None
  = Ok ([] ++ [record_b]).
Proof.
  apply (filter_app (RT := Sample.runtime) [record_a] [record_b]).
  exists [], [record_b]. repeat split.
Defined.

Lemma filter_range_monotone_witness :
  sublist [record_a] [record_a; record_b].
Proof.
  apply (filter_range_monotone (RT := Sample.runtime) [record_a; record_b]
           None None (Some 200) (Some 399) (Some 100) None);
    [reflexivity | reflexivity | simpl; lia | exact I].
Defined.

Lemma filter_keeps_status_in_range_witness :
  In record_a [record_a] <-> In record_a [record_a; record_b].
Proof.
  apply (filter_keeps_status_in_range (RT := Sample.runtime) [record_a; record_b]
           None None 200 200 [record_a] [record_a; record_b] record_a (VInt 200) 200);
    [reflexivity | reflexivity | reflexivity | reflexivity | lia].
Defined.

Lemma filter_status_after_url_method_witness :
  exists mid,
    filter_network_requests (RT := Sample.runtime) (Some [record_a; record_b])
      (Some "example") None None None = Ok mid
    /\ filter_network_requests (RT := Sample.runtime) (Some mid)
         None None (Some 400) None = Ok [record_b].
Proof.
  apply (filter_status_after_url_method (RT := Sample.runtime) [record_a; record_b]
           (Some "example") None (Some 400) None [record_b]).
  reflexivity.
Defined.

Lemma filter_drops_missing_method_witness :
  ~ In record_no_method [record_a].
Proof.
  apply (filter_drops_missing_method (RT := Sample.runtime)
           [record_a; record_no_method] None "get" None None [record_a]
           record_no_method VNone);
    [discriminate | discriminate | reflexivity | reflexivity | reflexivity].
Defined.

Lemma filter_raises_on_non_string_url_witness :
  filter_network_requests (RT := Sample.runtime)
    (Some ([record_a] ++ record_numeric_url :: [record_b]))
    (Some "example") None None None
  = Raise TypeError.
Proof.
  apply (filter_raises_on_non_string_url (RT := Sample.runtime) [record_a]
           record_numeric_url [record_b] "example" None None None "example" (VInt 5)).
  - discriminate.
  - reflexivity.
  - repeat constructor. exists true. reflexivity.
  - reflexivity.
  - discriminate.
  - exists VNone. reflexivity.
  - exists VNone. reflexivity.
Defined.

Lemma filter_compiles_before_loop_witness :
  filter_network_requests (RT := Sample.strict_runtime) (Some []) (Some "(") None None None
  = Raise ReError
  /\ filter_network_requests (RT := Sample.strict_runtime) None (Some "(") None None None
     = Ok [].
Proof.
  destruct (filter_compiles_before_loop (RT := Sample.strict_runtime) "(" None None None
              ReError ltac:(discriminate) eq_refl) as [Hraise Hnone].
  split; [apply Hraise | exact Hnone].
Defined.

Lemma filter_excludes_out_of_range_witness :
  ~ In record_b [record_a].
Proof.
  apply (filter_excludes_out_of_range (RT := Sample.runtime) [record_a; record_b]
           None None (Some 200) (Some 399) [record_a] record_b (VInt 500) 500);
    [reflexivity | reflexivity | reflexivity | reflexivity |].
  right. exists 399. split; [reflexivity | lia].
Defined.

Lemma filter_keeps_without_integer_status_witness :
  In record_odd_status [record_odd_status]
  <-> In record_odd_status [record_a; record_odd_status].
Proof.
  apply (filter_keeps_without_integer_status (RT := Sample.runtime)
           [record_a; record_odd_status] None None (Some 300) (Some 399)
           [record_odd_status] [record_a; record_odd_status]
           record_odd_status (VStr "pending"));
    [reflexivity | reflexivity | reflexivity |].
  right. right. reflexivity.
Defined.

Lemma filter_raises_on_malformed_record_witness :
  filter_network_requests (RT := Sample.runtime)
    (Some ([record_a] ++ VDict [("response", VStr "200 OK")] :: [record_b]))
    None None None None
  = Raise AttributeError.
Proof.
  apply (filter_raises_on_malformed_record (RT := Sample.runtime) [record_a]
           (VDict [("response", VStr "200 OK")]) [record_b] None None None None None).
  - reflexivity.
  - repeat constructor. exists true. reflexivity.
  - reflexivity.
Defined.
(** ** The result normalizer *)

Section ExtractProps.
Context {RT : Runtime}.

(** The tag the code computes is the entry's [type]. *)
Lemma content_type_tagged e tag :
  eq_str (entry_content_type e) tag = true <-> tagged e tag.
Proof.
  unfold tagged, embedded, entry_content_type, entry_getattr, dict_get.
  destruct e as [attrs | v].
  - destruct (dict_lookup attrs "type") as [[| | | | s | |]|]; simpl;
      split; try discriminate; try contradiction.
    + intros H. apply String.eqb_eq in H as ->. reflexivity.
    + intros H. injection H as ->. apply String.eqb_refl.
  - destruct v as [| | | | | | kvs]; simpl; try (split; [discriminate | contradiction]).
    destruct (dict_lookup kvs "type") as [[| | | | s | |]|]; simpl;
      split; try discriminate; try contradiction.
    + intros H. apply String.eqb_eq in H as ->. reflexivity.
    + intros H. injection H as ->. apply String.eqb_refl.
Qed.

Lemma content_type_untagged e tag :
  ~ tagged e tag -> eq_str (entry_content_type e) tag = false.
Proof.
  intros H. destruct (eq_str (entry_content_type e) tag) eqn:E; [| reflexivity].
  exfalso. apply H, content_type_tagged, E.
Qed.

Lemma tagged_functional e tag tag' : tagged e tag -> tagged e tag' -> tag = tag'.
Proof.
  unfold tagged. destruct (embedded e "type"); [| contradiction].
  intros -> H. injection H as ->. reflexivity.
Qed.

Lemma json_payload_embedded e :
  entry_json_payload e = match embedded e "json" with Some v => v | None => VNone end.
Proof.
  unfold entry_json_payload, entry_hasattr, entry_getattr, embedded, dict_get.
  destruct e as [attrs | v].
  - destruct (dict_lookup attrs "json"); reflexivity.
  - destruct v; reflexivity.
Qed.

Lemma text_payload_embedded e : entry_text_payload e = text_of e.
Proof.
  unfold entry_text_payload, entry_hasattr, entry_getattr, text_of, embedded, or_empty,
    dict_get, dict_get_default.
  destruct e as [attrs | v].
  - destruct (dict_lookup attrs "text"); reflexivity.
  - destruct v as [| | | | | | kvs]; try reflexivity.
    destruct (dict_lookup kvs "text"); reflexivity.
Qed.

Lemma scan_content_skips skipped entries :
  Forall unknown_tag skipped ->
  scan_content (skipped ++ entries) = scan_content entries.
Proof.
  induction 1 as [|e skipped [Hj Ht] _ IH]; simpl; [reflexivity |].
  rewrite (content_type_untagged _ _ Hj), (content_type_untagged _ _ Ht). exact IH.
Qed.

(** C4.  [extract_tool_result_json] passes over the entries with an
    unknown tag and answers from the first entry [e] tagged ["json"] or
    ["text"], whatever follows it.  For a ["json"] entry the answer is
    the value the entry carries under [json] (the attribute of an
    object, the item of a mapping), and [None] when it carries none:
    the scan ends there all the same.  For a ["text"] entry whose text
    is the string [s] the answer is [s] parsed as JSON, or
    [{"text": s}] when it does not parse; a text that is no string is
    wrapped the same way.  Without content, without entries, or with
    unknown tags only, the answer is [None]. *)
Theorem extract_returns_first_usable (skipped : list content_entry)
    (e : content_entry) (rest : list content_entry) :
  Forall unknown_tag skipped ->
  let result := Some {| content := Some (skipped ++ e :: rest) |} in
  (tagged e "json" ->
   forall v, embedded e "json" = Some v -> extract_tool_result_json result = v)
  /\ (tagged e "json" ->
      embedded e "json" = None -> extract_tool_result_json result = VNone)
  /\ (tagged e "text" ->
      forall s parsed, text_of e = VStr s -> json_loads s = Some parsed ->
      extract_tool_result_json result = parsed)
  /\ (tagged e "text" ->
      forall s, text_of e = VStr s -> json_loads s = None ->
      extract_tool_result_json result = VDict [("text", VStr s)])
  /\ (tagged e "text" ->
      (forall s, text_of e <> VStr s) ->
      extract_tool_result_json result = VDict [("text", text_of e)])
  /\ extract_tool_result_json (Some {| content := Some skipped |}) = VNone
  /\ extract_tool_result_json (Some {| content := Some [] |}) = VNone
  /\ extract_tool_result_json (Some {| content := None |}) = VNone
  /\ extract_tool_result_json None = VNone.
Proof.
  intros Hskip. cbn zeta. cbn [extract_tool_result_json content].
  rewrite scan_content_skips by exact Hskip.
  assert (Hjson : tagged e "json" ->
                  scan_content (e :: rest)
                  = match embedded e "json" with Some v => v | None => VNone end).
  { intros Hj. cbn [scan_content]. apply content_type_tagged in Hj. rewrite Hj.
    apply json_payload_embedded. }
  assert (Htext : tagged e "text" ->
                  scan_content (e :: rest) = loads_or_wrap (text_of e)).
  { intros Ht. cbn [scan_content].
    rewrite (content_type_untagged e "json"), (proj2 (content_type_tagged e "text") Ht),
      text_payload_embedded; [reflexivity |].
    intros Hj. discriminate (tagged_functional _ _ _ Hj Ht). }
  repeat split.
  - intros Hj v Hv. rewrite (Hjson Hj), Hv. reflexivity.
  - intros Hj Hv. rewrite (Hjson Hj), Hv. reflexivity.
  - intros Ht s parsed Hs Hp. rewrite (Htext Ht), Hs. simpl. rewrite Hp. reflexivity.
  - intros Ht s Hs Hp. rewrite (Htext Ht), Hs. simpl. rewrite Hp. reflexivity.
  - intros Ht Hs. rewrite (Htext Ht).
    destruct (text_of e) as [| | | | s | |] eqn:E; try reflexivity.
    exfalso. apply (Hs s). reflexivity.
  - rewrite <- (app_nil_r skipped). apply scan_content_skips, Hskip.
Qed.

(** ** List coercion *)


End ExtractProps.

Lemma extract_returns_first_usable_witness :
  extract_tool_result_json (RT := Sample.runtime)
    (Some {| content :=
               Some ([EntryValue (VDict [("type", VStr "image")])]
                     ++ EntryObject [("type", VStr "json"); ("json", VList [VInt 1])]
                     :: [EntryObject [("type", VStr "text"); ("text", VStr "[2]")]]) |})
  = VList [VInt 1]
  /\ extract_tool_result_json (RT := Sample.runtime)
       (Some {| content :=
                  Some ([]
                        ++ EntryValue (VDict [("type", VStr "json")])
                        :: [EntryObject [("type", VStr "text"); ("text", VStr "[2]")]]) |})
     = VNone
  /\ extract_tool_result_json (RT := Sample.runtime)
       (Some {| content :=
                  Some ([EntryObject [("type", VNone)]]
                        ++ EntryValue (VDict [("type", VStr "text"); ("text", VStr "[2]")])
                        :: []) |})
     = VList [VInt 2]
  /\ extract_tool_result_json (RT := Sample.runtime)
       (Some {| content :=
                  Some ([]
                        ++ EntryObject [("type", VStr "text"); ("text", VStr "oops")]
                        :: []) |})
     = VDict [("text", VStr "oops")].
Proof.
  assert (Himage : Forall unknown_tag [EntryValue (VDict [("type", VStr "image")])])
    by (repeat constructor; intros H; discriminate H).
  assert (Hnone : Forall unknown_tag [EntryObject [("type", VNone)]])
    by (repeat constructor; intros H; discriminate H).
  split; [| split; [| split]].
  - destruct (extract_returns_first_usable (RT := Sample.runtime)
                [EntryValue (VDict [("type", VStr "image")])]
                (EntryObject [("type", VStr "json"); ("json", VList [VInt 1])])
                [EntryObject [("type", VStr "text"); ("text", VStr "[2]")]] Himage)
      as (H & _).
    exact (H eq_refl _ eq_refl).
  - destruct (extract_returns_first_usable (RT := Sample.runtime) []
                (EntryValue (VDict [("type", VStr "json")]))
                [EntryObject [("type", VStr "text"); ("text", VStr "[2]")]]
                (List.Forall_nil _)) as (_ & H & _).
    exact (H eq_refl eq_refl).
  - destruct (extract_returns_first_usable (RT := Sample.runtime)
                [EntryObject [("type", VNone)]]
                (EntryValue (VDict [("type", VStr "text"); ("text", VStr "[2]")]))
                [] Hnone) as (_ & _ & H & _).
    exact (H eq_refl "[2]" _ eq_refl eq_refl).
  - destruct (extract_returns_first_usable (RT := Sample.runtime) []
                (EntryObject [("type", VStr "text"); ("text", VStr "oops")])
                [] (List.Forall_nil _)) as (_ & _ & _ & H & _).
    exact (H eq_refl "oops" eq_refl eq_refl).
Defined.

(** ** The monad *)

Section MonadProps.
Context {EV : Env}.

Lemma mbind_Ok {A B} (m : M A) (k : A -> M B) st b st' :
  mbind m k st = (Ok b, st') ->
  exists a st1, m st = (Ok a, st1) /\ k a st1 = (Ok b, st').
Proof.
  unfold mbind. destruct (m st) as [[a|e] st1]; intros H; [eauto | discriminate].
Qed.

Lemma mbind_assoc {A B C} (m : M A) (f : A -> M B) (g : B -> M C) st :
  mbind (mbind m f) g st = mbind m (fun a => mbind (f a) g) st.
Proof.
  unfold mbind. destruct (m st) as [[a|e] st1]; reflexivity.
Qed.

Lemma extends_refl st : extends st st [].
Proof. unfold extends. rewrite app_nil_r. reflexivity. Qed.

Lemma extends_trans st1 st2 st3 n1 n2 :
  extends st1 st2 n1 -> extends st2 st3 n2 -> extends st1 st3 (n1 ++ n2).
Proof. unfold extends. intros H1 H2. rewrite H2, H1, app_assoc. reflexivity. Qed.

Lemma perform_extends {A} e (op : world -> result A * world) st :
  extends st (snd (perform e op st)) match e with Some e => [e] | None => [] end.
Proof.
  unfold perform, extends. destruct (op (st_world st)) as [r w]. simpl.
  destruct e; [reflexivity | rewrite app_nil_r; reflexivity].
Qed.

Lemma emit_run e st :
  exists st', emit e st = (Ok tt, st') /\ extends st st' [e]
              /\ st_world st' = st_world st.
Proof. eexists. repeat split. Qed.

Lemma count_calls_app a b : count_calls (a ++ b) = (count_calls a + count_calls b)%nat.
Proof.
  induction a as [|[] a IH]; simpl; rewrite ?IH; reflexivity.
Qed.

Lemma sleeps_app a b : sleeps (a ++ b) = sleeps a ++ sleeps b.
Proof.
  induction a as [|[] a IH]; simpl; rewrite ?IH; reflexivity.
Qed.

(** ** Powers of two as floats *)

Lemma pow2_converts_all :
  forallb pow2_converts (map Z.of_nat (seq 0 1024)) = true.
Proof. vm_compute. reflexivity. Qed.

Lemma float_of_pow2 k :
  0 <= k <= 1023 -> float_of_int (2 ^ k) = Ok (float_pow2 k).
Proof.
  intros Hk.
  assert (Hin : In k (map Z.of_nat (seq 0 1024))).
  { apply in_map_iff. exists (Z.to_nat k). split; [lia |]. apply in_seq. lia. }
  pose proof (proj1 (forallb_forall _ _) pow2_converts_all k Hin) as H.
  unfold pow2_converts in H.
  destruct (float_of_int (2 ^ k)) as [[| | | s m e]|]; try discriminate.
  destruct s; [discriminate |].
  apply andb_prop in H as [Hm He].
  apply Pos.eqb_eq in Hm as ->. apply Z.eqb_eq in He as ->. reflexivity.
Qed.

(** Within the range of the exponents the delay is the float product
    of the base delay and the power of two. *)
Lemma delay_in_range backoff_seconds attempt :
  1 <= attempt <= 1024 ->
  float_mul_int backoff_seconds (2 ^ (attempt - 1))
  = Ok (float_mul backoff_seconds (float_pow2 (attempt - 1))).
Proof.
  intros H. unfold float_mul_int. rewrite float_of_pow2 by lia. reflexivity.
Qed.

(** ** The retry wrapper *)

Section Retry.
Variables (client_session : session) (tool_name : string) (tool_args : value).
Variables (retries : Z) (backoff_seconds : spec_float).

Abbreviation loop := (retry_loop (EV := EV)).
Abbreviation failed :=
  (failed_attempts client_session tool_name tool_args retries backoff_seconds).
Abbreviation attempt_at :=
  (do_call_tool client_session tool_name (or_empty_dict tool_args)).

Lemma retry_loop_unfold fuel attempt_index last_exception :
  loop (S fuel) client_session tool_name tool_args retries backoff_seconds
    attempt_index last_exception
  = if attempt_index <=? retries then
      try_except attempt_at
        (except_Exception (fun exc =>
           let attempt_index := attempt_index + 1 in
           if retries <? attempt_index
           then mraise (retry_failure tool_name retries (Some exc))
           else
             mbind (pure (float_mul_int backoff_seconds (2 ^ (attempt_index - 1))))
               (fun sleep_seconds =>
             mbind (emit (EvRetryWarning tool_name attempt_index retries exc sleep_seconds))
               (fun _ => mbind (do_sleep sleep_seconds)
               (fun _ => loop fuel client_session tool_name tool_args retries
                           backoff_seconds attempt_index (Some exc))))))
    else mraise (retry_failure tool_name retries last_exception).
Proof. reflexivity. Qed.

(** After [k] failed attempts the wrapper is at the head of its loop
    with [attempt_index = k]. *)
Lemma retry_after_failures k st st1 :
  failed k st st1 ->
  Z.of_nat k <= retries ->
  forall fuel, (k + fuel = Z.to_nat (retries + 1))%nat ->
  exists last,
    call_tool_with_retry client_session tool_name tool_args retries backoff_seconds st
    = loop fuel client_session tool_name tool_args retries backoff_seconds
        (Z.of_nat k) last st1.
Proof.
  induction 1 as [st | k st st1 exc st2 secs st3 Hk IH Hcall Hexc attempt Hdelay Hsleep];
    intros Hle fuel Hfuel.
  - exists None. unfold call_tool_with_retry. simpl in Hfuel. rewrite Hfuel. reflexivity.
  - destruct (IH ltac:(lia) (S fuel) ltac:(lia)) as [last ->].
    exists (Some exc). rewrite retry_loop_unfold.
    destruct (Z.leb_spec (Z.of_nat k) retries); [| lia].
    unfold try_except at 1. rewrite Hcall. unfold except_Exception. rewrite Hexc.
    cbv zeta. destruct (Z.ltb_spec retries (Z.of_nat k + 1)); [lia |].
    subst attempt. rewrite Nat2Z.inj_succ in *. unfold Z.succ in *.
    unfold mbind at 1, pure. rewrite Hdelay.
    rewrite <- mbind_assoc. unfold mbind at 1. rewrite Hsleep. reflexivity.
Qed.

Lemma retry_loop_calls fuel :
  forall attempt_index last st,
  exists new,
    extends st
      (snd (loop fuel client_session tool_name tool_args retries backoff_seconds
              attempt_index last st)) new
    /\ (count_calls new <= fuel)%nat.
Proof.
  induction fuel as [|fuel IH]; intros attempt_index last st.
  - exists []. split; [apply extends_refl | simpl; lia].
  - rewrite retry_loop_unfold.
    destruct (attempt_index <=? retries);
      [| exists []; split; [apply extends_refl | simpl; lia]].
    unfold try_except, do_call_tool.
    pose proof (perform_extends
                  (Some (EvCallTool client_session tool_name (or_empty_dict tool_args)))
                  (call_tool client_session tool_name (or_empty_dict tool_args)) st)
      as Hcall.
    destruct (perform _ _ st) as [[v|exc] st1]; simpl in Hcall.
    + eexists. split; [exact Hcall | simpl; lia].
    + unfold except_Exception. destruct (is_Exception exc);
        [| eexists; split; [exact Hcall | simpl; lia]].
      cbv zeta. destruct (retries <? attempt_index + 1);
        [eexists; split; [exact Hcall | simpl; lia] |].
      unfold mbind at 1, pure.
      destruct (float_mul_int backoff_seconds (2 ^ (attempt_index + 1 - 1)))
        as [secs|e]; [| eexists; split; [exact Hcall | simpl; lia]].
      destruct (emit_run (EvRetryWarning tool_name (attempt_index + 1) retries exc secs) st1)
        as (st2 & Hemit & Hext2 & _).
      unfold mbind at 1. rewrite Hemit.
      unfold mbind at 1, do_sleep.
      pose proof (perform_extends (Some (EvSleep secs)) (sleep secs) st2) as Hsl.
      destruct (perform _ _ st2) as [[[]|exc'] st3]; simpl in Hsl.
      * destruct (IH (attempt_index + 1) (Some exc) st3) as (new & Hnew & Hcount).
        eexists. split.
        { eapply extends_trans; [| exact Hnew].
          eapply extends_trans; [| exact Hsl].
          eapply extends_trans; [exact Hcall | exact Hext2]. }
        rewrite !count_calls_app. simpl. lia.
      * eexists. split.
        { eapply extends_trans; [| exact Hsl].
          eapply extends_trans; [exact Hcall | exact Hext2]. }
        simpl. lia.
Qed.

(** The events of [k] failed attempts: [k] calls, and one sleep of
    [backoff_seconds * 2 ** (attempt - 1)] for each [attempt = 1 .. k]. *)
Lemma failed_attempts_events k st st1 :
  failed k st st1 ->
  exists new,
    extends st st1 new
    /\ count_calls new = k
    /\ map Ok (sleeps new)
       = map (fun attempt : nat =>
                float_mul_int backoff_seconds (2 ^ (Z.of_nat attempt - 1)))
           (seq 1 k).
Proof.
  induction 1 as [st | k st st1 exc st2 secs st3 Hk IH Hcall Hexc attempt Hdelay Hsleep].
  - exists []. repeat split. apply extends_refl.
  - destruct IH as (new & Hnew & Hcount & Hsleeps).
    unfold do_call_tool in Hcall.
    pose proof (perform_extends
                  (Some (EvCallTool client_session tool_name (or_empty_dict tool_args)))
                  (call_tool client_session tool_name (or_empty_dict tool_args)) st1) as Hc.
    rewrite Hcall in Hc. simpl in Hc.
    destruct (emit_run (EvRetryWarning tool_name attempt retries exc secs) st2)
      as (st2' & Hemit & Hext2 & _).
    unfold mbind in Hsleep. rewrite Hemit in Hsleep. unfold do_sleep in Hsleep.
    pose proof (perform_extends (Some (EvSleep secs)) (sleep secs) st2') as Hsl.
    rewrite Hsleep in Hsl. simpl in Hsl.
    eexists. split; [| split].
    + eapply extends_trans; [| exact Hsl].
      eapply extends_trans; [| exact Hext2].
      eapply extends_trans; [exact Hnew | exact Hc].
    + rewrite !count_calls_app, Hcount. simpl. lia.
    + rewrite !sleeps_app, !map_app, Hsleeps, seq_S, map_app.
      cbn [sleeps map app Nat.add]. rewrite !app_nil_r.
      subst attempt. rewrite Hdelay. reflexivity.
Qed.

(** Every run of the wrapper whose delays can be computed ends in one
    of the four ways of [retry_outcome]. *)
Lemma retry_loop_outcome st fuel :
  retries <= 1024 ->
  forall k st1 last r st',
    failed k st st1 ->
    (k + S fuel = Z.to_nat (retries + 1))%nat ->
    loop (S fuel) client_session tool_name tool_args retries backoff_seconds
      (Z.of_nat k) last st1 = (r, st') ->
    retry_outcome client_session tool_name tool_args retries backoff_seconds st r st'.
Proof.
  intros Hmax. induction fuel as [|fuel IH]; intros k st1 last r st' Hk Hfuel H;
    rewrite retry_loop_unfold in H;
    (destruct (Z.leb_spec (Z.of_nat k) retries); [| lia]);
    unfold try_except at 1 in H;
    destruct (attempt_at st1) as [[v|exc] st2] eqn:Hcall.
  - injection H as <- <-. eapply ro_success; eauto.
  - unfold except_Exception in H. destruct (is_Exception exc) eqn:Hexc.
    + cbv zeta in H. destruct (Z.ltb_spec retries (Z.of_nat k + 1)); [| lia].
      injection H as <- <-. unfold retry_failure.
      eapply ro_exhausted; [| exact Hcall | exact Hexc].
      replace (Z.to_nat retries) with k by lia. exact Hk.
    + injection H as <- <-. eapply ro_passed_on; eauto.
  - injection H as <- <-. eapply ro_success; eauto.
  - unfold except_Exception in H. destruct (is_Exception exc) eqn:Hexc.
    + cbv zeta in H. destruct (Z.ltb_spec retries (Z.of_nat k + 1)); [lia |].
      unfold mbind at 1, pure in H.
      assert (Hdelay : float_mul_int backoff_seconds (2 ^ (Z.of_nat (S k) - 1))
                       = Ok (float_mul backoff_seconds (float_pow2 (Z.of_nat (S k) - 1))))
        by (apply delay_in_range; lia).
      replace (Z.of_nat k + 1) with (Z.of_nat (S k)) in H by lia.
      rewrite Hdelay in H. rewrite <- mbind_assoc in H. unfold mbind at 1 in H.
      match type of H with
      | context [mbind (emit ?w) ?s st2] => destruct (mbind (emit w) s st2)
                                              as [[[]|e] st3] eqn:Hsleep
      end.
      * eapply IH; [| | exact H]; [| lia].
        eapply fa_next; eauto.
      * injection H as <- <-. eapply ro_woken; eauto. lia.
    + injection H as <- <-. eapply ro_passed_on; eauto.
Qed.

Lemma retry_run_outcome st r st' :
  0 <= retries <= 1024 ->
  call_tool_with_retry client_session tool_name tool_args retries backoff_seconds st
  = (r, st') ->
  retry_outcome client_session tool_name tool_args retries backoff_seconds st r st'.
Proof.
  intros Hretries H.
  destruct (retry_after_failures O st st (fa_none _ _ _ _ _ st) ltac:(lia)
              (S (Z.to_nat retries)) ltac:(lia)) as [last Hrun].
  rewrite Hrun in H.
  eapply (retry_loop_outcome st (Z.to_nat retries) ltac:(lia) O st last);
    [apply fa_none | lia | exact H].
Qed.

(** C6.  With between 0 and 1024 retries the wrapper calls
    the tool at most [retries + 1] times.  It returns the result of the
    first call that succeeds; after each failed attempt with attempts
    remaining it logs and sleeps the float
    [backoff_seconds * 2 ** (attempt - 1)] before the next one; and
    when attempt [retries + 1] fails too it raises the terminal
    [RuntimeError] whose cause is that last failure.  Every run ends in
    one of these ways, or with an exception of a call that is no
    [Exception], or with what a backoff sleep raised. *)
Theorem retry_wrapper_contract (st : state) :
  0 <= retries <= 1024 ->
  let run := call_tool_with_retry client_session tool_name tool_args
               retries backoff_seconds in
  (forall k st1 v st2,
      failed k st st1 -> Z.of_nat k <= retries ->
      attempt_at st1 = (Ok v, st2) ->
      run st = (Ok v, st2))
  /\ (forall st1 exc st2,
        failed (Z.to_nat retries) st st1 ->
        attempt_at st1 = (Raise exc, st2) ->
        is_Exception exc = true ->
        run st
        = (Raise (RuntimeError
                    ("Tool " +:+ tool_name +:+ " failed after " +:+ decimal retries
                     +:+ " retries")
                    (Some exc)), st2))
  /\ (forall k st1,
        failed k st st1 ->
        exists new,
          extends st st1 new
          /\ count_calls new = k
          /\ map Ok (sleeps new)
             = map (fun attempt : nat =>
                      float_mul_int backoff_seconds (2 ^ (Z.of_nat attempt - 1)))
                 (seq 1 k))
  /\ (forall attempt,
        1 <= attempt <= retries ->
        float_mul_int backoff_seconds (2 ^ (attempt - 1))
        = Ok (float_mul backoff_seconds (float_pow2 (attempt - 1))))
  /\ (forall r st',
        run st = (r, st') ->
        retry_outcome client_session tool_name tool_args retries backoff_seconds st r st')
  /\ (exists new,
        extends st (snd (run st)) new
        /\ Z.of_nat (count_calls new) <= retries + 1).
Proof.
  intros Hretries run. subst run. repeat split.
  - intros k st1 v st2 Hk Hle Hcall.
    destruct (retry_after_failures k st st1 Hk Hle (S (Z.to_nat retries - k)) ltac:(lia))
      as [last ->].
    rewrite retry_loop_unfold.
    destruct (Z.leb_spec (Z.of_nat k) retries); [| lia].
    unfold try_except. rewrite Hcall. reflexivity.
  - intros st1 exc st2 Hk Hcall Hexc.
    destruct (retry_after_failures _ st st1 Hk ltac:(lia) 1%nat ltac:(lia)) as [last ->].
    rewrite retry_loop_unfold, Z2Nat.id by lia.
    destruct (Z.leb_spec retries retries); [| lia].
    unfold try_except. rewrite Hcall. unfold except_Exception. rewrite Hexc.
    cbv zeta. destruct (Z.ltb_spec retries (retries + 1)); [reflexivity | lia].
  - intros k st1 Hk. apply failed_attempts_events, Hk.
  - intros attempt Ha. apply delay_in_range. lia.
  - intros r st' H. apply retry_run_outcome; assumption.
  - unfold call_tool_with_retry.
    destruct (retry_loop_calls (Z.to_nat (retries + 1)) 0 None st) as (new & Hnew & Hcount).
    exists new. split; [exact Hnew | lia].
Qed.

End Retry.

End MonadProps.

Lemma retry_wrapper_contract_witness :
  call_tool_with_retry (EV := Sample.env) Playwright "browser_navigate" (VDict []) 2
    Sample.seconds_0_75 (Sample.initial 2)
  = (Ok {| content := Some [] |},
     Sample.state_of (EV := Sample.env) O
       [EvCallTool Playwright "browser_navigate" (VDict []);
        EvRetryWarning "browser_navigate" 1 2 (RemoteError "unavailable")
          Sample.seconds_0_75;
        EvSleep Sample.seconds_0_75;
        EvCallTool Playwright "browser_navigate" (VDict []);
        EvRetryWarning "browser_navigate" 2 2 (RemoteError "unavailable")
          Sample.seconds_1_5;
        EvSleep Sample.seconds_1_5;
        EvCallTool Playwright "browser_navigate" (VDict [])])
  /\ fst (call_tool_with_retry (EV := Sample.env) Playwright "browser_navigate" (VDict []) 2
            Sample.seconds_0_75 (Sample.initial 3))
     = Raise (RuntimeError "Tool browser_navigate failed after 2 retries"
                (Some (RemoteError "unavailable"))).
Proof.
  destruct (retry_wrapper_contract (EV := Sample.env) Playwright "browser_navigate"
              (VDict []) 2 Sample.seconds_0_75 (Sample.initial 2) ltac:(lia))
    as (Hok & _).
  destruct (retry_wrapper_contract (EV := Sample.env) Playwright "browser_navigate"
              (VDict []) 2 Sample.seconds_0_75 (Sample.initial 3) ltac:(lia))
    as (_ & Hfail & _).
  split.
  - eapply (Hok 2%nat).
    + eapply fa_next; [eapply fa_next; [apply fa_none | | | |] | | | |]; reflexivity.
    + lia.
    + reflexivity.
  - erewrite Hfail;
      [reflexivity
      | eapply fa_next; [eapply fa_next; [apply fa_none | | | |] | | | |]; reflexivity
      | reflexivity | reflexivity].
Defined.

(** With 1025 retries and a server that keeps failing, the delay after
    failed attempt 1025 cannot be computed: [2 ** 1024] is beyond the
    floats.  The wrapper ends there with [OverflowError], one attempt
    short and without the terminal error. *)
Lemma retry_overflows_after_1025_failures :
  fst (call_tool_with_retry (EV := Sample.env) Playwright "browser_navigate" (VDict [])
         1025 Sample.seconds_0_75 (Sample.initial 2000))
  = Raise OverflowError
  /\ count_calls
       (st_trace
          (snd (call_tool_with_retry (EV := Sample.env) Playwright "browser_navigate"
                  (VDict []) 1025 Sample.seconds_0_75 (Sample.initial 2000))))
     = 1025%nat.
Proof. vm_compute. split; reflexivity. Qed.
(** ** More on the retry wrapper *)

Section RetryLaws.
Context {EV : Env}.
Variables (client_session : session) (tool_name : string) (tool_args : value).
Variables (retries : Z) (backoff_seconds : spec_float).

Abbreviation failed_ :=
  (failed_attempts client_session tool_name tool_args retries backoff_seconds).
Abbreviation run_ :=
  (call_tool_with_retry client_session tool_name tool_args retries backoff_seconds).

(** With a negative number of retries the tool is never called: the
    wrapper raises the terminal error, without a cause, and leaves the
    state as it was. *)
Theorem retry_negative_retries st :
  retries < 0 ->
  run_ st = (Raise (retry_failure tool_name retries None), st).
Proof.
  intros H. unfold call_tool_with_retry.
  replace (Z.to_nat (retries + 1)) with O by lia. reflexivity.
Qed.

(** An exception that is no [Exception] (an interrupt, a cancellation)
    is not retried: it leaves the wrapper at once, unwrapped. *)
Theorem retry_propagates_base_exception k st st1 exc st2 :
  failed_ k st st1 ->
  Z.of_nat k <= retries ->
  do_call_tool client_session tool_name (or_empty_dict tool_args) st1 = (Raise exc, st2) ->
  is_Exception exc = false ->
  run_ st = (Raise exc, st2).
Proof.
  intros Hk Hle Hcall Hexc.
  destruct (retry_after_failures client_session tool_name tool_args retries
              backoff_seconds k st st1 Hk Hle (S (Z.to_nat retries - k)) ltac:(lia))
    as [last ->].
  rewrite retry_loop_unfold.
  destruct (Z.leb_spec (Z.of_nat k) retries); [| lia].
  unfold try_except. rewrite Hcall. unfold except_Exception. rewrite Hexc. reflexivity.
Qed.

(** A backoff sleep that raises ends the wrapper with that exception:
    no further attempt is made. *)
Theorem retry_interrupted_sleep k st st1 exc st2 sleep_seconds e st3 :
  failed_ k st st1 ->
  Z.of_nat (S k) <= retries ->
  do_call_tool client_session tool_name (or_empty_dict tool_args) st1 = (Raise exc, st2) ->
  is_Exception exc = true ->
  let attempt := Z.of_nat (S k) in
  float_mul_int backoff_seconds (2 ^ (attempt - 1)) = Ok sleep_seconds ->
  mbind (emit (EvRetryWarning tool_name attempt retries exc sleep_seconds))
    (fun _ => do_sleep sleep_seconds) st2 = (Raise e, st3) ->
  run_ st = (Raise e, st3).
Proof.
  intros Hk Hle Hcall Hexc attempt Hdelay Hsleep.
  destruct (retry_after_failures client_session tool_name tool_args retries
              backoff_seconds k st st1 Hk ltac:(lia) (S (Z.to_nat retries - k))
              ltac:(lia)) as [last ->].
  rewrite retry_loop_unfold.
  destruct (Z.leb_spec (Z.of_nat k) retries); [| lia].
  unfold try_except at 1. rewrite Hcall. unfold except_Exception. rewrite Hexc.
  cbv zeta. destruct (Z.ltb_spec retries (Z.of_nat k + 1)); [lia |].
  subst attempt. rewrite Nat2Z.inj_succ in *. unfold Z.succ in *.
  unfold mbind at 1, pure. rewrite Hdelay.
  rewrite <- mbind_assoc. unfold mbind at 1. rewrite Hsleep. reflexivity.
Qed.

Lemma do_call_tool_trace s name tool_args0 st r st' :
  do_call_tool s name tool_args0 st = (r, st') ->
  st_trace st' = st_trace st ++ [EvCallTool s name tool_args0].
Proof.
  unfold do_call_tool. intros H.
  pose proof (perform_extends (Some (EvCallTool s name tool_args0))
                (call_tool s name tool_args0) st) as Hx.
  rewrite H in Hx. exact Hx.
Qed.

Lemma warn_sleep_trace w seconds st r st' :
  mbind (emit w) (fun _ => do_sleep seconds) st = (r, st') ->
  st_trace st' = st_trace st ++ [w; EvSleep seconds].
Proof.
  unfold mbind, emit, do_sleep, perform. simpl.
  destruct (sleep seconds (st_world st)) as [rs ws].
  intros H. injection H as _ <-. simpl. rewrite <- app_assoc. reflexivity.
Qed.

(** In every run with between 0 and 1024 retries the sleeps double:
    there are at most [retries] of them, sleep number [j] lasts the
    float [backoff_seconds * 2 ** (j - 1)], and the tool was called
    once before each sleep and at most once after the last. *)
Theorem retry_sleeps_double st r st' new :
  0 <= retries <= 1024 ->
  run_ st = (r, st') ->
  extends st st' new ->
  exists k,
    Z.of_nat k <= retries
    /\ map Ok (sleeps new)
       = map (fun attempt : nat =>
                float_mul_int backoff_seconds (2 ^ (Z.of_nat attempt - 1)))
           (seq 1 k)
    /\ (count_calls new = k \/ count_calls new = S k).
Proof.
  intros Hretries Hrun Hnew.
  pose proof (retry_run_outcome client_session tool_name tool_args retries
                backoff_seconds st r st' Hretries Hrun) as Hout.
  assert (Hcall : forall k st1 r1 st2,
             failed_ k st st1 ->
             do_call_tool client_session tool_name (or_empty_dict tool_args) st1
             = (r1, st2) ->
             exists new',
               extends st st2 new'
               /\ map Ok (sleeps new')
                  = map (fun attempt : nat =>
                           float_mul_int backoff_seconds (2 ^ (Z.of_nat attempt - 1)))
                      (seq 1 k)
               /\ count_calls new' = S k).
  { intros k st1 r1 st2 Hk Hc.
    destruct (failed_attempts_events client_session tool_name tool_args retries
                backoff_seconds k st st1 Hk) as (new0 & H0 & Hcount & Hsleeps).
    apply do_call_tool_trace in Hc. unfold extends in *.
    eexists. split; [rewrite Hc, H0, <- app_assoc; reflexivity |].
    rewrite sleeps_app, count_calls_app, Hcount. cbn [sleeps count_calls].
    rewrite app_nil_r. split; [exact Hsleeps | lia]. }
  assert (Hsame : forall new', extends st st' new' -> new' = new).
  { intros new' H'. unfold extends in *. rewrite H' in Hnew.
    apply app_inv_head in Hnew. exact Hnew. }
  inversion Hout as [k st1 v st2 Hk Hle Hc | st1 exc st2 Hk Hc Hexc
                    | k st1 exc st2 Hk Hle Hc Hexc
                    | k st1 exc st2 secs e st3 Hk Hle Hc Hexc Hdelay Hsleep]; subst.
  - destruct (Hcall _ _ _ _ Hk Hc) as (new' & Hx & Hs & Hn).
    apply Hsame in Hx as ->. exists k. auto.
  - destruct (Hcall _ _ _ _ Hk Hc) as (new' & Hx & Hs & Hn).
    apply Hsame in Hx as ->. exists (Z.to_nat retries). split; [lia | auto].
  - destruct (Hcall _ _ _ _ Hk Hc) as (new' & Hx & Hs & Hn).
    apply Hsame in Hx as ->. exists k. auto.
  - destruct (Hcall _ _ _ _ Hk Hc) as (new' & Hx & Hs & Hn).
    apply warn_sleep_trace in Hsleep.
    assert (Hx' : extends st st'
                    (new' ++ [EvRetryWarning tool_name (Z.of_nat (S k)) retries exc secs;
                              EvSleep secs])).
    { unfold extends in *. rewrite Hsleep, Hx, <- app_assoc. reflexivity. }
    apply Hsame in Hx' as <-. exists (S k).
    split; [exact Hle |]. split.
    + rewrite sleeps_app, map_app, Hs, seq_S, map_app. cbn [sleeps map Nat.add app].
      rewrite Hdelay. reflexivity.
    + left. rewrite count_calls_app, Hn. simpl. lia.
Qed.

End RetryLaws.

Lemma retry_negative_retries_witness :
  call_tool_with_retry (EV := Sample.env) Playwright "browser_navigate" (VDict []) (-1)
    Sample.seconds_0_75 (Sample.initial 2)
  = (Raise (RuntimeError "Tool browser_navigate failed after -1 retries" None),
     Sample.initial 2).
Proof.
  apply (retry_negative_retries (EV := Sample.env)). lia.
Defined.

Lemma retry_propagates_base_exception_witness :
  fst (call_tool_with_retry (EV := Sample.interrupted_env)
         Playwright "browser_navigate" (VDict []) 2 Sample.seconds_0_75
         (Sample.interrupted_start 1))
  = Raise KeyboardInterrupt.
Proof.
  erewrite (retry_propagates_base_exception (EV := Sample.interrupted_env)
              Playwright "browser_navigate" (VDict []) 2 Sample.seconds_0_75 1%nat);
    [reflexivity
    | eapply fa_next; [apply fa_none | | | |]; reflexivity
    | lia | reflexivity | reflexivity].
Defined.

Lemma retry_interrupted_sleep_witness :
  fst (call_tool_with_retry (EV := Sample.restless_env)
         Playwright "browser_navigate" (VDict []) 2 Sample.seconds_0_75
         (Sample.restless_start 1))
  = Raise CancelledError.
Proof.
  erewrite (retry_interrupted_sleep (EV := Sample.restless_env)
              Playwright "browser_navigate" (VDict []) 2 Sample.seconds_0_75 O);
    [reflexivity | apply fa_none | lia | reflexivity | reflexivity | reflexivity
    | reflexivity].
Defined.

Lemma retry_sleeps_double_witness :
  exists k,
    Z.of_nat k <= 2
    /\ map Ok
         (sleeps
            (st_trace
               (snd (call_tool_with_retry (EV := Sample.env) Playwright "browser_navigate"
                       (VDict []) 2 Sample.seconds_0_75 (Sample.initial 2)))))
       = map (fun attempt : nat =>
                float_mul_int Sample.seconds_0_75 (2 ^ (Z.of_nat attempt - 1)))
           (seq 1 k)
    /\ (count_calls
          (st_trace
             (snd (call_tool_with_retry (EV := Sample.env) Playwright "browser_navigate"
                     (VDict []) 2 Sample.seconds_0_75 (Sample.initial 2)))) = k
        \/ count_calls
             (st_trace
                (snd (call_tool_with_retry (EV := Sample.env) Playwright
                        "browser_navigate" (VDict []) 2 Sample.seconds_0_75
                        (Sample.initial 2)))) = S k).
Proof.
  apply (retry_sleeps_double (EV := Sample.env) Playwright "browser_navigate" (VDict []) 2
           Sample.seconds_0_75 (Sample.initial 2)
           (fst (call_tool_with_retry (EV := Sample.env) Playwright "browser_navigate"
                   (VDict []) 2 Sample.seconds_0_75 (Sample.initial 2)))
           (snd (call_tool_with_retry (EV := Sample.env) Playwright "browser_navigate"
                   (VDict []) 2 Sample.seconds_0_75 (Sample.initial 2)))).
  - lia.
  - apply surjective_pairing.
  - reflexivity.
Defined.

(** ** What the session code emits *)

Section Frames.
Context {RT : Runtime} {EV : Env}.

Lemma mret_Ok {A} (a b : A) (st st' : state) :
  mret a st = (Ok b, st') -> a = b /\ st = st'.
Proof. unfold mret. intros H. injection H as -> ->. auto. Qed.

Lemma pure_Ok {A} (r : result A) (b : A) (st st' : state) :
  pure r st = (Ok b, st') -> r = Ok b /\ st = st'.
Proof. unfold pure. intros H. injection H as -> ->. auto. Qed.

Lemma emit_trace e st r st' :
  emit e st = (r, st') -> st_trace st' = st_trace st ++ [e].
Proof. unfold emit. intros H. injection H as _ <-. reflexivity. Qed.

Lemma emits_only_ret {A} P (a : A) : emits_only P (mret a).
Proof.
  intros st r st' H. injection H as <- <-. exists []. split; [apply extends_refl | constructor].
Qed.

Lemma emits_only_raise {A} P e : emits_only P (@mraise EV A e).
Proof.
  intros st r st' H. injection H as <- <-. exists []. split; [apply extends_refl | constructor].
Qed.

Lemma emits_only_pure {A} P (x : result A) : emits_only P (pure x).
Proof.
  intros st r st' H. injection H as <- <-. exists []. split; [apply extends_refl | constructor].
Qed.

Lemma emits_only_bind {A B} P (m : M A) (k : A -> M B) :
  emits_only P m -> (forall a, emits_only P (k a)) -> emits_only P (mbind m k).
Proof.
  intros Hm Hk st r st' H. unfold mbind in H.
  destruct (m st) as [[a|e] st1] eqn:E.
  - destruct (Hm _ _ _ E) as (n1 & H1 & P1). destruct (Hk a _ _ _ H) as (n2 & H2 & P2).
    exists (n1 ++ n2). split; [eapply extends_trans; eassumption | apply Forall_app; auto].
  - injection H as <- <-. exact (Hm _ _ _ E).
Qed.

Lemma emits_only_try_except {A} P (body : M A) clauses :
  emits_only P body ->
  (forall e handler, clauses e = Some handler -> emits_only P handler) ->
  emits_only P (try_except body clauses).
Proof.
  intros Hb Hh st r st' H. unfold try_except in H.
  destruct (body st) as [[a|e] st1] eqn:E.
  - injection H as <- <-. exact (Hb _ _ _ E).
  - destruct (clauses e) as [handler|] eqn:Ec.
    + destruct (Hb _ _ _ E) as (n1 & H1 & P1).
      destruct (Hh e handler Ec _ _ _ H) as (n2 & H2 & P2).
      exists (n1 ++ n2). split; [eapply extends_trans; eassumption | apply Forall_app; auto].
    + injection H as <- <-. exact (Hb _ _ _ E).
Qed.

Lemma emits_only_except_Exception {A} P (handler : exn -> M A) :
  (forall e, emits_only P (handler e)) ->
  forall e h, except_Exception handler e = Some h -> emits_only P h.
Proof.
  intros Hh e h. unfold except_Exception. destruct (is_Exception e); [| discriminate].
  intros H. injection H as <-. apply Hh.
Qed.

Lemma emits_only_emit (P : event -> Prop) e : P e -> emits_only P (emit e).
Proof.
  intros He st r st' H. exists [e]. split; [exact (emit_trace _ _ _ _ H) | auto].
Qed.

Lemma emits_only_perform {A} (P : event -> Prop) e (op : world -> result A * world) :
  match e with Some e => P e | None => True end ->
  emits_only P (perform e op).
Proof.
  intros He st r st' H. pose proof (perform_extends e op st) as Hx.
  rewrite H in Hx. simpl in Hx. eexists. split; [exact Hx |].
  destruct e; [auto | constructor].
Qed.

Lemma emits_only_set_session P s b : emits_only P (set_session s b).
Proof.
  intros st r st' H. injection H as <- <-. exists []. split; [| constructor].
  unfold extends. simpl. rewrite app_nil_r. reflexivity.
Qed.

Lemma emits_only_session_is_set P s : emits_only P (session_is_set s).
Proof.
  intros st r st' H. injection H as <- <-. exists []. split; [apply extends_refl | constructor].
Qed.

Lemma emits_only_log (P : event -> Prop) level text :
  P (EvLog level text) -> emits_only P (log level text).
Proof. apply emits_only_emit. Qed.

Lemma emits_only_assert_session P s : emits_only P (assert_session s).
Proof.
  apply emits_only_bind; [apply emits_only_session_is_set |].
  intros []; [apply emits_only_ret | apply emits_only_raise].
Qed.

(** The wrapper calls nothing but the tool it was given, on the session
    it was given. *)
Lemma emits_only_retry_loop (P : event -> Prop) client_session tool_name tool_args
    retries backoff_seconds :
  P (EvCallTool client_session tool_name (or_empty_dict tool_args)) ->
  (forall a r e s, P (EvRetryWarning tool_name a r e s)) ->
  (forall s, P (EvSleep s)) ->
  forall fuel attempt_index last,
    emits_only P (retry_loop fuel client_session tool_name tool_args retries
                    backoff_seconds attempt_index last).
Proof.
  intros Pcall Pwarn Psleep. induction fuel as [|fuel IH]; intros attempt_index last.
  - apply emits_only_raise.
  - rewrite retry_loop_unfold.
    destruct (attempt_index <=? retries); [| apply emits_only_raise].
    apply emits_only_try_except; [apply emits_only_perform, Pcall |].
    apply emits_only_except_Exception. intros e. cbv zeta.
    destruct (retries <? attempt_index + 1); [apply emits_only_raise |].
    apply emits_only_bind; [apply emits_only_pure |]. intros sleep_seconds.
    apply emits_only_bind; [apply emits_only_emit, Pwarn |]. intros _.
    apply emits_only_bind; [apply emits_only_perform, Psleep |]. intros _.
    apply IH.
Qed.

Lemma emits_only_retry (P : event -> Prop) client_session tool_name tool_args :
  P (EvCallTool client_session tool_name (or_empty_dict tool_args)) ->
  (forall a r e s, P (EvRetryWarning tool_name a r e s)) ->
  (forall s, P (EvSleep s)) ->
  emits_only P (call_tool_with_retry_default client_session tool_name tool_args).
Proof.
  intros. unfold call_tool_with_retry_default, call_tool_with_retry.
  apply emits_only_retry_loop; assumption.
Qed.

Lemma emits_only_tool_is_available (P : event -> Prop) client_session tool_name :
  P (EvListTools client_session) ->
  (forall level text, P (EvLog level text)) ->
  emits_only P (tool_is_available client_session tool_name).
Proof.
  intros Plist Plog. unfold tool_is_available.
  apply emits_only_try_except.
  - apply emits_only_bind; [apply emits_only_perform, Plist |].
    intros. apply emits_only_ret.
  - apply emits_only_except_Exception. intros e.
    apply emits_only_bind; [apply emits_only_log, Plog | intros; apply emits_only_ret].
Qed.


Lemma emits_only_client_aexit (P : event -> Prop) :
  (forall level text, P (EvLog level text)) -> emits_only P client_aexit.
Proof.
  intros Plog. unfold client_aexit.
  repeat (apply emits_only_bind;
          [first [apply emits_only_perform; exact I | apply emits_only_set_session] |];
          intros _).
  apply emits_only_log, Plog.
Qed.


(** When the wrapper returns a result, the last thing it did was the
    call that gave it. *)
Lemma retry_loop_Ok_call client_session tool_name tool_args retries backoff_seconds fuel :
  forall attempt_index last st v st',
    retry_loop fuel client_session tool_name tool_args retries backoff_seconds
      attempt_index last st = (Ok v, st') ->
    exists st1 before,
      st_trace st1 = st_trace st ++ before
      /\ do_call_tool client_session tool_name (or_empty_dict tool_args) st1 = (Ok v, st').
Proof.
  induction fuel as [|fuel IH]; intros attempt_index last st v st' H;
    [discriminate |].
  rewrite retry_loop_unfold in H.
  destruct (attempt_index <=? retries); [| discriminate].
  unfold try_except in H.
  destruct (do_call_tool client_session tool_name (or_empty_dict tool_args) st)
    as [[v1|exc] st1] eqn:Hcall.
  - injection H as <- <-. exists st, []. rewrite app_nil_r. auto.
  - unfold except_Exception in H. destruct (is_Exception exc); [| discriminate].
    cbv zeta in H. destruct (retries <? attempt_index + 1); [discriminate |].
    apply mbind_Ok in H as (secs & st1' & Hsecs & H).
    apply pure_Ok in Hsecs as [_ <-].
    apply mbind_Ok in H as (? & st2 & Hemit & H).
    apply emit_trace in Hemit.
    apply mbind_Ok in H as (? & st3 & Hsleep & H).
    unfold do_sleep in Hsleep.
    match type of Hsleep with
    | perform ?ev ?op st2 = _ =>
        pose proof (perform_extends ev op st2) as Hsl
    end.
    rewrite Hsleep in Hsl. simpl in Hsl.
    unfold do_call_tool in Hcall.
    match type of Hcall with
    | perform ?ev ?op st = _ =>
        pose proof (perform_extends ev op st) as Hc
    end.
    rewrite Hcall in Hc. simpl in Hc.
    apply IH in H as (st4 & before & Hbefore & H).
    exists st4. eexists. split; [| exact H].
    unfold extends in *. rewrite Hbefore, Hsl, Hemit, Hc, <- !app_assoc. reflexivity.
Qed.

Lemma do_call_tool_Ok s tool_name tool_args st v st' :
  do_call_tool s tool_name tool_args st = (Ok v, st') ->
  call_tool s tool_name tool_args (st_world st) = (Ok v, st_world st')
  /\ st_trace st' = st_trace st ++ [EvCallTool s tool_name tool_args].
Proof.
  unfold do_call_tool, perform.
  destruct (call_tool s tool_name tool_args (st_world st)) as [r w].
  intros H. injection H as -> <-. auto.
Qed.

End Frames.

(** Goals of the form [emits_only P m] for straight-line [m], when [P]
    holds of every event by computation. *)
Ltac frame :=
  repeat first
    [ apply emits_only_ret
    | apply emits_only_raise
    | apply emits_only_pure
    | apply emits_only_assert_session
    | apply emits_only_log; exact I
    | apply emits_only_retry; [exact I | intros; exact I | intros; exact I]
    | apply emits_only_tool_is_available; [exact I | intros; exact I]
    | apply emits_only_perform; exact I
    | apply emits_only_bind; [| intros ?] ].

(** ** The capture session and the driver *)

Section SessionProps.
Context {RT : Runtime} {EV : Env}.





(** *** Saving *)


Lemma save_jsonl_ends_with_write request_records output_path st path st' :
  save_jsonl request_records output_path st = (Ok path, st') ->
  exists before,
    st_trace st'
    = st_trace st ++ before
      ++ [EvCallTool Filesystem "write_file"
            (VDict [("path", VStr path);
                    ("content", VStr (serialize_to_jsonl (VList request_records)))]);
          EvLog "INFO" "Saved lines"].
Proof.
  set (T := fun _ : event => True).
  unfold save_jsonl. intros H.
  apply mbind_Ok in H as (? & st1 & Hassert & H).
  apply mbind_Ok in H as (now & st2 & Hnow & H). injection Hnow as <- <-.
  apply mbind_Ok in H as (available & st3 & Hav & H).
  apply mbind_Ok in H as (? & st4 & Hdir & H).
  apply mbind_Ok in H as (? & st5 & Hwrite & H).
  apply mbind_Ok in H as (? & st6 & Hlog & H).
  apply mret_Ok in H as [<- <-].
  apply emit_trace in Hlog.
  unfold call_tool_with_retry_default, call_tool_with_retry in Hwrite.
  apply retry_loop_Ok_call in Hwrite as (st4' & b5 & Hb5 & Hwrite).
  apply do_call_tool_Ok in Hwrite as [_ Hwrite].
  assert (X1 : exists n, extends st st1 n).
  { assert (Hm : emits_only T (assert_session Filesystem)) by frame.
    destruct (Hm _ _ _ Hassert) as (n & X & _). eauto. }
  assert (X3 : exists n, extends st1 st3 n).
  { match type of Hav with ?m st1 = _ => assert (Hm : emits_only T m) by frame end.
    destruct (Hm _ _ _ Hav) as (n & X & _). eauto. }
  assert (X4 : exists n, extends st3 st4 n).
  { match type of Hdir with ?m st3 = _ => assert (Hm : emits_only T m) end.
    { destruct available; [| frame].
      apply emits_only_try_except; [frame |].
      apply emits_only_except_Exception. intros; frame. }
    destruct (Hm _ _ _ Hdir) as (n & X & _). eauto. }
  destruct X1 as [n1 X1], X3 as [n3 X3], X4 as [n4 X4].
  unfold extends in *. exists (n1 ++ n3 ++ n4 ++ b5).
  rewrite Hlog, Hwrite, Hb5, X4, X3, X1. rewrite <- !app_assoc. reflexivity.
Qed.

(** *** Exit status *)



Lemma run_async_unfold argv st :
  run_async argv st
  = match run_configure argv st with
    | (Ok (parser, cli_args), st0) =>
        try_except
          (mbind (run_try_body parser cli_args
                    {| command := arg_fs_cmd cli_args; args := arg_fs_args cli_args |})
             (fun _ => mret 0))
          run_handlers st0
    | (Raise e, st0) => (Raise e, st0)
    end.
Proof.
  unfold run_async. unfold mbind at 1.
  destruct (run_configure argv st) as [[[parser cli_args]|e] st0]; reflexivity.
Qed.


End SessionProps.



(** ** More on the session *)

Section SessionLaws.
Context {RT : Runtime} {EV : Env}.

Lemma emits_only_bind_pure {A B} P (r : result A) (k : A -> M B) :
  (forall a, r = Ok a -> emits_only P (k a)) -> emits_only P (mbind (pure r) k).
Proof.
  intros Hk st r0 st' H. unfold mbind, pure in H. destruct r as [a|e].
  - exact (Hk a eq_refl _ _ _ H).
  - injection H as <- <-. exists []. split; [apply extends_refl | constructor].
Qed.

(** The capture makes no tool call but its own three, on the browser
    server; it asks for the idle wait only in the mode [networkidle],
    with the timeout [int(wait_timeout_seconds * 1000)]; and it never
    calls [print]. *)
Theorem capture_emits_only_its_calls navigate_url wait_mode wait_timeout_seconds st r st' :
  capture_network_requests navigate_url wait_mode wait_timeout_seconds st = (r, st') ->
  exists new,
    extends st st' new
    /\ Forall (capture_event_allowed navigate_url wait_mode wait_timeout_seconds) new.
Proof.
  revert st r st'.
  change (emits_only (capture_event_allowed navigate_url wait_mode wait_timeout_seconds)
            (capture_network_requests navigate_url wait_mode wait_timeout_seconds)).
  set (P := capture_event_allowed navigate_url wait_mode wait_timeout_seconds).
  unfold capture_network_requests.
  assert (Hlog : forall level text, emits_only P (log level text))
    by (intros; apply emits_only_log; exact I).
  assert (Hsleep : forall s, emits_only P (do_sleep s))
    by (intros; apply emits_only_perform; exact I).
  assert (Hretry : forall tool_name tool_args,
             P (EvCallTool Playwright tool_name (or_empty_dict tool_args)) ->
             emits_only P (call_tool_with_retry_default Playwright tool_name tool_args))
    by (intros; apply emits_only_retry; [assumption | intros; exact I | intros; exact I]).
  apply emits_only_bind; [apply emits_only_assert_session |]. intros _.
  apply emits_only_bind; [apply Hlog |]. intros _.
  apply emits_only_bind; [apply Hretry; simpl; auto |]. intros _.
  apply emits_only_bind;
    [apply emits_only_tool_is_available; [reflexivity | intros; exact I] |].
  intros available.
  apply emits_only_bind.
  { destruct available.
    - destruct (String.eqb wait_mode "sleep");
        [apply emits_only_bind; [apply Hlog | intros; apply Hsleep] |].
      destruct (String.eqb_spec wait_mode "networkidle") as [Hmode|].
      + apply emits_only_bind; [apply emits_only_pure |]. intros whole_seconds.
        apply emits_only_bind; [apply Hlog |]. intros _.
        apply emits_only_bind_pure. intros timeout Htimeout.
        apply emits_only_bind; [| intros; apply emits_only_ret].
        apply Hretry. split; [reflexivity |]. right. left.
        split; [reflexivity | split; [exact Hmode |]].
        destruct (float_mul_int wait_timeout_seconds 1000) as [milliseconds|]
          eqn:Hms; [| discriminate].
        exists milliseconds, timeout. repeat split. exact Htimeout.
      + apply emits_only_bind; [apply Hlog | intros; apply Hsleep].
    - apply emits_only_bind; [apply Hlog | intros; apply Hsleep]. }
  intros _.
  apply emits_only_bind; [apply Hlog |]. intros _.
  apply emits_only_bind; [apply Hretry; simpl; auto | intros; apply emits_only_ret].
Qed.

(** Saving makes no tool call but the creation of the parent directory
    of the expanded path and the write of the serialized records to
    that path, both on the storage server; and it never calls
    [print]. *)
Theorem save_emits_only_its_calls request_records output_path st r st' :
  save_jsonl request_records output_path st = (r, st') ->
  exists new,
    extends st st' new
    /\ Forall (save_event_allowed
                 (expand_output_path_template os (clock (st_world st)) output_path)
                 (serialize_to_jsonl (VList request_records))) new.
Proof.
  set (path := expand_output_path_template os (clock (st_world st)) output_path).
  set (P := save_event_allowed path (serialize_to_jsonl (VList request_records))).
  assert (Hlog : forall level text, emits_only P (log level text))
    by (intros; apply emits_only_log; exact I).
  assert (Hretry : forall tool_name tool_args,
             P (EvCallTool Filesystem tool_name (or_empty_dict tool_args)) ->
             emits_only P (call_tool_with_retry_default Filesystem tool_name tool_args))
    by (intros; apply emits_only_retry; [assumption | intros; exact I | intros; exact I]).
  assert (Hsame : forall {A B} (m : M A) (k : A -> M B),
             (forall x st1, m st = (x, st1) -> st1 = st) ->
             (forall a, m st = (Ok a, st) ->
                        forall r st', k a st = (r, st') ->
                        exists new, extends st st' new /\ Forall P new) ->
             forall r st', mbind m k st = (r, st') ->
             exists new, extends st st' new /\ Forall P new).
  { intros A B m k Hm Hk r0 st0 H. unfold mbind in H.
    destruct (m st) as [[a|e] st1]; pose proof (Hm _ _ eq_refl) as ->.
    - exact (Hk a eq_refl _ _ H).
    - injection H as <- <-. exists []. split; [apply extends_refl | constructor]. }
  unfold save_jsonl. apply Hsame.
  { unfold assert_session, mbind, session_is_set. intros x st1 H.
    destruct (filesystem_session st); injection H as _ <-; reflexivity. }
  intros _ _. apply Hsame.
  { intros x st1 H. injection H as _ <-. reflexivity. }
  intros now Hnow. injection Hnow as <-. fold path.
  generalize st.
  match goal with
  | |- forall s r st', ?m s = (r, st') -> _ => change (emits_only P m)
  end.
  apply emits_only_bind;
    [apply emits_only_tool_is_available; [reflexivity | intros; exact I] |].
  intros available.
  apply emits_only_bind.
  { destruct available; [| apply emits_only_ret].
    apply emits_only_try_except.
    - apply emits_only_bind; [apply Hretry; simpl; auto | intros; apply Hlog].
    - apply emits_only_except_Exception. intros; apply Hlog. }
  intros _.
  apply emits_only_bind; [apply Hretry; simpl; auto |]. intros _.
  apply emits_only_bind; [apply Hlog | intros; apply emits_only_ret].
Qed.

(** *** Saving *)

(** [save_jsonl] returns a path only after the write of the serialized
    records to that very path has gone through: the call is the last
    thing before the closing log line. *)
Theorem save_jsonl_writes_then_returns request_records output_path st path st' :
  save_jsonl request_records output_path st = (Ok path, st') ->
  exists before,
    st_trace st'
    = st_trace st ++ before
      ++ [EvCallTool Filesystem "write_file"
            (VDict [("path", VStr path);
                    ("content", VStr (serialize_to_jsonl (VList request_records)))]);
          EvLog "INFO" "Saved lines"].
Proof. apply save_jsonl_ends_with_write. Qed.

(** *** The capability query *)

(** [tool_is_available] answers whether the name is listed; an
    [Exception] while listing counts as "not available"; only an
    exception that is no [Exception] gets out. *)
Theorem tool_is_available_outcome client_session tool_name st :
  match list_tools client_session (st_world st) with
  | (Ok names, _) =>
      exists b, fst (tool_is_available client_session tool_name st) = Ok b
                /\ (b = true <-> In tool_name names)
  | (Raise e, _) =>
      fst (tool_is_available client_session tool_name st)
      = if is_Exception e then Ok false else Raise e
  end.
Proof.
  unfold tool_is_available, try_except, mbind, perform.
  destruct (list_tools client_session (st_world st)) as [[names|e] w]; simpl.
  - exists (existsb (String.eqb tool_name) names). split; [reflexivity |].
    rewrite existsb_exists. split.
    + intros (x & Hin & Hx). apply String.eqb_eq in Hx as ->. exact Hin.
    + intros Hin. exists tool_name. split; [exact Hin | apply String.eqb_refl].
  - unfold except_Exception. destruct (is_Exception e); reflexivity.
Qed.

(** *** Entering and leaving the client *)

(** Once the client is entered, the sessions are closed whether the
    body returned or raised, and its outcome is kept; unless closing
    raises, in which case that exception replaces the outcome, also a
    successful one, and the session attributes stay set. *)
Theorem client_close_outcome {A} (self : client) (body : M A) st st1 rb st2 :
  client_aenter self st = (Ok tt, st1) ->
  body st1 = (rb, st2) ->
  match close_sessions (st_world st2) with
  | (Ok _, w') =>
      async_with_client self body st
      = (rb, {| st_world := w'; playwright_session := false;
                filesystem_session := false;
                st_trace := st_trace st2 ++ [EvLog "INFO" "Disconnected MCP sessions"] |})
  | (Raise e', w') =>
      async_with_client self body st
      = (Raise e', {| st_world := w'; playwright_session := playwright_session st2;
                      filesystem_session := filesystem_session st2;
                      st_trace := st_trace st2 |})
  end.
Proof.
  intros Henter Hbody.
  assert (Hx : async_with_client self body st
               = match client_aexit st2 with
                 | (Ok _, st3) => (rb, st3)
                 | (Raise e', st3) => (Raise e', st3)
                 end).
  { unfold async_with_client, mbind at 1. rewrite Henter, Hbody.
    destruct rb; reflexivity. }
  rewrite Hx. unfold client_aexit, mbind, perform, set_session, log, emit.
  destruct (close_sessions (st_world st2)) as [[[]|e'] w']; reflexivity.
Qed.

(** *** The filter in the driver *)

(** The filter runs on what was captured before the driver looks
    whether a filter was asked for.  When it raises, the run is over
    right after the capture: the sessions are closed, the error is
    logged and the status is 1; nothing else happens, also in a run
    without any filter. *)
Theorem filter_failure_aborts_run argv st parser cli_args st0 st1 captured st2 e w' :
  run_configure argv st = (Ok (parser, cli_args), st0) ->
  client_aenter
    {| playwright_sse_url := arg_sse cli_args;
       filesystem_stdio_params :=
         {| command := arg_fs_cmd cli_args; args := arg_fs_args cli_args |} |} st0
  = (Ok tt, st1) ->
  mbind (log "INFO" "Starting capture")
    (fun _ => capture_network_requests (arg_url cli_args) (arg_wait_mode cli_args)
                (arg_wait cli_args)) st1 = (Ok captured, st2) ->
  filter_network_requests (Some captured) (arg_filter_url cli_args)
    (arg_filter_method cli_args) (Some (arg_status_min cli_args))
    (Some (arg_status_max cli_args)) = Raise e ->
  is_Exception e = true ->
  close_sessions (st_world st2) = (Ok tt, w') ->
  run_async argv st
  = (Ok 1,
     {| st_world := w'; playwright_session := false; filesystem_session := false;
        st_trace := st_trace st2
                    ++ [EvLog "INFO" "Disconnected MCP sessions";
                        EvLog "ERROR" "Fatal error"] |}).
Proof.
  intros Hconf Henter Hcap Hfilter Hexc Hclose.
  rewrite run_async_unfold, Hconf.
  assert (Hbody : run_try_body parser cli_args
                    {| command := arg_fs_cmd cli_args; args := arg_fs_args cli_args |} st0
                  = (Raise e,
                     {| st_world := w'; playwright_session := false;
                        filesystem_session := false;
                        st_trace := st_trace st2
                                    ++ [EvLog "INFO" "Disconnected MCP sessions"] |})).
  { unfold run_try_body, async_with_client, mbind at 1. rewrite Henter.
    rewrite <- mbind_assoc. unfold mbind at 1. rewrite Hcap.
    unfold mbind at 1, pure. rewrite Hfilter.
    unfold client_aexit, mbind, perform, set_session, log, emit. rewrite Hclose.
    reflexivity. }
  unfold try_except, mbind at 1. rewrite Hbody.
  unfold run_handlers, except_Exception.
  destruct e; try discriminate; unfold mbind, log, emit, mret; simpl;
    rewrite <- app_assoc; reflexivity.
Qed.

(** *** The exit status *)

(** Once logging is set up and the arguments are read, no [Exception]
    and no [KeyboardInterrupt] leaves [run_async]: it returns 0, 130 or
    1, or ends with [SystemExit] or a cancellation. *)
Theorem run_async_outcomes argv st configuration st0 :
  run_configure argv st = (Ok configuration, st0) ->
  match fst (run_async argv st) with
  | Ok status => status = 0 \/ status = 130 \/ status = 1
  | Raise e => e = SystemExit \/ e = CancelledError
  end.
Proof.
  intros Hconf. rewrite run_async_unfold, Hconf.
  destruct configuration as [parser cli_args].
  unfold try_except, mbind at 1.
  destruct (run_try_body parser cli_args _ st0) as [[path|e] st1]; simpl; [auto |].
  destruct e; simpl; auto.
Qed.

(** *** Reading the configuration *)

Lemma build_parser_unreadable (system : os_env) name s :
  name = "CAPTURE_STATUS_MIN" \/ name = "CAPTURE_STATUS_MAX" ->
  environ system name = Some s ->
  int_of_str s = None ->
  build_parser system = Raise ValueError.
Proof.
  intros Hname Henv Hint. unfold build_parser, rbind, py_float_of_str.
  destruct (float_of_str _); [| reflexivity].
  unfold getenv. destruct Hname as [-> | ->].
  - rewrite Henv. cbn [py_int]. rewrite Hint. reflexivity.
  - destruct (environ system "CAPTURE_STATUS_MIN") as [lo|]; cbn [py_int].
    + destruct (int_of_str lo); [| reflexivity].
      rewrite Henv. cbn [py_int]. rewrite Hint. reflexivity.
    + destruct (int_of_str "0"); [| reflexivity].
      rewrite Henv. cbn [py_int]. rewrite Hint. reflexivity.
Qed.

(** The defaults of the two status bounds are read from the
    environment while the parser is built: a variable that is no
    integer ends [run_async] with [ValueError] before the arguments are
    looked at, whatever the command line says, also when it gives both
    bounds itself. *)
Theorem run_async_rejects_unreadable_default argv st st0 name s :
  name = "CAPTURE_STATUS_MIN" \/ name = "CAPTURE_STATUS_MAX" ->
  environ os name = Some s ->
  int_of_str s = None ->
  setup_logging st = (Ok tt, st0) ->
  run_async argv st = (Raise ValueError, st0).
Proof.
  intros Hname Henv Hint Hlog.
  rewrite run_async_unfold. unfold run_configure, mbind at 1. rewrite Hlog.
  unfold mbind at 1, pure. rewrite (build_parser_unreadable os name s Hname Henv Hint).
  reflexivity.
Qed.

(** *** Waiting *)

(** In the mode [networkidle], with the wait tool available, a wait
    time that is infinite or no number ends the capture right after the
    capability query: [int(wait_timeout_seconds)] raises while the
    arguments of the log line are evaluated, so no wait is asked for
    and nothing is fetched. *)
Theorem capture_rejects_unbounded_wait navigate_url wait_timeout_seconds st st1 e :
  float_to_int wait_timeout_seconds = Raise e ->
  mbind (assert_session Playwright)
    (fun _ => mbind (log "INFO" "Navigating")
    (fun _ => mbind (call_tool_with_retry_default Playwright "browser_navigate"
                       (VDict [("url", VStr navigate_url)]))
    (fun _ => tool_is_available Playwright "browser_wait_for"))) st = (Ok true, st1) ->
  capture_network_requests navigate_url "networkidle" wait_timeout_seconds st
  = (Raise e, st1).
Proof.
  intros Hwait H.
  apply mbind_Ok in H as (? & s1 & H1 & H).
  apply mbind_Ok in H as (? & s2 & H2 & H).
  apply mbind_Ok in H as (? & s3 & H3 & H4).
  unfold capture_network_requests.
  unfold mbind at 1. rewrite H1. unfold mbind at 1. rewrite H2.
  unfold mbind at 1. rewrite H3. unfold mbind at 1. rewrite H4.
  cbn [String.eqb Ascii.eqb Bool.eqb].
  unfold mbind at 1. unfold mbind at 1, pure. rewrite Hwait. reflexivity.
Qed.

End SessionLaws.

Lemma capture_emits_only_its_calls_witness :
  exists new,
    extends Sample.ready
      (snd (capture_network_requests (RT := Sample.runtime) (EV := Sample.env)
              "https://example.com" "networkidle" Sample.seconds_5 Sample.ready)) new
    /\ Forall (capture_event_allowed "https://example.com" "networkidle" Sample.seconds_5)
         new.
Proof.
  apply (capture_emits_only_its_calls (RT := Sample.runtime) (EV := Sample.env)
           "https://example.com" "networkidle" Sample.seconds_5 Sample.ready
           (fst (capture_network_requests (RT := Sample.runtime) (EV := Sample.env)
                   "https://example.com" "networkidle" Sample.seconds_5 Sample.ready))).
  vm_compute. reflexivity.
Defined.

Lemma save_emits_only_its_calls_witness :
  exists new,
    extends Sample.ready
      (snd (save_jsonl (RT := Sample.runtime) (EV := Sample.env)
              [Sample.record_a] "/data/capture_{ts}.jsonl" Sample.ready)) new
    /\ Forall (save_event_allowed
                 (expand_output_path_template (@os Sample.env)
                    (@clock Sample.env (st_world Sample.ready)) "/data/capture_{ts}.jsonl")
                 (serialize_to_jsonl (RT := Sample.runtime) (VList [Sample.record_a])))
         new.
Proof.
  apply (save_emits_only_its_calls (RT := Sample.runtime) (EV := Sample.env)
           [Sample.record_a] "/data/capture_{ts}.jsonl" Sample.ready
           (fst (save_jsonl (RT := Sample.runtime) (EV := Sample.env)
                   [Sample.record_a] "/data/capture_{ts}.jsonl" Sample.ready))).
  vm_compute. reflexivity.
Defined.

Lemma save_jsonl_writes_then_returns_witness :
  exists before,
    st_trace (snd (save_jsonl (RT := Sample.runtime) (EV := Sample.env)
                     [Sample.record_a] "/data/capture_{ts}.jsonl" Sample.ready))
    = st_trace Sample.ready ++ before
      ++ [EvCallTool Filesystem "write_file"
            (VDict [("path", VStr "/data/capture_20240506_070809.jsonl");
                    ("content",
                     VStr (serialize_to_jsonl (RT := Sample.runtime)
                             (VList [Sample.record_a])))]);
          EvLog "INFO" "Saved lines"].
Proof.
  apply (save_jsonl_writes_then_returns (RT := Sample.runtime) (EV := Sample.env)
           [Sample.record_a] "/data/capture_{ts}.jsonl" Sample.ready).
  vm_compute. reflexivity.
Defined.

Lemma client_close_outcome_witness :
  fst (async_with_client (EV := Sample.closing_env) Sample.default_client (mret 7)
         Sample.closing_start)
  = Raise (RemoteError "closing").
Proof.
  pose proof (client_close_outcome (EV := Sample.closing_env) Sample.default_client
                (mret 7) Sample.closing_start _ (Ok 7) _ eq_refl eq_refl) as H.
  simpl in H. rewrite H. reflexivity.
Defined.

Lemma filter_failure_aborts_run_witness :
  fst (run_async (RT := Sample.runtime) (EV := Sample.infinite_env)
         Sample.plain_argv Sample.infinite_start)
  = Ok 1.
Proof.
  erewrite (filter_failure_aborts_run (RT := Sample.runtime) (EV := Sample.infinite_env)
              Sample.plain_argv Sample.infinite_start);
    [reflexivity
    | vm_compute; reflexivity
    | vm_compute; reflexivity
    | vm_compute; reflexivity
    | vm_compute; reflexivity
    | reflexivity
    | vm_compute; reflexivity].
Defined.

Lemma run_async_outcomes_witness :
  match fst (run_async (RT := Sample.runtime) (EV := Sample.cancelled_env) Sample.argv
               (Sample.cancelled_start 0)) with
  | Ok status => status = 0 \/ status = 130 \/ status = 1
  | Raise e => e = SystemExit \/ e = CancelledError
  end.
Proof.
  eapply (run_async_outcomes (RT := Sample.runtime) (EV := Sample.cancelled_env)
            Sample.argv (Sample.cancelled_start 0)).
  vm_compute. reflexivity.
Defined.

Lemma run_async_rejects_unreadable_default_witness :
  run_async (RT := Sample.runtime) (EV := Sample.misconfigured_env)
    ["--url"; "https://example.com"; "--status-min"; "200"; "--status-max"; "399"]
    Sample.misconfigured_start
  = (Raise ValueError, Sample.misconfigured_start).
Proof.
  apply (run_async_rejects_unreadable_default (RT := Sample.runtime)
           (EV := Sample.misconfigured_env) _ _ _ "CAPTURE_STATUS_MIN" "abc");
    [left; reflexivity | reflexivity | reflexivity | reflexivity].
Defined.

Lemma capture_rejects_unbounded_wait_witness :
  fst (capture_network_requests (RT := Sample.runtime) (EV := Sample.env)
         "https://example.com" "networkidle" (S754_infinity false) Sample.ready)
  = Raise OverflowError.
Proof.
  erewrite (capture_rejects_unbounded_wait (RT := Sample.runtime) (EV := Sample.env)
              "https://example.com" (S754_infinity false) Sample.ready);
    [reflexivity | reflexivity | vm_compute; reflexivity].
Defined.

(** ** Serialization *)

Lemma append_nil_r s : s +:+ "" = s.
Proof. induction s as [|c s IH]; simpl; [| rewrite IH]; reflexivity. Qed.

Lemma append_assoc a b c : (a +:+ b) +:+ c = a +:+ (b +:+ c).
Proof. induction a as [|x a IH]; simpl; [| rewrite IH]; reflexivity. Qed.

Lemma contains_cons needle c s :
  contains needle (String c s) = false ->
  String.prefix needle (String c s) = false /\ contains needle s = false.
Proof. simpl. intros H. apply orb_false_elim in H. exact H. Qed.

Lemma no_newline_cons c s :
  contains newline (String c s) = false ->
  Ascii.eqb c "010" = false /\ contains newline s = false.
Proof.
  intros H. apply contains_cons in H as [Hp Hs]. split; [| exact Hs].
  unfold newline in Hp. simpl in Hp.
  destruct (Ascii.eqb_spec c "010") as [->|]; [| reflexivity].
  destruct (ascii_dec "010" "010"); [| congruence].
  destruct s; discriminate.
Qed.

(** A line without newline, its newline, and the rest. *)
Lemma split_lines_from_line line rest :
  contains newline line = false ->
  forall read,
    split_lines_from read (line +:+ newline +:+ rest)
    = (read +:+ line) :: split_lines_from "" rest.
Proof.
  induction line as [|c line IH]; intros Hline read.
  - rewrite append_nil_r. reflexivity.
  - apply no_newline_cons in Hline as [Hc Hline].
    change (split_lines_from read (String c (line +:+ newline +:+ rest))
            = (read +:+ String c line) :: split_lines_from "" rest).
    cbn [split_lines_from]. rewrite Hc, (IH Hline), append_assoc. reflexivity.
Qed.

Section JsonlProps.
Context {RT : Runtime}.

Lemma serialize_list_cons item items :
  serialize_to_jsonl (VList (item :: items))
  = json_dumps item +:+ newline +:+ serialize_to_jsonl (VList items).
Proof.
  simpl. destruct (map _ items) eqn:E; simpl;
    rewrite ?append_nil_r, ?append_assoc; reflexivity.
Qed.

Lemma split_lines_serialize records :
  Forall json_representable records ->
  split_lines (serialize_to_jsonl (VList records)) = map json_dumps records.
Proof.
  induction 1 as [|r records [_ Hnl] _ IH]; [reflexivity |].
  rewrite serialize_list_cons. unfold split_lines.
  rewrite split_lines_from_line by exact Hnl. simpl. f_equal. exact IH.
Qed.

(** C7.  For records that [json] can represent, the lines of the
    serialized text are the JSON renderings of the records, one line
    per record in the same order; parsing each line gives back the
    records; and the text is exactly these lines, each followed by one
    newline, so nothing comes after the final newline. *)
Theorem jsonl_round_trip (records : list value) :
  Forall json_representable records ->
  let text := serialize_to_jsonl (VList records) in
  map json_loads (split_lines text) = map Some records
  /\ split_lines text = map json_dumps records
  /\ text = String.concat "" (map (fun line => line +:+ newline) (split_lines text)).
Proof.
  intros Hall text. subst text.
  rewrite (split_lines_serialize records Hall). repeat split.
  - induction Hall as [|r records [Hrt _] _ IH]; simpl; [reflexivity |].
    rewrite Hrt. f_equal. exact IH.
  - simpl. rewrite map_map. reflexivity.
Qed.

End JsonlProps.

Lemma jsonl_round_trip_witness :
  map Sample.loads
    (split_lines (serialize_to_jsonl (RT := Sample.runtime)
                    (VList [Sample.record_a; Sample.record_b])))
  = [Some Sample.record_a; Some Sample.record_b].
Proof.
  apply (jsonl_round_trip (RT := Sample.runtime) [Sample.record_a; Sample.record_b]).
  repeat constructor.
Defined.

(** ** More on serialization and normalization *)

Section SerializeLaws.
Context {RT : Runtime}.

(** Serializing two lists joined gives the two texts joined. *)
Theorem serialize_to_jsonl_app (a b : list value) :
  serialize_to_jsonl (VList (a ++ b))
  = serialize_to_jsonl (VList a) +:+ serialize_to_jsonl (VList b).
Proof.
  induction a as [|x a IH]; [reflexivity |].
  change ((x :: a) ++ b) with (x :: (a ++ b)).
  rewrite !serialize_list_cons, IH, !append_assoc. reflexivity.
Qed.

(** [serialize_to_jsonl] wraps a payload that is no list the way the
    list coercion of the capture does: but for a mapping with a
    list-valued [requests] entry, which is serialized as one line,
    serializing a payload is serializing its coercion to a list. *)
Theorem serialize_agrees_with_coercion (payload : value) :
  match payload with
  | VDict kvs => forall inner, dict_lookup kvs "requests" <> Some (VList inner)
  | _ => True
  end ->
  serialize_to_jsonl payload = serialize_to_jsonl (VList (normalize_to_list payload)).
Proof.
  destruct payload as [| b | n | f | s | items | kvs]; intros H; try reflexivity.
  simpl normalize_to_list.
  destruct (dict_lookup kvs "requests") as [[| | | | | inner |]|] eqn:E;
    try reflexivity.
  exfalso. apply (H inner). reflexivity.
Qed.

(** The normalizer does not tell an object with attributes from a
    mapping with the same entries. *)
Theorem extract_object_or_mapping (entries : list (list (string * value))) :
  extract_tool_result_json (Some {| content := Some (map EntryObject entries) |})
  = extract_tool_result_json
      (Some {| content := Some (map (fun kvs => EntryValue (VDict kvs)) entries) |}).
Proof.
  cbn [extract_tool_result_json content].
  induction entries as [|kvs entries IH]; [reflexivity |].
  cbn [map scan_content].
  assert (Htype : entry_content_type (EntryObject kvs)
                  = entry_content_type (EntryValue (VDict kvs))) by reflexivity.
  assert (Hjson : entry_json_payload (EntryObject kvs)
                  = entry_json_payload (EntryValue (VDict kvs))).
  { unfold entry_json_payload, entry_hasattr, entry_getattr, dict_get.
    destruct (dict_lookup kvs "json"); reflexivity. }
  assert (Htext : entry_text_payload (EntryObject kvs)
                  = entry_text_payload (EntryValue (VDict kvs))).
  { unfold entry_text_payload, entry_hasattr, entry_getattr, dict_get, dict_get_default.
    destruct (dict_lookup kvs "text"); reflexivity. }
  rewrite Htype, Hjson, Htext, IH. reflexivity.
Qed.

End SerializeLaws.

Lemma serialize_agrees_with_coercion_witness :
  serialize_to_jsonl (RT := Sample.runtime) (VInt 7)
  = serialize_to_jsonl (RT := Sample.runtime) (VList [VDict [("value", VInt 7)]]).
Proof.
  apply (serialize_agrees_with_coercion (RT := Sample.runtime) (VInt 7)). exact I.
Defined.

(** ** Strings: prefixes, occurrences, replacement *)

Lemma prefix_nil s : String.prefix "" s = true.
Proof. destruct s; reflexivity. Qed.

Lemma prefix_cons a u c s :
  String.prefix (String a u) (String c s) = Ascii.eqb a c && String.prefix u s.
Proof.
  simpl. destruct (ascii_dec a c) as [->|Hne].
  - rewrite Ascii.eqb_refl. reflexivity.
  - destruct (Ascii.eqb_spec a c); [contradiction | reflexivity].
Qed.

Lemma prefix_empty a u : String.prefix (String a u) "" = false.
Proof. reflexivity. Qed.

Lemma prefix_append u s : String.prefix u (u +:+ s) = true.
Proof.
  induction u as [|a u IH]; [apply prefix_nil |].
  simpl String.append. rewrite prefix_cons, Ascii.eqb_refl. exact IH.
Qed.

(** A prefix is what the string starts with. *)
Lemma prefix_true u s :
  String.prefix u s = true -> s = u +:+ string_drop (String.length u) s.
Proof.
  revert s. induction u as [|a u IH]; intros s H; [reflexivity |].
  destruct s as [|c s]; [discriminate |].
  rewrite prefix_cons in H. apply andb_prop in H as [Hc Hu].
  apply Ascii.eqb_eq in Hc as ->. simpl. f_equal. apply IH, Hu.
Qed.

Lemma prefix_app_l u a b :
  String.prefix u a = true -> String.prefix u (a +:+ b) = true.
Proof.
  revert a. induction u as [|x u IH]; intros a H; [apply prefix_nil |].
  destruct a as [|c a]; [discriminate |].
  rewrite prefix_cons in H. apply andb_prop in H as [Hc Hu].
  simpl String.append. rewrite prefix_cons, Hc. simpl. apply IH, Hu.
Qed.

Lemma starts_outside_tail a u b : starts_outside (String a u) b -> starts_outside u b.
Proof.
  destruct b as [|c b]; simpl; [trivial |]. intros H.
  apply orb_false_elim in H as [_ H]. exact H.
Qed.

(** A prefix of [a ++ b] that cannot reach into [b] is a prefix of [a]. *)
Lemma prefix_app_inv u a b :
  u <> "" ->
  starts_outside u b ->
  String.prefix u (a +:+ b) = true ->
  String.prefix u a = true.
Proof.
  intros Hne. revert a Hne.
  induction u as [|x u IH]; intros a Hne Hb H; [congruence |].
  destruct a as [|c a].
  - simpl String.append in H. destruct b as [|c b]; [discriminate |].
    rewrite prefix_cons in H. apply andb_prop in H as [Hc _].
    apply Ascii.eqb_eq in Hc as ->. simpl in Hb.
    rewrite Ascii.eqb_refl in Hb. discriminate.
  - simpl String.append in H. rewrite prefix_cons in *.
    apply andb_prop in H as [Hc Hu]. rewrite Hc. simpl.
    destruct u as [|y u]; [apply prefix_nil |].
    apply IH; [discriminate | eapply starts_outside_tail; exact Hb | exact Hu].
Qed.

Lemma string_drop_app u t : string_drop (String.length u) (u +:+ t) = t.
Proof. induction u as [|x u IH]; [reflexivity | exact IH]. Qed.

Lemma contains_nil needle : needle <> "" -> contains needle "" = false.
Proof. destruct needle; [congruence | reflexivity]. Qed.

Lemma contains_app_r needle a b :
  contains needle (a +:+ b) = false -> contains needle b = false.
Proof.
  induction a as [|c a IH]; [trivial |]. simpl String.append.
  intros H. apply contains_cons in H as [_ H]. apply IH, H.
Qed.

Lemma contains_app_l needle a b :
  needle <> "" -> contains needle (a +:+ b) = false -> contains needle a = false.
Proof.
  intros Hne. induction a as [|c a IH]; intros H; [apply contains_nil, Hne |].
  simpl String.append in H. apply contains_cons in H as [Hp H].
  cbn [contains]. rewrite (IH H), orb_false_r.
  destruct (String.prefix needle (String c a)) eqn:E; [| reflexivity].
  apply (prefix_app_l _ _ b) in E. simpl String.append in E. congruence.
Qed.

(** Joining two texts without [needle] gives a text without [needle]
    when no occurrence can straddle the joint. *)
Lemma contains_app needle a b :
  needle <> "" ->
  starts_outside needle b ->
  contains needle a = false ->
  contains needle b = false ->
  contains needle (a +:+ b) = false.
Proof.
  intros Hne Hb Ha Hnb. induction a as [|c a IH]; [exact Hnb |].
  apply contains_cons in Ha as [Hp Ha]. simpl String.append. cbn [contains].
  rewrite (IH Ha), orb_false_r.
  destruct (String.prefix needle (String c (a +:+ b))) eqn:E; [| reflexivity].
  change (String c (a +:+ b)) with (String c a +:+ b) in E.
  apply prefix_app_inv in E; [congruence | exact Hne | exact Hb].
Qed.

(** The text that stands for a replaced occurrence does not contain the
    first character of [old]. *)
Lemma contains_skip_new o old' new y :
  occurs o new = false ->
  contains (String o old') (new +:+ y) = contains (String o old') y.
Proof.
  induction new as [|c new IH]; intros H; [reflexivity |].
  simpl in H. apply orb_false_elim in H as [Hc H].
  simpl String.append. cbn [contains]. rewrite prefix_cons, Hc. simpl. apply IH, H.
Qed.

Section Replace.
Variables (o : ascii) (old' new : string).

Abbreviation old := (String o old').

Lemma replace_from_skip u :
  forall s, replace_from old new (String.length u) (u +:+ s) = replace_from old new O s.
Proof.
  induction u as [|c u IH]; intros s; [destruct s; reflexivity |].
  simpl String.append. cbn [String.length replace_from]. apply IH.
Qed.

Lemma str_replace_match s :
  String.prefix old s = true ->
  str_replace old new s
  = new +:+ str_replace old new (string_drop (String.length old) s).
Proof.
  intros H. pose proof (prefix_true old s H) as Hs.
  destruct s as [|c s]; [discriminate |].
  unfold str_replace. cbn [replace_from]. rewrite H.
  cbn [String.length Nat.pred string_drop] in *.
  simpl String.append in Hs. injection Hs as _ Hs.
  rewrite Hs at 1. rewrite replace_from_skip. reflexivity.
Qed.

Lemma str_replace_skip c s :
  String.prefix old (String c s) = false ->
  str_replace old new (String c s) = String c (str_replace old new s).
Proof.
  intros H. unfold str_replace. cbn [replace_from]. rewrite H. reflexivity.
Qed.

Lemma string_drop_length k s :
  (String.length (string_drop k s) <= String.length s)%nat.
Proof.
  revert s. induction k as [|k IH]; intros s; [simpl; lia |].
  destruct s as [|c s]; simpl; [lia |]. specialize (IH s). lia.
Qed.

Lemma str_replace_unchanged s :
  contains old s = false -> str_replace old new s = s.
Proof.
  induction s as [|c s IH]; intros H; [reflexivity |].
  apply contains_cons in H as [Hp H].
  rewrite str_replace_skip by exact Hp. rewrite (IH H). reflexivity.
Qed.

(** Replacement works on the two sides of a joint that no occurrence
    of [old] can straddle. *)
Lemma str_replace_app b :
  starts_outside old b ->
  forall a,
    str_replace old new (a +:+ b) = str_replace old new a +:+ str_replace old new b.
Proof.
  intros Hb a. remember (String.length a) as m eqn:Hm.
  assert (Hle : (String.length a <= m)%nat) by lia. clear Hm.
  revert a Hle. induction m as [|m IH]; intros a Hle.
  - destruct a; [reflexivity | simpl in Hle; lia].
  - destruct a as [|c a]; [reflexivity |].
    destruct (String.prefix old (String c a +:+ b)) eqn:E.
    + pose proof E as Ea. apply prefix_app_inv in Ea; [| discriminate | exact Hb].
      rewrite (str_replace_match _ E), (str_replace_match _ Ea).
      rewrite append_assoc. f_equal.
      simpl String.append. cbn [String.length string_drop].
      pose proof (prefix_true old (String c a) Ea) as Hs.
      simpl String.append in Hs. cbn [String.length string_drop] in Hs.
      injection Hs as _ Hs.
      assert (Hdrop : string_drop (String.length old') (a +:+ b)
                      = string_drop (String.length old') a +:+ b).
      { rewrite Hs at 1. rewrite append_assoc. apply string_drop_app. }
      rewrite Hdrop. apply IH.
      pose proof (string_drop_length (String.length old') a). simpl in Hle. lia.
    + assert (Ea : String.prefix old (String c a) = false).
      { destruct (String.prefix old (String c a)) eqn:Ea; [| reflexivity].
        apply (prefix_app_l _ _ b) in Ea. congruence. }
      simpl String.append in *.
      rewrite (str_replace_skip _ _ E), (str_replace_skip _ _ Ea).
      simpl String.append. f_equal. apply IH. simpl in Hle. lia.
Qed.

End Replace.

Section ReplaceOccurrences.
Variables (o : ascii) (old' : string) (n : ascii) (new' : string).

Abbreviation old_ := (String o old').
Abbreviation new_ := (String n new').

(** What the replaced text starts with, the original text started
    with, as far as characters other than the first of [new] go. *)
Lemma prefix_of_replaced u :
  occurs n u = false ->
  forall x,
    String.prefix u (str_replace old_ new_ x) = true -> String.prefix u x = true.
Proof.
  induction u as [|a u IH]; intros Hu x H; [apply prefix_nil |].
  simpl in Hu. apply orb_false_elim in Hu as [Hna Hu].
  destruct x as [|c x]; [discriminate |].
  destruct (String.prefix old_ (String c x)) eqn:E.
  - rewrite (str_replace_match _ _ _ _ E) in H. simpl String.append in H.
    rewrite prefix_cons in H. apply andb_prop in H as [Han _].
    rewrite Ascii.eqb_sym in Han. congruence.
  - rewrite (str_replace_skip _ _ _ _ _ E) in H. rewrite prefix_cons in *.
    apply andb_prop in H as [Hac H]. rewrite Hac. simpl. apply IH; assumption.
Qed.

(** After the replacement no occurrence of [old] is left, provided the
    new text is not empty, does not contain the first character of
    [old], and starts with a character that [old] does not continue
    with. *)
Lemma str_replace_no_occurrence :
  occurs o new_ = false ->
  occurs n old' = false ->
  forall s, contains old_ (str_replace old_ new_ s) = false.
Proof.
  intros Ho Hn s. remember (String.length s) as m eqn:Hm.
  assert (Hle : (String.length s <= m)%nat) by lia. clear Hm.
  revert s Hle. induction m as [|m IH]; intros s Hle.
  - destruct s; [reflexivity | simpl in Hle; lia].
  - destruct s as [|c s]; [reflexivity |].
    destruct (String.prefix old_ (String c s)) eqn:E.
    + rewrite (str_replace_match _ _ _ _ E).
      rewrite contains_skip_new by exact Ho. apply IH.
      cbn [String.length string_drop].
      pose proof (string_drop_length (String.length old') s). simpl in Hle. lia.
    + rewrite (str_replace_skip _ _ _ _ _ E). cbn [contains].
      rewrite IH by (simpl in Hle; lia). rewrite orb_false_r.
      destruct (String.prefix old_ (String c (str_replace old_ new_ s))) eqn:E';
        [| reflexivity].
      rewrite prefix_cons in E'. apply andb_prop in E' as [Hoc Hrest].
      apply (prefix_of_replaced old' Hn) in Hrest.
      rewrite prefix_cons, Hoc, Hrest in E. discriminate.
Qed.

End ReplaceOccurrences.

(** ** Timestamps *)

Lemma length_append a b :
  String.length (a +:+ b) = (String.length a + String.length b)%nat.
Proof. induction a as [|c a IH]; simpl; [| rewrite IH]; reflexivity. Qed.

Lemma string_forallb_append p a b :
  string_forallb p (a +:+ b) = string_forallb p a && string_forallb p b.
Proof.
  induction a as [|c a IH]; simpl; [reflexivity |].
  rewrite IH, andb_assoc. reflexivity.
Qed.

Lemma digit_char_is_digit d : 0 <= d <= 9 -> is_digit (digit_char d) = true.
Proof.
  intros H.
  assert (Hd : d = 0 \/ d = 1 \/ d = 2 \/ d = 3 \/ d = 4 \/ d = 5 \/ d = 6 \/ d = 7
               \/ d = 8 \/ d = 9) by lia.
  repeat (destruct Hd as [-> | Hd]; [reflexivity |]). subst d. reflexivity.
Qed.

Lemma pad_decimal_length width : forall n, String.length (pad_decimal width n) = width.
Proof.
  induction width as [|w IH]; intros n; [reflexivity |].
  cbn [pad_decimal]. rewrite length_append, IH. cbn [String.length]. lia.
Qed.

Lemma pad_decimal_digits width :
  forall n, string_forallb is_digit (pad_decimal width n) = true.
Proof.
  induction width as [|w IH]; intros n; [reflexivity |].
  cbn [pad_decimal]. rewrite string_forallb_append, IH.
  cbn [string_forallb andb].
  rewrite digit_char_is_digit; [reflexivity |].
  pose proof (Z.mod_pos_bound n 10). lia.
Qed.

(** The date and the time of day in a timestamp. *)
Lemma timestamp_shape now :
  let date := pad_decimal 4 (year now) +:+ pad_decimal 2 (month now)
              +:+ pad_decimal 2 (day now) in
  let time := pad_decimal 2 (hour now) +:+ pad_decimal 2 (minute now)
              +:+ pad_decimal 2 (second now) in
  timestamp_yyyymmdd_hhmmss now = date +:+ "_" +:+ time
  /\ String.length date = 8%nat /\ string_forallb is_digit date = true
  /\ String.length time = 6%nat /\ string_forallb is_digit time = true.
Proof.
  intros date time. subst date time. unfold timestamp_yyyymmdd_hhmmss.
  rewrite !length_append, !string_forallb_append, !pad_decimal_length,
    !pad_decimal_digits, !append_assoc.
  repeat split.
Qed.

Lemma timestamp_chars now :
  string_forallb timestamp_char (timestamp_yyyymmdd_hhmmss now) = true.
Proof.
  assert (Hd : forall s, string_forallb is_digit s = true ->
                         string_forallb timestamp_char s = true).
  { induction s as [|c s IH]; simpl; [trivial |]. intros H.
    apply andb_prop in H as [Hc Hs]. unfold timestamp_char at 1.
    rewrite Hc, (IH Hs). reflexivity. }
  unfold timestamp_yyyymmdd_hhmmss.
  rewrite !string_forallb_append.
  repeat match goal with
         | |- context [string_forallb timestamp_char (pad_decimal ?w ?n)] =>
             rewrite (Hd (pad_decimal w n)) by apply pad_decimal_digits
         end.
  reflexivity.
Qed.

Lemma timestamp_starts_with_digit now :
  exists n rest, timestamp_yyyymmdd_hhmmss now = String n rest /\ is_digit n = true.
Proof.
  unfold timestamp_yyyymmdd_hhmmss.
  pose proof (pad_decimal_length 4 (year now)) as Hlen.
  pose proof (pad_decimal_digits 4 (year now)) as Hdig.
  destruct (pad_decimal 4 (year now)) as [|n rest]; [discriminate |].
  simpl in Hdig. apply andb_prop in Hdig as [Hn _].
  simpl String.append. eauto.
Qed.

Lemma occurs_false_of_forallb (p : ascii -> bool) x s :
  p x = false -> string_forallb p s = true -> occurs x s = false.
Proof.
  intros Hx. induction s as [|c s IH]; simpl; [trivial |]. intros H.
  apply andb_prop in H as [Hc Hs]. rewrite (IH Hs), orb_false_r.
  destruct (Ascii.eqb_spec x c) as [->|]; [congruence | reflexivity].
Qed.

Lemma digit_not_in_placeholder n : is_digit n = true -> occurs n "ts}" = false.
Proof.
  intros Hn. simpl.
  destruct (Ascii.eqb_spec n "t") as [->|]; [discriminate |].
  destruct (Ascii.eqb_spec n "s") as [->|]; [discriminate |].
  destruct (Ascii.eqb_spec n "}") as [->|]; [discriminate |].
  reflexivity.
Qed.

(** Every placeholder is replaced: none is left in the text. *)
Lemma replace_ts_no_placeholder now template :
  contains "{ts}" (str_replace "{ts}" (timestamp_yyyymmdd_hhmmss now) template) = false.
Proof.
  destruct (timestamp_starts_with_digit now) as (n & rest & Hts & Hn).
  pose proof (timestamp_chars now) as Hchars. rewrite Hts in *.
  apply str_replace_no_occurrence.
  - apply (occurs_false_of_forallb timestamp_char); [reflexivity | exact Hchars].
  - apply digit_not_in_placeholder, Hn.
Qed.

(** ** Home directories *)

Lemma split_at_sep_spec s :
  forall name tail,
    split_at_sep s = (name, tail) ->
    s = name +:+ tail /\ (tail = "" \/ exists t, tail = String "/" t).
Proof.
  induction s as [|c s IH]; simpl; intros name tail H.
  - injection H as <- <-. auto.
  - destruct (Ascii.eqb_spec c "/") as [->|Hc].
    + injection H as <- <-. eauto.
    + destruct (split_at_sep s) as [name' tail'].
      injection H as <- <-. destruct (IH _ _ eq_refl) as [-> Htail].
      auto.
Qed.

(** A separator placed after [r] is found in [r] or is the one placed. *)
Lemma split_at_sep_joint t r :
  exists name d, split_at_sep (r +:+ String "/" t) = (name, d +:+ String "/" t).
Proof.
  induction r as [|c r (name & d & IH)]; simpl String.append.
  - exists "", "". reflexivity.
  - cbn [split_at_sep]. destruct (Ascii.eqb c "/").
    + exists "", (String c r). reflexivity.
    + rewrite IH. eauto.
Qed.

Lemma rstrip_sep_prefix home : exists z, home = rstrip_sep home +:+ z.
Proof.
  induction home as [|c home [z IH]]; [exists ""; reflexivity |].
  cbn [rstrip_sep].
  destruct (Ascii.eqb c "/" && String.eqb (rstrip_sep home) "").
  - eexists. reflexivity.
  - exists z. simpl String.append. f_equal. exact IH.
Qed.

Lemma expanduser_no_placeholder os path :
  home_dirs_plain os ->
  contains "{ts}" path = false ->
  contains "{ts}" (expanduser os path) = false.
Proof.
  intros Hhome Hpath. unfold expanduser.
  destruct path as [|c rest]; [exact Hpath |].
  destruct (Ascii.eqb c "~"); [| exact Hpath].
  destruct (split_at_sep rest) as [name tail] eqn:Esplit.
  apply split_at_sep_spec in Esplit as [-> Htail].
  set (userhome := if String.eqb name "" then _ else _).
  assert (Hplain : forall home, userhome = Some home -> contains "{ts}" home = false).
  { intros home Hu. apply Hhome. subst userhome.
    destruct (String.eqb name "").
    - destruct (environ os "HOME"); [left | right; left]; exact Hu.
    - right. right. eauto. }
  destruct userhome as [home|]; [| exact Hpath].
  specialize (Hplain home eq_refl).
  destruct (String.eqb (rstrip_sep home +:+ tail) ""); [reflexivity |].
  apply contains_app.
  - discriminate.
  - destruct Htail as [-> | [t ->]]; reflexivity.
  - destruct (rstrip_sep_prefix home) as [z Hz]. rewrite Hz in Hplain.
    apply contains_app_l in Hplain; [exact Hplain | discriminate].
  - change (String c (name +:+ tail)) with (String c name +:+ tail) in Hpath.
    apply contains_app_r in Hpath. exact Hpath.
Qed.

Lemma append_cons_nonempty a c t : String.eqb (a +:+ String c t) "" = false.
Proof. destruct a; reflexivity. Qed.

(** Expansion leaves a tail that starts with a separator in place. *)
Lemma expanduser_keeps_tail os t r :
  exists dir, expanduser os (r +:+ String "/" t) = dir +:+ String "/" t.
Proof.
  unfold expanduser. destruct r as [|c r]; simpl String.append; cbv beta iota.
  - exists "". reflexivity.
  - destruct (Ascii.eqb c "~"); [| exists (String c r); reflexivity].
    destruct (split_at_sep_joint t r) as (name & d & ->).
    destruct (if String.eqb name "" then _ else _) as [home|];
      [| exists (String c r); reflexivity].
    rewrite <- append_assoc, append_cons_nonempty. eexists. reflexivity.
Qed.

Lemma expanduser_plain os path :
  String.prefix "~" path = false -> expanduser os path = path.
Proof.
  destruct path as [|c rest]; [reflexivity |].
  rewrite prefix_cons, prefix_nil, andb_true_r, Ascii.eqb_sym.
  unfold expanduser. intros ->. reflexivity.
Qed.

(** The home directory of the current user takes the place of a
    leading [~] that a separator follows. *)
Lemma expanduser_home os home t :
  environ os "HOME" = Some home ->
  expanduser os (String "~" (String "/" t)) = rstrip_sep home +:+ String "/" t.
Proof.
  intros Hhome. unfold expanduser. cbn [Ascii.eqb Bool.eqb split_at_sep].
  cbn [String.eqb]. rewrite Hhome, append_cons_nonempty. reflexivity.
Qed.

(** ** Reading a timestamp back *)

Lemma digit_char_value d :
  0 <= d <= 9 -> Z.of_nat (nat_of_ascii (digit_char d)) - 48 = d.
Proof.
  intros H.
  assert (Hd : d = 0 \/ d = 1 \/ d = 2 \/ d = 3 \/ d = 4 \/ d = 5 \/ d = 6 \/ d = 7
               \/ d = 8 \/ d = 9) by lia.
  repeat (destruct Hd as [-> | Hd]; [reflexivity |]). subst d. reflexivity.
Qed.

Lemma digits_number_app a b : forall acc,
  digits_number acc (a +:+ b) = digits_number (digits_number acc a) b.
Proof. induction a as [|c a IH]; intros acc; [reflexivity | apply IH]. Qed.

Lemma digits_number_pad width : forall acc n,
  0 <= n < 10 ^ Z.of_nat width ->
  digits_number acc (pad_decimal width n) = acc * 10 ^ Z.of_nat width + n.
Proof.
  induction width as [|w IH]; intros acc n Hn.
  - simpl in *. lia.
  - cbn [pad_decimal]. rewrite digits_number_app.
    rewrite Nat2Z.inj_succ, Z.pow_succ_r in * by lia.
    rewrite IH by (split; [apply Z.div_pos; lia | apply Z.div_lt_upper_bound; lia]).
    cbn [digits_number].
    rewrite digit_char_value by (pose proof (Z.mod_pos_bound n 10); lia).
    pose proof (Z.div_mod n 10). lia.
Qed.

Lemma string_take_app u t : string_take (String.length u) (u +:+ t) = u.
Proof.
  induction u as [|x u IH]; [destruct t; reflexivity | simpl; rewrite IH; reflexivity].
Qed.

Lemma field_skip a k start len s :
  String.length a = k -> field (k + start) len (a +:+ s) = field start len s.
Proof.
  intros <-. unfold field. f_equal. f_equal.
  induction a as [|c a IH]; [reflexivity | exact IH].
Qed.

Lemma field_here u len b :
  String.length u = len -> field 0 len (u +:+ b) = digits_number 0 u.
Proof.
  intros <-. unfold field. cbn [string_drop]. rewrite string_take_app. reflexivity.
Qed.

(** The digits of a timestamp read back as the fields of the clock
    reading. *)
Lemma timestamp_fields now :
  datetime_ok now ->
  let ts := timestamp_yyyymmdd_hhmmss now in
  field 0 4 ts = year now /\ field 4 2 ts = month now /\ field 6 2 ts = day now
  /\ field 9 2 ts = hour now /\ field 11 2 ts = minute now
  /\ field 13 2 ts = second now.
Proof.
  intros (Hy & Hm & Hd & Hh & Hmi & Hs) ts. subst ts.
  unfold timestamp_yyyymmdd_hhmmss. rewrite ?append_assoc.
  assert (P4 : forall n, String.length (pad_decimal 4 n) = 4%nat)
    by apply pad_decimal_length.
  assert (P2 : forall n, String.length (pad_decimal 2 n) = 2%nat)
    by apply pad_decimal_length.
  assert (N4 : forall n, 1000 <= n <= 9999 -> digits_number 0 (pad_decimal 4 n) = n)
    by (intros n Hn; rewrite digits_number_pad; simpl; lia).
  assert (N2 : forall n, 0 <= n <= 99 -> digits_number 0 (pad_decimal 2 n) = n)
    by (intros n Hn; rewrite digits_number_pad; simpl; lia).
  repeat split.
  - rewrite field_here by apply P4. apply N4, Hy.
  - rewrite (field_skip _ 4 0) by apply P4.
    rewrite field_here by apply P2. apply N2. lia.
  - rewrite (field_skip _ 4 2) by apply P4. rewrite (field_skip _ 2 0) by apply P2.
    rewrite field_here by apply P2. apply N2. lia.
  - rewrite (field_skip _ 4 5) by apply P4. rewrite (field_skip _ 2 3) by apply P2.
    rewrite (field_skip _ 2 1) by apply P2. rewrite (field_skip "_" 1 0) by reflexivity.
    rewrite field_here by apply P2. apply N2. lia.
  - rewrite (field_skip _ 4 7) by apply P4. rewrite (field_skip _ 2 5) by apply P2.
    rewrite (field_skip _ 2 3) by apply P2. rewrite (field_skip "_" 1 2) by reflexivity.
    rewrite (field_skip _ 2 0) by apply P2.
    rewrite field_here by apply P2. apply N2. lia.
  - rewrite (field_skip _ 4 9) by apply P4. rewrite (field_skip _ 2 7) by apply P2.
    rewrite (field_skip _ 2 5) by apply P2. rewrite (field_skip "_" 1 4) by reflexivity.
    rewrite (field_skip _ 2 2) by apply P2. rewrite (field_skip _ 2 0) by apply P2.
    rewrite <- (append_nil_r (pad_decimal 2 (second now))).
    rewrite field_here by apply P2. apply N2. lia.
Qed.

(** ** Output paths *)

(** C8.  [expand_output_path_template] replaces every
    [{ts}] of the template by the timestamp of the clock reading and
    then expands a leading [~].  The timestamp is eight digits, an
    underscore and six digits, and its digits read back as the year,
    month, day, hour, minute and second of the reading.  For a template
    that ends in [/capture_{ts}.jsonl] the result ends in [/capture_],
    the timestamp and [.jsonl]; a part before that with neither [{ts}]
    nor a leading [~] is kept as it is; and a part before that which is
    [~], alone or followed by a path, has the home directory of the
    current user in place of the [~].  When no home directory of the
    system contains [{ts}], the result contains no [{ts}], for this
    and for every other template. *)
Theorem expand_output_path_template_capture (os : os_env) (now : datetime)
    (prefix : string) :
  datetime_ok now ->
  let ts := timestamp_yyyymmdd_hhmmss now in
  let date := pad_decimal 4 (year now) +:+ pad_decimal 2 (month now)
              +:+ pad_decimal 2 (day now) in
  let time := pad_decimal 2 (hour now) +:+ pad_decimal 2 (minute now)
              +:+ pad_decimal 2 (second now) in
  let result := expand_output_path_template os now (prefix +:+ "/capture_{ts}.jsonl") in
  ts = date +:+ "_" +:+ time
  /\ String.length date = 8%nat /\ string_forallb is_digit date = true
  /\ String.length time = 6%nat /\ string_forallb is_digit time = true
  /\ (field 0 4 ts = year now /\ field 4 2 ts = month now /\ field 6 2 ts = day now
      /\ field 9 2 ts = hour now /\ field 11 2 ts = minute now
      /\ field 13 2 ts = second now)
  /\ (home_dirs_plain os -> contains "{ts}" result = false)
  /\ (exists dir, result = dir +:+ "/capture_" +:+ date +:+ "_" +:+ time +:+ ".jsonl")
  /\ (contains "{ts}" prefix = false -> String.prefix "~" prefix = false ->
      result = prefix +:+ "/capture_" +:+ date +:+ "_" +:+ time +:+ ".jsonl")
  /\ (forall home rest,
        environ os "HOME" = Some home ->
        prefix = "~" +:+ rest ->
        rest = "" \/ String.prefix "/" rest = true ->
        contains "{ts}" rest = false ->
        result
        = rstrip_sep home +:+ rest +:+ "/capture_" +:+ date +:+ "_" +:+ time +:+ ".jsonl")
  /\ (home_dirs_plain os ->
      forall template,
        contains "{ts}" (expand_output_path_template os now template) = false).
Proof.
  intros Hnow ts date time result.
  destruct (timestamp_shape now) as (Hts & Hdl & Hdd & Htl & Htd).
  fold date time in Hts, Hdl, Hdd, Htl, Htd.
  assert (Hall : home_dirs_plain os ->
             forall template,
               contains "{ts}" (expand_output_path_template os now template) = false).
  { intros Hhome template. apply expanduser_no_placeholder; [exact Hhome |].
    apply replace_ts_no_placeholder. }
  assert (Hres : result
                 = expanduser os
                     (str_replace "{ts}" (timestamp_yyyymmdd_hhmmss now) prefix
                      +:+ "/capture_" +:+ date +:+ "_" +:+ time +:+ ".jsonl")).
  { subst result. unfold expand_output_path_template.
    rewrite str_replace_app by reflexivity.
    apply (f_equal (expanduser os)), (f_equal (String.append _)).
    transitivity ("/capture_" +:+ timestamp_yyyymmdd_hhmmss now +:+ ".jsonl");
      [reflexivity |].
    rewrite Hts, !append_assoc. reflexivity. }
  split; [exact Hts |].
  split; [exact Hdl |]. split; [exact Hdd |].
  split; [exact Htl |]. split; [exact Htd |].
  split; [exact (timestamp_fields now Hnow) |].
  split; [intros Hhome; apply Hall, Hhome |].
  split; [rewrite Hres; apply (expanduser_keeps_tail os) |].
  split; [| split; [| exact Hall]].
  - intros Hp Htilde. rewrite Hres.
    rewrite str_replace_unchanged by exact Hp.
    apply expanduser_plain.
    destruct prefix as [|c p]; [reflexivity |].
    simpl String.append. rewrite prefix_cons, prefix_nil in *. exact Htilde.
  - intros home rest Hh -> Hrest Hplain. rewrite Hres.
    rewrite str_replace_unchanged
      by (change ("~" +:+ rest) with (String "~" rest); cbn [contains];
          rewrite prefix_cons, Hplain; reflexivity).
    change ("~" +:+ rest) with (String "~" rest).
    destruct Hrest as [-> | Hsep].
    + exact (expanduser_home os home _ Hh).
    + destruct rest as [|c rest]; [discriminate |].
      rewrite prefix_cons, prefix_nil, andb_true_r in Hsep.
      apply Ascii.eqb_eq in Hsep as <-.
      exact (expanduser_home os home _ Hh).
Qed.

Lemma expand_output_path_template_capture_witness :
  expand_output_path_template (@os Sample.env) (@clock Sample.env O)
    ("~/captures" +:+ "/capture_{ts}.jsonl")
  = "/home/user/captures/capture_20240506_070809.jsonl"
  /\ contains "{ts}"
       (expand_output_path_template (@os Sample.env) (@clock Sample.env O)
          ("~/captures" +:+ "/capture_{ts}.jsonl")) = false.
Proof.
  destruct (expand_output_path_template_capture (@os Sample.env) (@clock Sample.env O)
              "~/captures") as (_ & _ & _ & _ & _ & _ & Hno & _ & _ & Hhome & _).
  - unfold datetime_ok. simpl. lia.
  - split.
    + rewrite (Hhome "/home/user" "/captures" eq_refl eq_refl (or_intror eq_refl) eq_refl).
      reflexivity.
    + apply Hno. intros home [H | [H | [name H]]]; simpl in H; try discriminate.
      injection H as <-. reflexivity.
Defined.

(** With a home directory whose name holds the placeholder, the
    placeholder is in the result: the replacement is done before the
    [~] is expanded. *)
Lemma expansion_keeps_placeholder_of_home :
  expand_output_path_template Sample.odd_home (@clock Sample.env O)
    ("~" +:+ "/capture_{ts}.jsonl")
  = "/home/{ts}/capture_20240506_070809.jsonl"
  /\ contains "{ts}"
       (expand_output_path_template Sample.odd_home (@clock Sample.env O)
          ("~" +:+ "/capture_{ts}.jsonl")) = true.
Proof. split; reflexivity. Qed.

(** ** More on timestamps and output paths *)

(** A template without placeholder and without leading [~] is the
    output path, whatever the clock and the environment. *)
Theorem expand_plain_template (os : os_env) (now : datetime) (template : string) :
  contains "{ts}" template = false ->
  String.prefix "~" template = false ->
  expand_output_path_template os now template = template.
Proof.
  intros Hts Htilde. unfold expand_output_path_template.
  rewrite str_replace_unchanged by exact Hts. apply expanduser_plain, Htilde.
Qed.

Lemma expand_plain_template_witness :
  expand_output_path_template (@os Sample.env) (@clock Sample.env O) "/data/capture.jsonl"
  = "/data/capture.jsonl".
Proof.
  apply expand_plain_template; reflexivity.
Defined.
